(** * SNPnexus annotation tables: a shallow embedding of [bsmcalls/SNPnexus.py]

    The module reads per-sample annotation files, resolves duplicated
    variants, joins the sources into one wide table, binarizes missingness
    against a call set, and recodes categorical and set-valued columns.
    Tables are column-oriented, as pandas stores them: an index of variant
    keys and an ordered list of labelled columns.  Python exceptions are
    values of [exn]; every function that can raise returns a [result].
    What pandas does ([read_csv], [concat], [reindex], [Categorical],
    [fillna]) is modelled next to the function that calls it.  The module
    [mosaicforecast.py] only runs external tools and is not embedded. *)

From stdpp Require Import base decidable option list strings gmap.
From Stdlib Require Import ZArith Lia Ascii.

Local Open Scope string_scope.
Local Open Scope list_scope.

(** ** Exceptions and the error monad *)

Inductive exn : Type :=
  | ValueError
  | KeyError
  | TypeError
  | AttributeError
  | FileNotFoundError
  | InvalidIndexError
  | OverflowError.

#[global] Instance exn_eq_dec : EqDecision exn.
Proof. solve_decision. Defined.

Inductive result (A : Type) : Type :=
  | Ok (a : A)
  | Raise (e : exn).
Arguments Ok {A} a.
Arguments Raise {A} e.

#[global] Instance result_ret : MRet result := fun A a => Ok a.

#[global] Instance result_bind : MBind result := fun A B f m =>
  match m with
  | Ok a => f a
  | Raise e => Raise e
  end.

Fixpoint mapR {A B} (f : A -> result B) (l : list A) : result (list B) :=
  match l with
  | [] => Ok []
  | x :: l' => y ← f x; ys ← mapR f l'; Ok (y :: ys)
  end.

Fixpoint foldR {A S} (f : S -> A -> result S) (s : S) (l : list A) : result S :=
  match l with
  | [] => Ok s
  | x :: l' => s' ← f s x; foldR f s' l'
  end.

(** ** Iterating a Python [set]

    The order in which a [set] yields its elements is not specified by the
    language.  It is taken as a parameter: any enumeration of the distinct
    elements. *)

Class SetOrder : Type := {
  set_list : forall (A : Type) `{EqDecision A}, list A -> list A;
  set_list_perm : forall (A : Type) `{EqDecision A} (l : list A),
    set_list A l ≡ₚ remove_dups l
}.
Arguments set_list {_} {A _} l.

(** One admissible order: the one [remove_dups] leaves. *)
Definition dedup_order : SetOrder :=
  {| set_list := fun A _ l => remove_dups l;
     set_list_perm := fun A _ l => reflexivity (remove_dups l) |}.

(** ** Data model *)

(** The composite identity of one candidate variant in one sample. *)
Record VariantKey : Type := {
  individual : string;
  tissue : string;
  chrom : string;
  pos : Z;
  mutation : string
}.

#[global] Instance VariantKey_eq_dec : EqDecision VariantKey.
Proof. solve_decision. Defined.

(** A cell of a table.  [NaN] is the missing value; [Num] carries a numeric
    value, which no function below computes on. *)
Inductive cell : Type :=
  | NaN
  | Str (s : string)
  | Num (z : Z)
  | Bool (b : bool).

#[global] Instance cell_eq_dec : EqDecision cell.
Proof. solve_decision. Defined.

Inductive dtype : Type :=
  | object
  | int64
  | float64
  | bool_
  | int8
  | category (cats : list cell) (ordered : bool).

#[global] Instance dtype_eq_dec : EqDecision dtype.
Proof. solve_decision. Defined.

Record column : Type := { dt : dtype; cells : list cell }.

#[global] Instance column_eq_dec : EqDecision column.
Proof. solve_decision. Defined.

Record DataFrame : Type := {
  index : list VariantKey;
  columns : list (string * column)
}.

#[global] Instance DataFrame_eq_dec : EqDecision DataFrame.
Proof. solve_decision. Defined.

Definition labels (df : DataFrame) : list string := (columns df).*1.

(** The invariant of a pandas frame with unique column labels: every column
    is as long as the index. *)
Definition wf_frame (df : DataFrame) : Prop :=
  NoDup (labels df) /\
  Forall (fun lc => length (cells lc.2) = length (index df)) (columns df).

#[global] Instance wf_frame_dec df : Decision (wf_frame df).
Proof. unfold wf_frame. apply _. Defined.

(** [df[col]]: the column labelled [col], [KeyError] when there is none. *)
Fixpoint lookup_col (cols : list (string * column)) (col : string) : option column :=
  match cols with
  | [] => None
  | (l, c) :: cols' => if decide (l = col) then Some c else lookup_col cols' col
  end.

Definition getitem (df : DataFrame) (col : string) : result column :=
  match lookup_col (columns df) col with
  | Some c => Ok c
  | None => Raise KeyError
  end.

(** [df[col] = c]: writes every column that carries the label, in place,
    when the label exists; appends the column after the last one
    otherwise. *)
Fixpoint replace_col (cols : list (string * column)) (col : string) (c : column)
  : list (string * column) :=
  match cols with
  | [] => []
  | (l, c0) :: cols' => (l, if decide (l = col) then c else c0) :: replace_col cols' col c
  end.

Fixpoint set_col (cols : list (string * column)) (col : string) (c : column)
  : list (string * column) :=
  match cols with
  | [] => [(col, c)]
  | (l, c0) :: cols' =>
      if decide (l = col) then (l, c) :: replace_col cols' col c
      else (l, c0) :: set_col cols' col c
  end.

Definition setitem (df : DataFrame) (col : string) (c : column) : DataFrame :=
  {| index := index df; columns := set_col (columns df) col c |}.

(** The values a list [l], aligned with the index [idx], holds at the rows
    whose key is [k], in row order. *)
Definition rows_where {A} (k : VariantKey) (idx : list VariantKey) (l : list A) : list A :=
  (filter (fun p => p.1 = k) (zip idx l)).*2.

(** ** [pd.concat] along the rows ([axis=0])

    The columns of the result are the union of the operands' labels in order
    of first appearance; an operand lacking a column contributes missing
    values.  Operands whose labels are all identical are stacked position by
    position, which is also how pandas treats repeated labels; repeated
    labels in operands that differ raise [InvalidIndexError].  [None]
    operands are dropped, and nothing left to concatenate is a
    [ValueError]. *)

Definition is_numeric (d : dtype) : bool :=
  match d with
  | int64 | float64 | int8 => true
  | _ => false
  end.

(** The dtype two stacked blocks are stored in. *)
Definition common_dtype (d1 d2 : dtype) : dtype :=
  if decide (d1 = d2) then d1
  else match d1, d2 with
       | int8, int64 | int64, int8 => int64
       | _, _ => if is_numeric d1 && is_numeric d2 then float64 else object
       end.

(** The dtype of a block widened to hold missing values. *)
Definition na_dtype (d : dtype) : dtype :=
  match d with
  | int64 | int8 => float64
  | bool_ => object
  | d => d
  end.

Definition append_col (c1 c2 : column) : column :=
  {| dt := common_dtype (dt c1) (dt c2); cells := cells c1 ++ cells c2 |}.

Definition nan_col (d : dtype) (n : nat) : column :=
  {| dt := na_dtype d; cells := replicate n NaN |}.

Definition append_rows_pos (a b : DataFrame) : DataFrame :=
  {| index := index a ++ index b;
     columns := zip_with (fun x y => (x.1, append_col x.2 y.2)) (columns a) (columns b) |}.

Definition append_rows (a b : DataFrame) : DataFrame :=
  {| index := index a ++ index b;
     columns :=
       (fun lab =>
          (lab,
           match lookup_col (columns a) lab, lookup_col (columns b) lab with
           | Some ca, Some cb => append_col ca cb
           | Some ca, None => append_col ca (nan_col (dt ca) (length (index b)))
           | None, Some cb => append_col (nan_col (dt cb) (length (index a))) cb
           | None, None => nan_col object (length (index a) + length (index b))
           end))
       <$> (labels a ++ list_difference (labels b) (labels a)) |}.

Fixpoint stack (app : DataFrame -> DataFrame -> DataFrame)
    (df : DataFrame) (rest : list DataFrame) : DataFrame :=
  match rest with
  | [] => df
  | df' :: rest' => app df (stack app df' rest')
  end.

Definition concat_axis0 (objs : list (option DataFrame)) : result DataFrame :=
  match omap id objs with
  | [] => Raise ValueError
  | df :: rest =>
      if bool_decide (Forall (fun df' => labels df' = labels df) rest)
      then Ok (stack append_rows_pos df rest)
      else if bool_decide (Forall (fun df' => NoDup (labels df')) (df :: rest))
      then Ok (stack append_rows df rest)
      else Raise InvalidIndexError
  end.

(** ** Duplicate Resolver: [annotation_duplicates] *)

(** [annot.index.duplicated()]: marks every occurrence of a key but the first. *)
Fixpoint duplicated_from (seen idx : list VariantKey) : list bool :=
  match idx with
  | [] => []
  | k :: idx' => bool_decide (k ∈ seen) :: duplicated_from (k :: seen) idx'
  end.

Definition duplicated (idx : list VariantKey) : list bool := duplicated_from [] idx.

Definition any (l : list bool) : bool := existsb id l.

(** [annot.loc[[var]]]: the rows whose key is [var], in row order. *)
Definition loc (annot : DataFrame) (var : VariantKey) : DataFrame :=
  {| index := filter (fun k => k = var) (index annot);
     columns :=
       (fun lc => (lc.1, {| dt := dt lc.2;
                            cells := rows_where var (index annot) (cells lc.2) |}))
       <$> columns annot |}.

(** [lines.iloc[[0]]]: the first row. *)
Definition iloc0 (lines : DataFrame) : DataFrame :=
  {| index := take 1 (index lines);
     columns := (fun lc => (lc.1, {| dt := dt lc.2; cells := take 1 (cells lc.2) |}))
                <$> columns lines |}.

(** [sep.join(l)]: every item must be a [str]. *)
Fixpoint str_join (sep : string) (l : list cell) : result string :=
  match l with
  | [] => Ok ""
  | [Str s] => Ok s
  | Str s :: l' => r ← str_join sep l'; Ok (s +:+ sep +:+ r)
  | _ => Raise TypeError
  end.

Definition do_var (annot : DataFrame) (sep : string) (var : VariantKey) : result DataFrame :=
  let lines := loc annot var in
  if decide (length (index lines) = 1%nat) then Ok lines
  else
    foldR (fun line col =>
             c ← getitem lines col;
             if decide (dt c = object)
             then s ← str_join sep (cells c);
                  Ok (setitem line col {| dt := object; cells := [Str s] |})
             else Ok line)
          (iloc0 lines) (labels annot).

Definition annotation_duplicates `{SetOrder} (annot : DataFrame) (sep : string)
  : result DataFrame :=
  if negb (any (duplicated (index annot))) then Ok annot
  else
    let A := set_list (index annot) in
    l ← mapR (do_var annot sep) A;
    concat_axis0 (Some <$> l).

(** ** Python strings *)

(** The characters of a string, each as a string: what iterating a [str]
    yields. *)
Fixpoint chars (s : string) : list string :=
  match s with
  | EmptyString => []
  | String a s' => String a EmptyString :: chars s'
  end.

(** [s.split(sep)] for a non-empty [sep]: [skip] counts the characters of a
    separator still to be passed over. *)
Fixpoint split_from (sep : string) (skip : nat) (s : string) : list string :=
  match s with
  | EmptyString => [EmptyString]
  | String a s' =>
      match skip with
      | S n => split_from sep n s'
      | O =>
          if String.prefix sep s
          then EmptyString :: split_from sep (String.length sep - 1) s'
          else match split_from sep 0 s' with
               | t :: ts => String a t :: ts
               | [] => [String a EmptyString]
               end
      end
  end.

(** [s.split(sep)]: an empty separator is a [ValueError]. *)
Definition split (sep s : string) : result (list string) :=
  if decide (sep = "") then Raise ValueError else Ok (split_from sep 0 s).

(** ** Binarizer: [extended_columns] and [binarize_cols] *)

(** [functools.reduce(operator.concat, l)]: a [TypeError] on an empty list,
    there being no initial value. *)
Definition reduce_concat {A} (l : list (list A)) : result (list A) :=
  match l with
  | [] => Raise TypeError
  | x :: l' => Ok (foldl app x l')
  end.

Definition extended_columns (columns cols2insert : list string) (suffix : string)
  : result (list string) :=
  let helper c := if bool_decide (c ∈ cols2insert) then [c; c +:+ suffix] else [c] in
  let l := helper <$> columns in
  reduce_concat l.

(** [df.reindex(columns=cols)]: a label the frame lacks gives a column of
    missing values; a frame with repeated labels cannot be reindexed, unless
    the target is its own list of labels. *)
Definition reindex_columns (df : DataFrame) (cols : list string) : result DataFrame :=
  if decide (labels df = cols) then Ok df
  else if decide (NoDup (labels df)) then
    Ok {| index := index df;
          columns :=
            (fun lab =>
               (lab, match lookup_col (columns df) lab with
                     | Some c => c
                     | None => {| dt := float64;
                                  cells := replicate (length (index df)) NaN |}
                     end)) <$> cols |}
  else Raise ValueError.

(** The value a column holds at key [k], missing when the key is absent. *)
Definition value_at (old : list VariantKey) (c : column) (k : VariantKey) : cell :=
  default NaN (head (rows_where k old (cells c))).

(** A column realigned from the index [old] to the index [idx]; its dtype
    is widened when some key of [idx] is new. *)
Definition reindex_col (old idx : list VariantKey) (c : column) : column :=
  {| dt := if bool_decide (Forall (fun k => k ∈ old) idx) then dt c else na_dtype (dt c);
     cells := value_at old c <$> idx |}.

(** [df.reindex(index=idx)]: the rows of [idx], in its order; a key the
    frame lacks gives a row of missing values; a frame with repeated keys
    cannot be reindexed, unless the target is its own index. *)
Definition reindex_index (df : DataFrame) (idx : list VariantKey) : result DataFrame :=
  if decide (index df = idx) then Ok df
  else if decide (NoDup (index df)) then
    Ok {| index := idx;
          columns := (fun lc => (lc.1, reindex_col (index df) idx lc.2)) <$> columns df |}
  else Raise ValueError.

(** [np.int8(s.isna())] *)
Definition isna (c : column) : list cell :=
  (fun v => Num (if decide (v = NaN) then 1 else 0)) <$> cells c.

(** [pd.Categorical(s)] of zeros and ones: the categories are the values
    present, in increasing order. *)
Definition Categorical_int8 (s : list cell) : column :=
  {| dt := category (filter (fun v => v ∈ s) [Num 0; Num 1]) false; cells := s |}.

Definition do_col (suffix : string) (do_categ : bool) (val : DataFrame) (col : string)
  : result DataFrame :=
  c ← getitem val col;
  let s := isna c in
  Ok (setitem val (col +:+ suffix)
        (if do_categ then Categorical_int8 s else {| dt := int8; cells := s |})).

Definition binarize_cols (cols2binarize : list string) (annot calls : DataFrame)
    (suffix : string) (do_categ : bool) : result DataFrame :=
  columns ← extended_columns (labels annot) cols2binarize suffix;
  val ← reindex_columns annot columns;
  val ← reindex_index val (index calls);
  foldR (do_col suffix do_categ) val cols2binarize.

(** ** Categorical Regularizer: [regularize_categ_cols] *)

(** [old is np.nan], for a value [old] that iterating a column of dtype [d]
    yields.  An object column hands out the [np.nan] object it holds for a
    missing value, and so does a categorical one, whose categories are
    strings or the integers of an indicator; a float64 column makes a new
    float of every value, and a new float is not that object. *)
Definition is_np_nan (d : dtype) (old : cell) : bool :=
  match old with
  | NaN => match d with
           | object | category _ _ => true
           | _ => false
           end
  | _ => false
  end.

(** The inner [helper], applied to the values of a column of dtype [d]: the
    first category, in list order, found among the tokens of the cell; the
    cell itself when there is none, or when it is the [np.nan] object.  Any
    other value that is no string is a [ValueError]. *)
Definition helper (d : dtype) (categories : list string) (old : cell) : result cell :=
  if is_np_nan d old then Ok old
  else match old with
       | Str s =>
           let l := split_from ":" 0 s in
           match list_find (fun cat => cat ∈ l) categories with
           | Some (_, cat) => Ok (Str cat)
           | None => Ok old
           end
       | _ => Raise ValueError
       end.

(** [pd.Categorical(s, categories=categories, ordered=True)]: a value that
    is not a category becomes missing; repeated categories are a
    [ValueError]. *)
Definition Categorical (s : list cell) (categories : list string) : result column :=
  if decide (NoDup categories)
  then Ok {| dt := category (Str <$> categories) true;
             cells := (fun v => if bool_decide (v ∈ Str <$> categories) then v else NaN)
                      <$> s |}
  else Raise ValueError.

(** [s.fillna(value)] on a categorical: the fill value must be a category. *)
Definition fillna (c : column) (value : string) : result column :=
  match dt c with
  | category cats _ =>
      if bool_decide (Str value ∈ cats)
      then Ok {| dt := dt c;
                 cells := (fun v => if decide (v = NaN) then Str value else v) <$> cells c |}
      else Raise TypeError
  | _ => Ok {| dt := dt c;
               cells := (fun v => if decide (v = NaN) then Str value else v) <$> cells c |}
  end.

(** The body of the loop over the (deep-copied) Category Specification. *)
Definition regularize_col (nafillval : string) (val : DataFrame)
    (item : string * list string) : result DataFrame :=
  let col := item.1 in
  let categories := item.2 ++ ["other"] in
  s ← getitem val col;
  s ← mapR (helper (dt s) categories) (cells s);
  s ← Categorical s categories;
  s ← fillna s nafillval;
  Ok (setitem val col s).

(** [colsdict] lists the items of the dictionary in insertion order; [calls]
    is accepted and not consulted. *)
Definition regularize_categ_cols (colsdict : list (string * list string))
    (annot calls : DataFrame) (nafillval : string) : result DataFrame :=
  foldR (regularize_col nafillval) annot colsdict.

(** ** Set-Valued Vectorizer: [vectorize_setvalued] *)

(** [l.index(x)]: the position of the first [x], [ValueError] without one. *)
Definition list_index (l : list string) (x : string) : result nat :=
  match list_find (fun y => y = x) l with
  | Some (i, _) => Ok i
  | None => Raise ValueError
  end.

(** The frame is passed and returned: the source assigns the new columns in
    place.  [colnames], the order with the new names ahead of the
    vectorized column, is computed as in the source, and as in the source
    nothing is done with it. *)
Definition vectorize_setvalued `{SetOrder} (annot : DataFrame) (colname nonestr sepstr : string)
  : result DataFrame :=
  c ← getitem annot colname;
  ll ← mapR (fun y => match y with
                      | Str y => split sepstr y
                      | _ => Raise AttributeError
                      end) (cells c);
  let s := filter (fun y => y <> nonestr) (set_list (concat ll)) in
  let prefix := if existsb (fun y => bool_decide (y ∈ labels annot)) s
                then colname +:+ "_" else "" in
  let new_colnames := (fun y => prefix +:+ y) <$> s in
  let old_colnames := labels annot in
  ix ← list_index old_colnames colname;
  let colnames := take ix old_colnames ++ new_colnames ++ drop ix old_colnames in
  Ok (foldl (fun annot col =>
               setitem annot col
                 {| dt := bool_;
                    cells := (fun y => Bool (bool_decide (col ∈ y))) <$> ll |})
            annot new_colnames).

(** The [nonestrl] argument: a list of none-tokens, or, as with the default
    ['None'], a single string. *)
Inductive nonestrl_arg : Type :=
  | OneStr (s : string)
  | StrList (l : list string).

Definition py_iter (x : nonestrl_arg) : list string :=
  match x with
  | OneStr s => chars s
  | StrList l => l
  end.

Definition nonestrl_default : nonestrl_arg := OneStr "None".

(** [data] is a copy of [annot]; each call of the vectorizer updates it. *)
Definition vectorize_multiple_setvalued `{SetOrder} (annot : DataFrame)
    (colnamel : list string) (nonestrl : nonestrl_arg) (sepstr : string)
  : result DataFrame :=
  let data := annot in
  foldR (fun data cn => vectorize_setvalued data cn.1 cn.2 sepstr)
        data (zip colnamel (py_iter nonestrl)).

(** ** Annotation Table Reader: [read_TXT_per_annotation] *)

Definition newline : Ascii.ascii := Ascii.ascii_of_nat 10.

Fixpoint has_newline (s : string) : bool :=
  match s with
  | EmptyString => false
  | String a s' => bool_decide (a = newline) || has_newline s'
  end.

Fixpoint strip_prefix (pre s : string) : option string :=
  match pre, s with
  | EmptyString, _ => Some s
  | String a pre', String b s' => if decide (a = b) then strip_prefix pre' s' else None
  | String _ _, EmptyString => None
  end.

Fixpoint strip_suffix (suf s : string) : option string :=
  if decide (s = suf) then Some EmptyString
  else match s with
       | EmptyString => None
       | String a s' => String a <$> strip_suffix suf s'
       end.

(** [re.sub('^chr(.+):1$', '\\1', varid)].  The pattern is anchored at both
    ends: the whole of [varid] must be ["chr"], a non-empty group without
    line break, and [":1"], the [$] also matching before one final line
    break; the match is replaced by the group.  Anything else is returned as
    it is. *)
Definition re_sub_chr (varid : string) : string :=
  match strip_prefix "chr" varid with
  | None => varid
  | Some r =>
      let '(body, tail) :=
        match strip_suffix (String newline EmptyString) r with
        | Some b => (b, String newline EmptyString)
        | None => (r, EmptyString)
        end in
      match strip_suffix ":1" body with
      | Some g =>
          if bool_decide (g <> "") && negb (has_newline g) then g +:+ tail else varid
      | None => varid
      end
  end.

Definition varid2index (varid : string) : list string :=
  let s := re_sub_chr varid in
  split_from ":" 0 s.

(** [os.path.basename]: what follows the last slash. *)
Fixpoint after_last_slash (s : string) : option string :=
  match s with
  | EmptyString => None
  | String a s' =>
      match after_last_slash s' with
      | Some r => Some r
      | None => if decide (a = "/"%char) then Some s' else None
      end
  end.

Definition basename (path : string) : string := default path (after_last_slash path).

(** [re.sub('.txt', '', s)]: every occurrence, left to right, of a character
    other than a line break followed by ["txt"] is deleted; the dot of the
    pattern is not escaped.  [skip] counts the characters of a match still to
    be deleted. *)
Fixpoint re_sub_dot_txt (skip : nat) (s : string) : string :=
  match s with
  | EmptyString => EmptyString
  | String a s' =>
      match skip with
      | S n => re_sub_dot_txt n s'
      | O =>
          if negb (bool_decide (a = newline)) && String.prefix "txt" s'
          then re_sub_dot_txt 3 s'
          else String a (re_sub_dot_txt 0 s')
      end
  end.

Definition tsvpath2annotname (tsvpath : string) : string :=
  re_sub_dot_txt 0 (basename tsvpath).

(** Decimal integers as [int] reads a string, which is how [astype('int64')]
    converts the fields of an object column: white space around the literal
    is dropped, a sign may lead, and single underscores may stand between
    digits.  A character is a code point below 256; the white space among
    these is the tab to the carriage return, the four separators from 28
    on, the blank, the next line (133) and the no-break space (160), and the
    only decimal digits are ['0'] to ['9']. *)
Definition is_space (a : Ascii.ascii) : bool :=
  let n := Ascii.nat_of_ascii a in
  ((9 <=? n)%nat && (n <=? 13)%nat) || ((28 <=? n)%nat && (n <=? 32)%nat)
  || (n =? 133)%nat || (n =? 160)%nat.

Fixpoint lstrip (s : string) : string :=
  match s with
  | EmptyString => EmptyString
  | String a s' => if is_space a then lstrip s' else s
  end.

Fixpoint rstrip (s : string) : string :=
  match s with
  | EmptyString => EmptyString
  | String a s' =>
      match rstrip s' with
      | EmptyString => if is_space a then EmptyString else String a EmptyString
      | r => String a r
      end
  end.

Definition strip (s : string) : string := rstrip (lstrip s).

Definition digit_of (a : Ascii.ascii) : option Z :=
  let n := Z.of_nat (Ascii.nat_of_ascii a) in
  if bool_decide (48 <= n <= 57)%Z then Some (n - 48)%Z else None.

(** The digits of a literal: [after_digit] tells whether the character just
    read was a digit, which an underscore and the end both require. *)
Fixpoint parse_digits (after_digit : bool) (acc : Z) (s : string) : option Z :=
  match s with
  | EmptyString => if after_digit then Some acc else None
  | String a s' =>
      match digit_of a with
      | Some d => parse_digits true (10 * acc + d)%Z s'
      | None =>
          if decide (a = "_"%char)
          then (if after_digit then parse_digits false acc s' else None)
          else None
      end
  end.

Definition py_int (s : string) : option Z :=
  match strip s with
  | EmptyString => None
  | String a s' =>
      if decide (a = "-"%char) then Z.opp <$> parse_digits false 0 s'
      else if decide (a = "+"%char) then parse_digits false 0 s'
      else parse_digits false 0 (String a s')
  end.

(** [astype('int64')] of a string: [ValueError] for an invalid literal,
    [OverflowError] outside the 64-bit range. *)
Definition astype_int64 (s : string) : result Z :=
  match py_int s with
  | None => Raise ValueError
  | Some z =>
      if bool_decide (- 2 ^ 63 <= z < 2 ^ 63)%Z then Ok z else Raise OverflowError
  end.

(** What [pd.read_csv] returns: labelled columns over a default index.  The
    parser makes repeated header names distinct, and the columns of a frame
    have one length. *)
Definition raw_ok (cols : list (string * column)) : bool :=
  bool_decide (NoDup cols.*1) &&
  match cols with
  | [] => true
  | (_, c) :: _ =>
      forallb (fun lc => Nat.eqb (length (cells lc.2)) (length (cells c))) cols
  end.

Record RawFrame : Type := {
  raw_columns : list (string * column);
  raw_wf : Is_true (raw_ok raw_columns)
}.

(** The files.  A table file is given by what the parser makes of it under a
    list of missing-value markers, an error of the parser included; a
    manifest by its sample labels. *)
Record filesystem : Type := {
  tables : string -> option (list string -> result RawFrame);
  manifests : string -> option (list string)
}.

(** [pd.read_csv(path, sep='\t', na_values=na_values)]: a path that names no
    file raises [FileNotFoundError]. *)
Definition read_csv (fs : filesystem) (path : string) (na_values : list string)
  : result RawFrame :=
  match tables fs path with
  | None => Raise FileNotFoundError
  | Some parse => parse na_values
  end.

(** [pd.DataFrame(a, columns=columns)] for the five index columns: every
    row must have five fields, and there must be a row. *)
Definition five_columns (l : list (list string))
  : result (list (string * string * string * string * string)) :=
  if decide (l = []) then Raise ValueError
  else mapR (fun r => match r with
                      | [i; t; c; p; m] => Ok (i, t, c, p, m)
                      | _ => Raise ValueError
                      end) l.

(** The reader, with flat column labels ([simplecolumns=True], the default
    and the mode the rest of the module works with). *)
Definition read_TXT_per_annotation (fs : filesystem) (tsvpath indivID tissue : string)
    (annotname : option string) (na_values : list string) : result DataFrame :=
  let annotname := default (tsvpath2annotname tsvpath) annotname in
  annot ← read_csv fs tsvpath na_values;
  varids ← match lookup_col (raw_columns annot) "Variation ID" with
           | Some c => Ok (cells c)
           | None => Raise KeyError
           end;
  l ← mapR (fun s => match s with
                     | Str s => Ok ([indivID; tissue] ++ varid2index s)
                     | _ => Raise TypeError
                     end) varids;
  df ← five_columns l;
  keys ← mapR (fun r => match r with
                        | (i, t, c, p, m) =>
                            z ← astype_int64 p; Ok (Build_VariantKey i t c z m)
                        end) df;
  let data := filter (fun lc => lc.1 ∉ ["Variation ID"; "Chromosome"; "Position"])
                     (raw_columns annot) in
  Ok {| index := keys;
        columns := (fun lc => (annotname +:+ "_" +:+ lc.1, lc.2)) <$> data |}.

(** ** Multi-Source Joiner: [get_multi_annotations] *)

Definition is_digit (a : Ascii.ascii) : bool :=
  let n := Ascii.nat_of_ascii a in (48 <=? n)%nat && (n <=? 57)%nat.

(** The longest run of digits a string starts with, and what follows. *)
Fixpoint span_digits (s : string) : string * string :=
  match s with
  | EmptyString => (EmptyString, EmptyString)
  | String a s' =>
      if is_digit a then let '(ds, r) := span_digits s' in (String a ds, r)
      else (EmptyString, s)
  end.

(** A match of ['((MSSM|PITT)_[0-9]+)_(NeuN_pl|NeuN_mn|muscle)'] at the
    start of a string: the first group, the third group and the length of
    the match. *)
Definition match_samplestr (s : string) : option (string * string * nat) :=
  site ← (if String.prefix "MSSM" s then Some "MSSM"
          else if String.prefix "PITT" s then Some "PITT" else None);
  r ← strip_prefix (site +:+ "_") s;
  let '(ds, r) := span_digits r in
  if decide (ds = "") then None
  else
    r ← strip_prefix "_" r;
    tis ← list_find (fun t => String.prefix t r = true) ["NeuN_pl"; "NeuN_mn"; "muscle"];
    Some (site +:+ "_" +:+ ds, tis.2,
          (String.length site + 1 + String.length ds + 1 + String.length tis.2)%nat).

(** [re.sub(samplestr, repl, sample)]: every match, left to right, is
    replaced; [skip] counts the characters of a match still to be passed
    over. *)
Fixpoint re_sub_samplestr (repl : string -> string -> string) (skip : nat) (s : string)
  : string :=
  match s with
  | EmptyString => EmptyString
  | String a s' =>
      match skip with
      | S n => re_sub_samplestr repl n s'
      | O =>
          match match_samplestr s with
          | Some (g1, g3, len) => repl g1 g3 +:+ re_sub_samplestr repl (len - 1) s'
          | None => String a (re_sub_samplestr repl 0 s')
          end
      end
  end.

Definition sample2indivID (sample : string) : string :=
  re_sub_samplestr (fun g1 _ => "CMC_" +:+ g1) 0 sample.

Definition sample2tissue (sample : string) : string :=
  re_sub_samplestr (fun _ g3 => g3) 0 sample.

(** The [try] of [get_annot]: a [ValueError] of the reader or of the
    resolver gives [None]; any other exception passes through.  [na_values]
    is the dictionary from source names to missing-value markers that the
    lookup with [keys] expects. *)
Definition get_annot `{SetOrder} (fs : filesystem) (annotdirpath : string)
    (na_values : gmap string (list string)) (sample annotyp : string)
  : result (option DataFrame) :=
  let sampledir := annotdirpath +:+ "/" +:+ sample in
  let tsvpath := sampledir +:+ "/" +:+ annotyp +:+ ".txt" in
  let indivID := sample2indivID sample in
  let tissue := sample2tissue sample in
  let na_val := default [] (na_values !! annotyp) in
  match annot ← read_TXT_per_annotation fs tsvpath indivID tissue None na_val;
        annotation_duplicates annot ":" with
  | Ok annot => Ok (Some annot)
  | Raise ValueError => Ok None
  | Raise e => Raise e
  end.

Definition do_annotyp `{SetOrder} (fs : filesystem) (annotdirpath : string)
    (na_values : gmap string (list string)) (samples : list string) (annotyp : string)
  : result DataFrame :=
  l ← mapR (fun s => get_annot fs annotdirpath na_values s annotyp) samples;
  concat_axis0 l.

(** The keys of several indexes, each once, in order of first appearance. *)
Definition union_index (l : list (list VariantKey)) : list VariantKey :=
  foldl (fun acc idx => acc ++ list_difference idx acc) [] l.

(** [pd.concat(l, axis=1)]: the columns of the operands side by side, over
    the union of their indexes; an operand lacking a key has missing values
    on its row.  Operands with one and the same index are put side by side
    as they are; otherwise a repeated key in an operand raises
    [InvalidIndexError]. *)
Definition concat_axis1 (l : list DataFrame) : result DataFrame :=
  match l with
  | [] => Raise ValueError
  | d :: rest =>
      if decide (Forall (fun d' => index d' = index d) rest)
      then Ok {| index := index d; columns := concat (columns <$> l) |}
      else if decide (Forall (fun d' => NoDup (index d')) l)
      then
        let idx := union_index (index <$> l) in
        Ok {| index := idx;
              columns :=
                concat ((fun d' => (fun lc => (lc.1, reindex_col (index d') idx lc.2))
                                   <$> columns d') <$> l) |}
      else Raise InvalidIndexError
  end.

Definition get_multi_annotations `{SetOrder} (fs : filesystem) (annotlist : list string)
    (vcflistpath annotdirpath : string) (na_values : gmap string (list string))
  : result DataFrame :=
  vcflist ← match manifests fs vcflistpath with
            | Some samples => Ok samples
            | None => Raise FileNotFoundError
            end;
  l ← mapR (do_annotyp fs annotdirpath na_values vcflist) annotlist;
  concat_axis1 l.

(** ** Annotating a call set: [do_annot] *)

(** The [na_values] argument of the joiner as a caller passes it: the
    default is the empty list; a dictionary is what [get_annot] looks
    into. *)
Inductive na_values_arg : Type :=
  | NaList (l : list string)
  | NaDict (d : gmap string (list string)).

(** [get_annot] asks [na_values] for its [keys] ahead of the [try]: a list
    has none, and the call ends in [AttributeError]. *)
Definition get_annot_arg `{SetOrder} (fs : filesystem) (annotdirpath : string)
    (na_values : na_values_arg) (sample annotyp : string)
  : result (option DataFrame) :=
  match na_values with
  | NaList _ => Raise AttributeError
  | NaDict d => get_annot fs annotdirpath d sample annotyp
  end.

Definition do_annotyp_arg `{SetOrder} (fs : filesystem) (annotdirpath : string)
    (na_values : na_values_arg) (samples : list string) (annotyp : string)
  : result DataFrame :=
  l ← mapR (fun s => get_annot_arg fs annotdirpath na_values s annotyp) samples;
  concat_axis0 l.

(** [get_multi_annotations] with [na_values] as passed. *)
Definition get_multi_annotations_arg `{SetOrder} (fs : filesystem) (annotlist : list string)
    (vcflistpath annotdirpath : string) (na_values : na_values_arg)
  : result DataFrame :=
  vcflist ← match manifests fs vcflistpath with
            | Some samples => Ok samples
            | None => Raise FileNotFoundError
            end;
  l ← mapR (do_annotyp_arg fs annotdirpath na_values vcflist) annotlist;
  concat_axis1 l.

(** The defaults of [get_multi_annotations]. *)
Definition default_vcflistpath : string := "/big/results/bsm/calls/filtered-vcfs.tsv".
Definition default_annotdirpath : string :=
  "/home/attila/projects/bsm/results/2020-09-07-annotations".
Definition default_na_values : na_values_arg := NaList [].

(** [annot.select_dtypes(np.number).columns] *)
Definition select_dtypes_number (df : DataFrame) : list string :=
  (filter (fun lc => is_numeric (dt lc.2) = true) (columns df)).*1.

(** [[c for c in numeric_cols if c in cols2process]]: with the default
    [None] the membership test of the first column is a [TypeError]. *)
Definition cols_in (numeric_cols : list string) (cols2process : option (list string))
  : result (list string) :=
  match cols2process with
  | Some l => Ok (filter (fun c => c ∈ l) numeric_cols)
  | None => if decide (numeric_cols = []) then Ok [] else Raise TypeError
  end.

Definition do_annot `{SetOrder} (fs : filesystem) (annotlist : list string)
    (calls : DataFrame) (cols2process : option (list string)) : result DataFrame :=
  annot ← get_multi_annotations_arg fs annotlist default_vcflistpath default_annotdirpath
             default_na_values;
  let numeric_cols := select_dtypes_number annot in
  cols2binarize ← cols_in numeric_cols cols2process;
  binarize_cols cols2binarize annot calls "_bin" false.

Module Examples.
Definition k1 : VariantKey := Build_VariantKey "CMC_MSSM_1" "muscle" "1" 100%Z "A/G".
Definition k2 : VariantKey := Build_VariantKey "CMC_MSSM_1" "muscle" "2" 200%Z "C/T".
Definition genes : DataFrame :=
  {| index := [k1; k2; k1];
     columns := [("near_gens_Overlapped Gene", {| dt := object; cells := [Str "g1"; Str "g2"; Str "g3"] |});
                 ("near_gens_Distance", {| dt := int64; cells := [Num 5%Z; Num 6%Z; Num 7%Z] |})] |}.

(** The second row of [k1] has no gene name. *)
Definition genes_na : DataFrame :=
  {| index := [k1; k1];
     columns := [("near_gens_Overlapped Gene", {| dt := object; cells := [Str "g1"; NaN] |})] |}.

Definition k3 : VariantKey := Build_VariantKey "CMC_PITT_7" "NeuN_pl" "X" 300%Z "G/A".

(** A categorical column with a two-token cell, an unlisted value and a
    missing cell, and its Category Specification. *)
Definition categ : DataFrame :=
  {| index := [k1; k2; k3];
     columns := [("score", {| dt := int64; cells := [Num 1%Z; Num 2%Z; Num 3%Z] |});
                 ("kind", {| dt := object; cells := [Str "B:A"; Str "zzz"; NaN] |})] |}.
Definition colsdict : list (string * list string) := [("kind", ["A"; "B"; "C"])].
(** A column read from a file without any value in it: float64, all
    missing. *)
Definition all_missing : DataFrame :=
  {| index := [k1; k2];
     columns := [("kind", {| dt := float64; cells := [NaN; NaN] |})] |}.

(** An annotation table with a numeric score, and a call set with one
    variant more. *)
Definition scores : DataFrame :=
  {| index := [k1; k2];
     columns := [("cons_Score", {| dt := float64; cells := [Num 1%Z; NaN] |});
                 ("near_gens_Type", {| dt := object; cells := [Str "a:b"; Str "b"] |})] |}.
Definition calls : DataFrame := {| index := [k2; k3; k1]; columns := [] |}.

(** Set-valued columns: the column of the specification's example, one
    whose token ["a"] is already a column name, and one standing between
    two other columns. *)
Definition setvalued : DataFrame :=
  {| index := [k1; k2; k3];
     columns := [("y", {| dt := object; cells := [Str "a:b"; Str "b"; Str "None"] |})] |}.
Definition setvalued_clash : DataFrame :=
  {| index := [k1; k2];
     columns := [("a", {| dt := int64; cells := [Num 1%Z; Num 2%Z] |});
                 ("y", {| dt := object; cells := [Str "a:b"; Str "b"] |})] |}.
Definition setvalued_mid : DataFrame :=
  {| index := [k1; k2];
     columns := [("x", {| dt := int64; cells := [Num 1%Z; Num 2%Z] |});
                 ("y", {| dt := object; cells := [Str "a"; Str "a"] |});
                 ("z", {| dt := int64; cells := [Num 3%Z; Num 4%Z] |})] |}.

(** A file of the annotator, as parsed: two rows of one variant, with the
    identity columns and one feature; and a file whose identities lack
    the ["chr"] prefix. *)
Definition near_gens_raw : RawFrame :=
  {| raw_columns :=
       [("Variation ID", {| dt := object;
                            cells := [Str "chr1:100:A/G:1"; Str "chr2:200:C/T:1"] |});
        ("Chromosome", {| dt := int64; cells := [Num 1%Z; Num 2%Z] |});
        ("Position", {| dt := int64; cells := [Num 100%Z; Num 200%Z] |});
        ("Overlapped Gene", {| dt := object; cells := [Str "g1"; Str "g2"] |})];
     raw_wf := I |}.
Definition nochr_raw : RawFrame :=
  {| raw_columns :=
       [("Variation ID", {| dt := object; cells := [Str "1:100:A/G:1"] |});
        ("Overlapped Gene", {| dt := object; cells := [Str "g1"] |})];
     raw_wf := I |}.
(** A conservation score for one variant, and a file with a header and no
    row. *)
Definition cons_raw : RawFrame :=
  {| raw_columns :=
       [("Variation ID", {| dt := object; cells := [Str "chrX:300:G/A:1"] |});
        ("Score", {| dt := float64; cells := [Num 5%Z] |})];
     raw_wf := I |}.
Definition norows_raw : RawFrame :=
  {| raw_columns :=
       [("Variation ID", {| dt := object; cells := [] |});
        ("Score", {| dt := float64; cells := [] |})];
     raw_wf := I |}.

(** Two samples and two sources.  In [malformed_fs] the first sample's
    [cons] file has no row; in [absent_fs] it does not exist. *)
Definition absent_fs : filesystem :=
  {| tables := fun p =>
       if decide (p = "/annot/MSSM_1_muscle/near_gens.txt")
       then Some (fun _ => Ok near_gens_raw)
       else if decide (p = "/annot/PITT_7_NeuN_pl/near_gens.txt")
       then Some (fun _ => Ok near_gens_raw)
       else if decide (p = "/annot/PITT_7_NeuN_pl/cons.txt")
       then Some (fun _ => Ok cons_raw)
       else None;
     manifests := fun p =>
       if decide (p = "/calls/filtered-vcfs.tsv")
       then Some ["MSSM_1_muscle"; "PITT_7_NeuN_pl"] else None |}.
Definition malformed_fs : filesystem :=
  {| tables := fun p =>
       if decide (p = "/annot/MSSM_1_muscle/cons.txt")
       then Some (fun _ => Ok norows_raw)
       else tables absent_fs p;
     manifests := manifests absent_fs |}.
(** One sample, whose [cons] file has no row. *)
Definition lone_fs : filesystem :=
  {| tables := tables malformed_fs;
     manifests := fun p =>
       if decide (p = "/calls/filtered-vcfs.tsv") then Some ["MSSM_1_muscle"] else None |}.
(** The first sample's [near_gens] table. *)
Definition near_gens_1 : DataFrame :=
  {| index := [k1; k2];
     columns := [("near_gens_Overlapped Gene",
                  {| dt := object; cells := [Str "g1"; Str "g2"] |})] |}.

Definition one_file (path : string) (raw : RawFrame) : filesystem :=
  {| tables := fun p => if decide (p = path) then Some (fun _ => Ok raw) else None;
     manifests := fun _ => None |}.
End Examples.

(** ** Vocabulary of the statements

    Predicates and auxiliary functions the theorems are stated with. *)

(** The cells an operand contributes to the column [lab] of a stack: its own
    column, or missing values when it has none. *)
Definition cells_or_nan (d : DataFrame) (lab : string) : list cell :=
  match lookup_col (columns d) lab with
  | Some c => cells c
  | None => replicate (length (index d)) NaN
  end.

Definition aligned (d : DataFrame) : Prop :=
  Forall (fun lc => length (cells lc.2) = length (index d)) (columns d).

Definition first_row (lc : string * column) : string * column :=
  (lc.1, {| dt := dt lc.2; cells := take 1 (cells lc.2) |}).

(** What [do_var] leaves in a column of a key on several rows. *)
Definition collapse_col (sep : string) (c : column) : result column :=
  if decide (dt c = object)
  then s ← str_join sep (cells c); Ok {| dt := object; cells := [Str s] |}
  else Ok {| dt := dt c; cells := take 1 (cells c) |}.

Definition collapse_step (sep : string) (lines line : DataFrame) (col : string)
  : result DataFrame :=
  c ← getitem lines col;
  if decide (dt c = object)
  then s ← str_join sep (cells c);
       Ok (setitem line col {| dt := object; cells := [Str s] |})
  else Ok line.

Definition is_text (v : cell) : bool :=
  match v with
  | Str _ => true
  | _ => false
  end.

(** Every cell of an object column that lies on a row of a repeated key is a
    string: what [sep.join] demands. *)
Definition text_at_duplicates (annot : DataFrame) : Prop :=
  Forall (fun lc => dt lc.2 = object ->
            Forall (fun kv =>
                      length (filter (fun k' => k' = kv.1) (index annot)) = 1%nat \/
                      is_text kv.2 = true)
                   (zip (index annot) (cells lc.2)))
         (columns annot).

#[global] Instance text_at_duplicates_dec annot : Decision (text_at_duplicates annot).
Proof. unfold text_at_duplicates. apply _. Defined.

(** The series the loop body stores for a column with categories [cats]. *)
Definition regularized (nafillval : string) (cats : list string) (c0 : column)
  : result column :=
  s ← mapR (helper (dt c0) (cats ++ ["other"])) (cells c0);
  s ← Categorical s (cats ++ ["other"]);
  fillna s nafillval.

(** What makes the regularizer return: unique keys in the specification,
    every named column present and holding nothing but text and, in an
    object or categorical column, missing values, no repeated category once
    ['other'] is appended, and a fill value among the categories. *)
Definition regularizable_col (annot : DataFrame) (nafillval : string)
    (item : string * list string) : Prop :=
  NoDup (item.2 ++ ["other"]) /\
  nafillval ∈ item.2 ++ ["other"] /\
  match lookup_col (columns annot) item.1 with
  | Some c => Forall (fun v => is_np_nan (dt c) v = true \/ is_text v = true) (cells c)
  | None => False
  end.

Definition regularizable (colsdict : list (string * list string))
    (annot : DataFrame) (nafillval : string) : Prop :=
  NoDup colsdict.*1 /\ Forall (regularizable_col annot nafillval) colsdict.

#[global] Instance regularizable_col_dec annot nafillval item :
  Decision (regularizable_col annot nafillval item).
Proof.
  unfold regularizable_col. destruct (lookup_col (columns annot) item.1); apply _.
Defined.

#[global] Instance regularizable_dec colsdict annot nafillval :
  Decision (regularizable colsdict annot nafillval).
Proof. unfold regularizable. apply _. Defined.

(** The column order the Binarizer asks for: each selected column followed
    by its indicator. *)
Definition with_indicators (columns cols2insert : list string) (suffix : string)
  : list string :=
  concat ((fun c => if bool_decide (c ∈ cols2insert) then [c; c +:+ suffix] else [c])
          <$> columns).

Definition nan_column (n : nat) : column :=
  {| dt := float64; cells := replicate n NaN |}.

(** The indicator series of a column. *)
Definition indicator (do_categ : bool) (c : column) : column :=
  if do_categ then Categorical_int8 (isna c) else {| dt := int8; cells := isna c |}.

(** The token lists of the cells of a column. *)
Definition token_lists (sepstr : string) (c : column) : result (list (list string)) :=
  mapR (fun y => match y with
                 | Str y => split sepstr y
                 | _ => Raise AttributeError
                 end) (cells c).

(** The series assigned under the name [col]. *)
Definition membership (ll : list (list string)) (col : string) : column :=
  {| dt := bool_; cells := (fun y => Bool (bool_decide (col ∈ y))) <$> ll |}.

Fixpoint has_colon (s : string) : bool :=
  match s with
  | EmptyString => false
  | String a s' => bool_decide (a = ":"%char) || has_colon s'
  end.

(** A field of a variant identity: no colon and no line break. *)
Definition plain (s : string) : Prop := has_colon s = false /\ has_newline s = false.

#[global] Instance plain_dec s : Decision (plain s).
Proof. unfold plain. apply _. Defined.

(** The token [chrCHROM:POS:MUTATION:1]. *)
Definition varid_of (c p m : string) : string :=
  "chr" +:+ c +:+ ":" +:+ p +:+ ":" +:+ m +:+ ":1".

Definition identity_columns : list string := ["Variation ID"; "Chromosome"; "Position"].

(** The (individual, tissue) pair the keys of a sample carry. *)
Definition sample_key (sample : string) : string * string :=
  (sample2indivID sample, sample2tissue sample).

Definition key_sample (k : VariantKey) : string * string := (individual k, tissue k).

(** The path of the file of a pair: [<root>/<sample>/<source>.txt]. *)
Definition tsvpath_of (annotdirpath sample annotyp : string) : string :=
  (annotdirpath +:+ "/" +:+ sample) +:+ "/" +:+ annotyp +:+ ".txt".

(** Every pair of a source is read or skipped, and some sample has a table
    for the source. *)
Definition source_settled `{SetOrder} (fs : filesystem) (annotdirpath : string)
    (na_values : gmap string (list string)) (samples : list string) (annotyp : string)
  : Prop :=
  Forall (fun s => exists o, get_annot fs annotdirpath na_values s annotyp = Ok o) samples /\
  Exists (fun s => exists T, get_annot fs annotdirpath na_values s annotyp = Ok (Some T))
         samples.

(** A slash in a string, and an occurrence of ["txt"] in a string: what
    makes a file name differ from its annotation name. *)
Fixpoint has_slash (s : string) : bool :=
  match s with
  | EmptyString => false
  | String a s' => bool_decide (a = "/"%char) || has_slash s'
  end.

Fixpoint has_txt (s : string) : bool :=
  match s with
  | EmptyString => false
  | String a s' => String.prefix "txt" s || has_txt s'
  end.

(** A string of decimal digits only. *)
Fixpoint all_digits (s : string) : bool :=
  match s with
  | EmptyString => true
  | String a s' => is_digit a && all_digits s'
  end.

(** * Properties *)

(** ** The error monad *)

Lemma bind_Ok {A B} (m : result A) (f : A -> result B) (b : B) :
  m ≫= f = Ok b -> exists a, m = Ok a /\ f a = Ok b.
Proof. destruct m as [a|e]; simpl; [eauto | discriminate]. Qed.

Lemma mapR_Ok_Forall2 {A B} (f : A -> result B) (l : list A) (l' : list B) :
  mapR f l = Ok l' -> Forall2 (fun x y => f x = Ok y) l l'.
Proof.
  revert l'. induction l as [|x l IH]; intros l' Hl; simpl in Hl.
  - injection Hl as <-. constructor.
  - apply bind_Ok in Hl as (y & Hy & Hl).
    apply bind_Ok in Hl as (ys & Hys & Hl).
    injection Hl as <-. constructor; auto.
Qed.

(** ** Labels under assignment *)

Lemma replace_col_labels cols col c : (replace_col cols col c).*1 = cols.*1.
Proof. induction cols as [|[l c0] cols IH]; csimpl; [done|]. by rewrite IH. Qed.

Lemma replace_col_notin cols col c : col ∉ cols.*1 -> replace_col cols col c = cols.
Proof.
  induction cols as [|[l c0] cols IH]; csimpl; intros Hin; [done|].
  apply not_elem_of_cons in Hin as [Hne Hin].
  rewrite decide_False by congruence. by rewrite IH.
Qed.

Lemma set_col_labels_in cols col c :
  col ∈ cols.*1 -> (set_col cols col c).*1 = cols.*1.
Proof.
  induction cols as [|[l c0] cols IH]; csimpl; intros Hin.
  - by apply elem_of_nil in Hin.
  - destruct (decide (l = col)) as [->|Hne]; csimpl; [by rewrite replace_col_labels|].
    f_equal. apply IH. apply elem_of_cons in Hin as [?|?]; [congruence|done].
Qed.

Lemma set_col_labels_notin cols col c :
  col ∉ cols.*1 -> (set_col cols col c).*1 = cols.*1 ++ [col].
Proof.
  induction cols as [|[l c0] cols IH]; csimpl; intros Hin; [done|].
  apply not_elem_of_cons in Hin as [Hne Hin].
  destruct (decide (l = col)) as [->|_]; [done|]. csimpl. by rewrite IH.
Qed.

Lemma lookup_col_Some_in cols col c :
  lookup_col cols col = Some c -> (col, c) ∈ cols.
Proof.
  induction cols as [|[l c0] cols IH]; simpl; [done|].
  destruct (decide (l = col)) as [->|Hne].
  - intros [= ->]. left.
  - intros H. right. auto.
Qed.

Lemma lookup_col_None cols col : lookup_col cols col = None <-> col ∉ cols.*1.
Proof.
  induction cols as [|[l c0] cols IH]; simpl.
  - split; [|done]. intros _. apply not_elem_of_nil.
  - destruct (decide (l = col)) as [->|Hne].
    + split; [done|]. intros H. exfalso. apply H. left.
    + rewrite IH, not_elem_of_cons. intuition congruence.
Qed.

Lemma lookup_col_in_NoDup cols col c :
  NoDup cols.*1 -> (col, c) ∈ cols -> lookup_col cols col = Some c.
Proof.
  induction cols as [|[l c0] cols IH]; simpl; intros Hnd Hin.
  - by apply elem_of_nil in Hin.
  - apply NoDup_cons in Hnd as [Hl Hnd].
    apply elem_of_cons in Hin as [[= -> ->]|Hin].
    + by rewrite decide_True.
    + destruct (decide (l = col)) as [->|_]; [|auto].
      exfalso. apply Hl. apply list_elem_of_fmap. by exists (col, c).
Qed.

(** ** [duplicated] finds a repeated key exactly when the index has one *)

Lemma any_duplicated_from seen idx :
  any (duplicated_from seen idx) = false <->
  NoDup idx /\ forall k, k ∈ idx -> k ∉ seen.
Proof.
  revert seen. induction idx as [|k idx IH]; intros seen; simpl.
  - split; [|done]. intros _. split; [constructor|]. intros k Hk.
    by apply elem_of_nil in Hk.
  - unfold any in *. simpl. rewrite orb_false_iff, IH.
    rewrite bool_decide_eq_false, NoDup_cons.
    split.
    + intros (Hk & Hnd & Hseen). split; [split; [|done]|].
      * intros Hin. apply (Hseen k Hin). left.
      * intros k' [->|Hin]%elem_of_cons; [done|].
        intros Hs. apply (Hseen k' Hin). by right.
    + intros ((Hk & Hnd) & Hseen). split; [apply Hseen; left|].
      split; [done|]. intros k' Hin [->|Hs]%elem_of_cons; [done|].
      apply (Hseen k'); [by right|done].
Qed.

Lemma any_duplicated idx : any (duplicated idx) = false <-> NoDup idx.
Proof.
  unfold duplicated. rewrite any_duplicated_from. split; [by intros [? _]|].
  intros Hnd. split; [done|]. intros k _. apply not_elem_of_nil.
Qed.

Lemma foldR_inv {A S} (P : S -> Prop) (f : S -> A -> result S) s l r :
  P s -> (forall s x s', P s -> f s x = Ok s' -> P s') ->
  foldR f s l = Ok r -> P r.
Proof.
  intros Hs Hstep. revert s Hs. induction l as [|x l IH]; intros s Hs; simpl.
  - by intros [= <-].
  - intros (s' & Hf & Hr)%bind_Ok. eauto.
Qed.

(** ** Stacking keeps every operand's rows, in order *)

Lemma stack_index app df rest :
  (forall a b, index (app a b) = index a ++ index b) ->
  index (stack app df rest) = index df ++ concat (index <$> rest).
Proof.
  intros Happ. revert df. induction rest as [|df' rest IH]; intros df; csimpl.
  - by rewrite app_nil_r.
  - by rewrite Happ, IH.
Qed.

Lemma concat_axis0_index objs d :
  concat_axis0 objs = Ok d -> index d = concat (index <$> omap id objs).
Proof.
  unfold concat_axis0. destruct (omap id objs) as [|df rest]; [done|].
  repeat case_bool_decide; intros [= <-]; by rewrite stack_index.
Qed.

Lemma omap_id_Some {A} (l : list A) : omap id (Some <$> l) = l.
Proof. induction l as [|x l IH]; csimpl; [done|]. by rewrite IH. Qed.

(** ** One collapsed row per key *)

Lemma filter_eq_all (k : VariantKey) idx :
  exists n, filter (fun k' => k' = k) idx = replicate n k /\
            (k ∈ idx -> (0 < n)%nat).
Proof.
  induction idx as [|k' idx (n & Hn & Hpos)].
  - exists 0%nat. split; [done|]. by intros ?%elem_of_nil.
  - rewrite filter_cons. destruct (decide (k' = k)) as [->|Hne].
    + exists (S n). rewrite Hn. split; [done|]. lia.
    + exists n. split; [done|]. intros [?|?]%elem_of_cons; [congruence|auto].
Qed.

Lemma loc_labels annot var : labels (loc annot var) = labels annot.
Proof. unfold labels, loc. simpl. rewrite <- list_fmap_compose. done. Qed.

Lemma iloc0_labels lines : labels (iloc0 lines) = labels lines.
Proof. unfold labels, iloc0. simpl. rewrite <- list_fmap_compose. done. Qed.

Lemma getitem_Ok_label df col c : getitem df col = Ok c -> col ∈ labels df.
Proof.
  unfold getitem. destruct (lookup_col (columns df) col) as [c'|] eqn:E; [|done].
  intros _. apply lookup_col_Some_in in E. apply list_elem_of_fmap. by exists (col, c').
Qed.

Lemma do_var_index annot sep k d :
  k ∈ index annot -> do_var annot sep k = Ok d -> index d = [k].
Proof.
  intros Hk. unfold do_var.
  destruct (filter_eq_all k (index annot)) as (n & Hn & Hpos).
  specialize (Hpos Hk). simpl. rewrite Hn.
  destruct (decide _) as [Hlen|Hlen].
  - intros [= <-]. simpl. rewrite Hn. rewrite length_replicate in Hlen.
    by subst n.
  - apply (foldR_inv (fun line => index line = [k])).
    + simpl. rewrite Hn. destruct n; [lia|done].
    + intros line col line' Hline (c & _ & Hstep)%bind_Ok.
      destruct (decide _); [|by injection Hstep as <-].
      apply bind_Ok in Hstep as (s & _ & [= <-]). done.
Qed.

Lemma do_var_labels annot sep k d :
  do_var annot sep k = Ok d -> labels d = labels annot.
Proof.
  unfold do_var. destruct (decide _) as [Hlen|Hlen].
  - intros [= <-]. apply loc_labels.
  - apply (foldR_inv (fun line => labels line = labels annot)).
    + by rewrite iloc0_labels, loc_labels.
    + intros line col line' Hline (c & Hget & Hstep)%bind_Ok.
      destruct (decide _); [|by injection Hstep as <-].
      apply bind_Ok in Hstep as (s & _ & [= <-]).
      unfold labels, setitem. simpl. rewrite set_col_labels_in; [done|].
      apply getitem_Ok_label in Hget. rewrite loc_labels in Hget.
      fold (labels line). by rewrite Hline.
Qed.

Lemma set_list_elem `{SetOrder} {A} `{EqDecision A} (l : list A) x :
  x ∈ set_list l <-> x ∈ l.
Proof. by rewrite set_list_perm, elem_of_remove_dups. Qed.

Lemma set_list_NoDup `{SetOrder} {A} `{EqDecision A} (l : list A) :
  NoDup (set_list l).
Proof. rewrite set_list_perm. apply NoDup_remove_dups. Qed.

Lemma do_var_indexes annot sep ks l :
  Forall (fun k => k ∈ index annot) ks ->
  Forall2 (fun k d => do_var annot sep k = Ok d) ks l ->
  concat (index <$> l) = ks.
Proof.
  intros Hks Hl. induction Hl as [|k d ks l Hkd Hl IH]; csimpl; [done|].
  apply Forall_cons in Hks as [Hk Hks].
  rewrite (do_var_index annot sep k d) by done. simpl. f_equal. auto.
Qed.

Lemma annotation_duplicates_set_index `{SetOrder} annot sep out :
  any (duplicated (index annot)) = true ->
  annotation_duplicates annot sep = Ok out ->
  exists l, Forall2 (fun k d => do_var annot sep k = Ok d) (set_list (index annot)) l /\
            concat_axis0 (Some <$> l) = Ok out /\
            index out = set_list (index annot).
Proof.
  intros Hdup. unfold annotation_duplicates. rewrite Hdup. simpl.
  intros (l & Hl & Hcat)%bind_Ok. exists l.
  apply mapR_Ok_Forall2 in Hl. split; [done|]. split; [done|].
  apply concat_axis0_index in Hcat. rewrite Hcat, omap_id_Some.
  apply (do_var_indexes annot sep); [|done].
  apply Forall_forall. intros k. apply set_list_elem.
Qed.

Lemma annotation_duplicates_NoDup `{SetOrder} annot sep out :
  annotation_duplicates annot sep = Ok out -> NoDup (index out).
Proof.
  intros Hout. destruct (any (duplicated (index annot))) eqn:Hdup.
  - destruct (annotation_duplicates_set_index annot sep out Hdup Hout)
      as (_ & _ & _ & ->). apply set_list_NoDup.
  - unfold annotation_duplicates in Hout. rewrite Hdup in Hout.
    injection Hout as <-. by apply any_duplicated.
Qed.

(** C6.  The Duplicate Resolver is idempotent: resolving its own output
    changes nothing.  Whenever it returns a table, the index of that table
    has no repeated key, the test for duplicates fails on it, and resolving
    the table again returns it unchanged; when it raises, the second
    application is never reached. *)
Theorem annotation_duplicates_idempotent `{SetOrder} (annot : DataFrame) (sep : string) :
  (forall out, annotation_duplicates annot sep = Ok out ->
     NoDup (index out) /\ any (duplicated (index out)) = false /\
     annotation_duplicates out sep = Ok out) /\
  annotation_duplicates annot sep ≫= (fun out => annotation_duplicates out sep)
  = annotation_duplicates annot sep.
Proof.
  assert (Hout : forall out, annotation_duplicates annot sep = Ok out ->
     NoDup (index out) /\ any (duplicated (index out)) = false /\
     annotation_duplicates out sep = Ok out).
  { intros out Hout.
    assert (Hnd : NoDup (index out)) by by eapply annotation_duplicates_NoDup.
    split; [done|]. apply any_duplicated in Hnd. split; [done|].
    unfold annotation_duplicates. by rewrite Hnd. }
  split; [done|].
  destruct (annotation_duplicates annot sep) as [out|e] eqn:E; [|done].
  simpl. by apply Hout.
Qed.

(** A table with a key on two rows, resolved once and then again. *)
Lemma annotation_duplicates_idempotent_witness :
  exists out, @annotation_duplicates dedup_order Examples.genes ":" = Ok out /\
              index out = [Examples.k2; Examples.k1] /\
              NoDup (index out) /\
              any (duplicated (index out)) = false /\
              @annotation_duplicates dedup_order out ":" = Ok out.
Proof.
  eexists. split; [vm_compute; reflexivity|]. split; [reflexivity|].
  apply (proj1 (@annotation_duplicates_idempotent dedup_order Examples.genes ":")).
  vm_compute; reflexivity.
Defined.

(** ** What [pd.concat] along the rows holds at a key *)

Lemma cells_or_nan_length d lab :
  aligned d -> length (cells_or_nan d lab) = length (index d).
Proof.
  intros Hal. unfold cells_or_nan.
  destruct (lookup_col (columns d) lab) as [c|] eqn:E.
  - apply lookup_col_Some_in in E.
    unfold aligned in Hal. rewrite Forall_forall in Hal. apply (Hal _ E).
  - apply length_replicate.
Qed.

Lemma lookup_col_zip_with (ca cb : list (string * column)) lab :
  ca.*1 = cb.*1 ->
  lookup_col (zip_with (fun x y => (x.1, append_col x.2 y.2)) ca cb) lab =
  match lookup_col ca lab, lookup_col cb lab with
  | Some x, Some y => Some (append_col x y)
  | _, _ => None
  end.
Proof.
  revert cb. induction ca as [|[l x] ca IH]; intros [|[l' y] cb]; csimpl; try done.
  intros [= <- Heq]. destruct (decide (l = lab)); [done|]. by apply IH.
Qed.

Lemma append_rows_pos_labels a b :
  labels a = labels b -> labels (append_rows_pos a b) = labels a.
Proof.
  unfold labels, append_rows_pos. simpl.
  generalize (columns b). induction (columns a) as [|[l x] ca IH];
    intros [|[l' y] cb]; csimpl; try done.
  intros [= <- Heq]. f_equal. by apply IH.
Qed.

Lemma append_rows_pos_cells a b lab :
  labels a = labels b ->
  cells_or_nan (append_rows_pos a b) lab = cells_or_nan a lab ++ cells_or_nan b lab.
Proof.
  intros Hlab. unfold cells_or_nan at 1. simpl.
  rewrite lookup_col_zip_with by done. unfold cells_or_nan.
  destruct (lookup_col (columns a) lab) as [x|] eqn:Ea,
           (lookup_col (columns b) lab) as [y|] eqn:Eb; simpl.
  - done.
  - apply lookup_col_Some_in in Ea. apply lookup_col_None in Eb.
    exfalso. apply Eb. fold (labels b). rewrite <- Hlab.
    apply list_elem_of_fmap. by exists (lab, x).
  - apply lookup_col_Some_in in Eb. apply lookup_col_None in Ea.
    exfalso. apply Ea. fold (labels a). rewrite Hlab.
    apply list_elem_of_fmap. by exists (lab, y).
  - by rewrite length_app, replicate_add.
Qed.

Lemma lookup_col_fmap_label (g : string -> column) (L : list string) lab :
  lookup_col ((fun l => (l, g l)) <$> L) lab =
  if decide (lab ∈ L) then Some (g lab) else None.
Proof.
  induction L as [|l L IH]; csimpl; [done|].
  rewrite IH. destruct (decide (l = lab)) as [->|Hne].
  - rewrite decide_True; [done|left].
  - destruct (decide (lab ∈ L)) as [Hin|Hin].
    + rewrite decide_True; [done|by right].
    + rewrite decide_False; [done|]. rewrite not_elem_of_cons. split; congruence.
Qed.

Lemma append_rows_labels a b :
  labels (append_rows a b) = labels a ++ list_difference (labels b) (labels a).
Proof.
  unfold labels at 1, append_rows. simpl.
  rewrite <- list_fmap_compose. simpl. apply list_fmap_id.
Qed.

Lemma append_rows_cells a b lab :
  cells_or_nan (append_rows a b) lab = cells_or_nan a lab ++ cells_or_nan b lab.
Proof.
  unfold cells_or_nan at 1. unfold append_rows at 1. simpl.
  rewrite lookup_col_fmap_label. unfold cells_or_nan.
  destruct (lookup_col (columns a) lab) as [x|] eqn:Ea,
           (lookup_col (columns b) lab) as [y|] eqn:Eb.
  - rewrite decide_True; [done|]. apply elem_of_app. left.
    apply lookup_col_Some_in in Ea. apply list_elem_of_fmap. by exists (lab, x).
  - rewrite decide_True; [done|]. apply elem_of_app. left.
    apply lookup_col_Some_in in Ea. apply list_elem_of_fmap. by exists (lab, x).
  - pose proof Ea as Ha. apply lookup_col_None in Ha.
    rewrite decide_True; [done|]. apply elem_of_app. right.
    apply list_elem_of_difference. split; [|done].
    apply lookup_col_Some_in in Eb. apply list_elem_of_fmap. by exists (lab, y).
  - apply lookup_col_None in Ea, Eb. rewrite decide_False.
    + by rewrite length_app, replicate_add.
    + rewrite elem_of_app, list_elem_of_difference. intros [?|[? ?]]; done.
Qed.

Lemma stack_pos_labels d rest :
  Forall (fun d' => labels d' = labels d) rest ->
  labels (stack append_rows_pos d rest) = labels d.
Proof.
  revert d. induction rest as [|d' rest IH]; intros d Hall; simpl; [done|].
  apply Forall_cons in Hall as [Hd' Hall].
  apply append_rows_pos_labels. rewrite IH; [done|].
  eapply Forall_impl; [exact Hall|]. simpl. congruence.
Qed.

Lemma stack_pos_cells d rest lab :
  Forall (fun d' => labels d' = labels d) rest ->
  cells_or_nan (stack append_rows_pos d rest) lab =
  concat ((fun d' => cells_or_nan d' lab) <$> d :: rest).
Proof.
  revert d. induction rest as [|d' rest IH]; intros d Hall; csimpl.
  - by rewrite app_nil_r.
  - apply Forall_cons in Hall as [Hd' Hall].
    assert (Hall' : Forall (fun d'' => labels d'' = labels d') rest).
    { eapply Forall_impl; [exact Hall|]. simpl. congruence. }
    rewrite append_rows_pos_cells, IH; [done|done|].
    by rewrite stack_pos_labels.
Qed.

Lemma stack_union_cells d rest lab :
  cells_or_nan (stack append_rows d rest) lab =
  concat ((fun d' => cells_or_nan d' lab) <$> d :: rest).
Proof.
  revert d. induction rest as [|d' rest IH]; intros d; csimpl.
  - by rewrite app_nil_r.
  - by rewrite append_rows_cells, IH.
Qed.

Lemma concat_axis0_cells l out lab :
  concat_axis0 (Some <$> l) = Ok out ->
  index out = concat (index <$> l) /\
  cells_or_nan out lab = concat ((fun d => cells_or_nan d lab) <$> l).
Proof.
  intros Hcat. split.
  { apply concat_axis0_index in Hcat. by rewrite omap_id_Some in Hcat. }
  unfold concat_axis0 in Hcat. rewrite omap_id_Some in Hcat.
  destruct l as [|d rest]; [done|].
  case_bool_decide as Heq.
  - injection Hcat as <-. by apply stack_pos_cells.
  - case_bool_decide; [|done]. injection Hcat as <-. apply stack_union_cells.
Qed.

Lemma rows_where_app {A} k (i1 i2 : list VariantKey) (c1 c2 : list A) :
  length i1 = length c1 ->
  rows_where k (i1 ++ i2) (c1 ++ c2) = rows_where k i1 c1 ++ rows_where k i2 c2.
Proof.
  intros Hlen. unfold rows_where.
  by rewrite zip_with_app, filter_app, fmap_app.
Qed.

Lemma rows_where_concat k (l : list DataFrame) lab :
  Forall aligned l ->
  rows_where k (concat (index <$> l)) (concat ((fun d => cells_or_nan d lab) <$> l)) =
  concat ((fun d => rows_where k (index d) (cells_or_nan d lab)) <$> l).
Proof.
  induction 1 as [|d l Hd Hl IH]; csimpl; [done|].
  rewrite rows_where_app, IH; [done|]. by rewrite cells_or_nan_length.
Qed.

(** The rows a stack holds at a key are the rows its operands hold at that
    key, operand after operand. *)
Lemma concat_axis0_rows_where l out k lab :
  Forall aligned l ->
  concat_axis0 (Some <$> l) = Ok out ->
  rows_where k (index out) (cells_or_nan out lab) =
  concat ((fun d => rows_where k (index d) (cells_or_nan d lab)) <$> l).
Proof.
  intros Hal Hcat.
  destruct (concat_axis0_cells l out lab Hcat) as [-> ->].
  by apply rows_where_concat.
Qed.

(** ** The collapse of the rows of one key, column by column *)

Lemma set_col_app_notin pre lab c0 c suf :
  lab ∉ pre.*1 -> lab ∉ suf.*1 ->
  set_col (pre ++ (lab, c0) :: suf) lab c = pre ++ (lab, c) :: suf.
Proof.
  induction pre as [|[l x] pre IH]; csimpl; intros Hin Hsuf.
  - rewrite decide_True by done. by rewrite replace_col_notin.
  - apply not_elem_of_cons in Hin as [Hne Hin].
    rewrite decide_False by congruence. by rewrite IH.
Qed.

Lemma lookup_col_app_notin pre lab c suf :
  lab ∉ pre.*1 -> lookup_col (pre ++ (lab, c) :: suf) lab = Some c.
Proof.
  induction pre as [|[l x] pre IH]; csimpl; intros Hin.
  - by rewrite decide_True.
  - apply not_elem_of_cons in Hin as [Hne Hin].
    rewrite decide_False by congruence. auto.
Qed.

Lemma collapse_fold sep lines idx1 suf : forall pre pre',
  columns lines = pre ++ suf ->
  NoDup (pre ++ suf).*1 ->
  pre'.*1 = pre.*1 ->
  foldR (collapse_step sep lines)
        {| index := idx1; columns := pre' ++ (first_row <$> suf) |} suf.*1
  = suf' ← mapR (fun lc => c' ← collapse_col sep lc.2; Ok (lc.1, c')) suf;
    Ok {| index := idx1; columns := pre' ++ suf' |}.
Proof.
  induction suf as [|[lab c] suf IH]; intros pre pre' Hcols Hnd Hpre; csimpl.
  - done.
  - assert (Hlab : lab ∉ pre.*1).
    { rewrite fmap_app in Hnd. apply NoDup_app in Hnd as (_ & Hdisj & _).
      intros Hin. apply (Hdisj lab Hin). left. }
    assert (Hstep : forall line,
      collapse_step sep lines line lab =
      if decide (dt c = object)
      then s ← str_join sep (cells c);
           Ok (setitem line lab {| dt := object; cells := [Str s] |})
      else Ok line).
    { intros line. unfold collapse_step, getitem.
      by rewrite Hcols, lookup_col_app_notin. }
    assert (Hcc : collapse_col sep c =
      if decide (dt c = object)
      then s ← str_join sep (cells c); Ok {| dt := object; cells := [Str s] |}
      else Ok {| dt := dt c; cells := take 1 (cells c) |}) by done.
    rewrite Hstep, Hcc. clear Hstep Hcc.
    change (first_row (lab, c)) with (lab, {| dt := dt c; cells := take 1 (cells c) |}).
    assert (Hnext : forall new,
      foldR (collapse_step sep lines)
        {| index := idx1; columns := pre' ++ (lab, new) :: (first_row <$> suf) |} suf.*1
      = ys ← mapR (fun lc => c' ← collapse_col sep lc.2; Ok (lc.1, c')) suf;
        Ok {| index := idx1; columns := pre' ++ (lab, new) :: ys |}).
    { intros new.
      rewrite (cons_middle _ pre'), app_assoc.
      rewrite (IH (pre ++ [(lab, c)]) (pre' ++ [(lab, new)])).
      - destruct (mapR _ suf) as [ys|e]; simpl; [|done].
        by rewrite <- app_assoc.
      - by rewrite <- app_assoc.
      - by rewrite <- app_assoc.
      - rewrite !fmap_app. by rewrite Hpre. }
    destruct (decide (dt c = object)) as [Hobj|Hobj].
    + destruct (str_join sep (cells c)) as [s|e]; simpl; [|done].
      unfold setitem. simpl.
      rewrite set_col_app_notin.
      2:{ by rewrite Hpre. }
      2:{ rewrite fmap_app in Hnd. apply NoDup_app in Hnd as (_ & _ & Hnd).
          csimpl in Hnd. apply NoDup_cons in Hnd as [Hnd _].
          unfold first_row. rewrite <- list_fmap_compose.
          change ((fst ∘ (fun lc : string * column =>
                             (lc.1, {| dt := dt lc.2; cells := take 1 (cells lc.2) |}))) <$> suf)
            with (suf.*1). done. }
      rewrite Hnext. by destruct (mapR _ suf).
    + simpl. rewrite Hnext. by destruct (mapR _ suf).
Qed.

(** [do_var] in closed form, for unique labels. *)
Lemma do_var_closed annot sep var :
  NoDup (labels annot) ->
  do_var annot sep var =
  let lines := loc annot var in
  if decide (length (index lines) = 1%nat) then Ok lines
  else cols ← mapR (fun lc => c' ← collapse_col sep lc.2; Ok (lc.1, c')) (columns lines);
       Ok {| index := take 1 (index lines); columns := cols |}.
Proof.
  intros Hnd. unfold do_var. simpl. destruct (decide _) as [|_]; [done|].
  rewrite <- (loc_labels annot var). unfold labels.
  apply (collapse_fold sep (loc annot var) _ (columns (loc annot var)) [] []);
    [done| |done].
  rewrite app_nil_l. change (NoDup (labels (loc annot var))).
  by rewrite loc_labels.
Qed.

Lemma lookup_col_fmap_col (g : column -> column) cols lab :
  lookup_col ((fun lc => (lc.1, g lc.2)) <$> cols) lab = g <$> lookup_col cols lab.
Proof.
  induction cols as [|[l c] cols IH]; csimpl; [done|].
  destruct (decide (l = lab)); [done|]. apply IH.
Qed.

Lemma mapR_lookup_col (f : column -> result column)
    (cols cols' : list (string * column)) lab c :
  mapR (fun lc => c' ← f lc.2; Ok (lc.1, c')) cols = Ok cols' ->
  lookup_col cols lab = Some c ->
  exists c', f c = Ok c' /\ lookup_col cols' lab = Some c'.
Proof.
  revert cols'. induction cols as [|[l x] cols IH]; intros cols' Hmap; csimpl; [done|].
  simpl in Hmap. apply bind_Ok in Hmap as ([l' y] & Hy & Hmap).
  apply bind_Ok in Hy as (c' & Hfx & [= <- <-]).
  apply bind_Ok in Hmap as (ys & Hys & [= <-]). simpl.
  destruct (decide (l = lab)) as [->|Hne].
  - intros [= <-]. by exists c'.
  - by apply IH.
Qed.

Lemma mapR_total {A B} (f : A -> result B) (l : list A) :
  Forall (fun x => exists y, f x = Ok y) l -> exists l', mapR f l = Ok l'.
Proof.
  induction 1 as [|x l [y Hy] _ [l' Hl']]; simpl; [by eexists|].
  rewrite Hy. simpl. rewrite Hl'. simpl. by eexists.
Qed.

Lemma rows_where_length {A} k idx (l : list A) :
  length l = length idx ->
  length (rows_where k idx l) = length (filter (fun k' => k' = k) idx).
Proof.
  unfold rows_where. rewrite length_fmap.
  revert l. induction idx as [|k' idx IH]; intros [|x l]; simpl; try done.
  intros [= Hlen]. rewrite !filter_cons. simpl.
  destruct (decide (k' = k)); simpl; auto.
Qed.

Lemma rows_where_single {A} k k' (x : A) :
  rows_where k [k'] [x] = if decide (k' = k) then [x] else [].
Proof.
  unfold rows_where. simpl. rewrite filter_cons. simpl.
  by destruct (decide (k' = k)).
Qed.

(** The column [lab] of the frame [do_var] returns for a key. *)
Lemma do_var_cell annot sep k d lab c :
  NoDup (labels annot) ->
  do_var annot sep k = Ok d ->
  lookup_col (columns annot) lab = Some c ->
  exists c', lookup_col (columns d) lab = Some c' /\
    let vs := rows_where k (index annot) (cells c) in
    if decide (length (filter (fun k' => k' = k) (index annot)) = 1%nat)
    then c' = {| dt := dt c; cells := vs |}
    else collapse_col sep {| dt := dt c; cells := vs |} = Ok c'.
Proof.
  intros Hnd Hd Hc. rewrite do_var_closed in Hd by done. simpl in Hd.
  assert (Hloc : lookup_col (columns (loc annot k)) lab =
                 Some {| dt := dt c; cells := rows_where k (index annot) (cells c) |}).
  { unfold loc. simpl.
    rewrite (lookup_col_fmap_col
      (fun c => {| dt := dt c; cells := rows_where k (index annot) (cells c) |})).
    by rewrite Hc. }
  destruct (decide _) as [Hone|Hmany].
  - injection Hd as <-. eexists. split; [exact Hloc|]. done.
  - apply bind_Ok in Hd as (cols & Hcols & [= <-]). simpl.
    destruct (mapR_lookup_col _ _ _ _ _ Hcols Hloc) as (c' & Hc' & Hlook).
    by exists c'.
Qed.

Lemma collapse_col_length sep c c' :
  cells c <> [] -> collapse_col sep c = Ok c' -> length (cells c') = 1%nat.
Proof.
  unfold collapse_col. intros Hne. destruct (decide _).
  - intros (s & _ & [= <-])%bind_Ok. done.
  - intros [= <-]. simpl. destruct (cells c); done.
Qed.

Lemma do_var_cell_length annot sep k d lab :
  wf_frame annot -> k ∈ index annot ->
  do_var annot sep k = Ok d ->
  length (cells_or_nan d lab) = 1%nat.
Proof.
  intros [Hnd Hal] Hk Hd. unfold cells_or_nan.
  rewrite (do_var_index _ _ _ _ Hk Hd).
  destruct (lookup_col (columns d) lab) as [c'|] eqn:Hlook; [|done].
  assert (Hlab : lab ∈ labels annot).
  { rewrite <- (do_var_labels _ _ _ _ Hd).
    apply lookup_col_Some_in in Hlook. apply list_elem_of_fmap. by exists (lab, c'). }
  destruct (lookup_col (columns annot) lab) as [c|] eqn:Hc;
    [|by apply lookup_col_None in Hc].
  destruct (do_var_cell _ _ _ _ _ _ Hnd Hd Hc) as (c'' & Hlook' & Hres).
  rewrite Hlook in Hlook'. injection Hlook' as <-. simpl in Hres.
  assert (Hlen : length (rows_where k (index annot) (cells c)) =
                 length (filter (fun k' => k' = k) (index annot))).
  { apply rows_where_length. rewrite Forall_forall in Hal.
    apply (Hal (lab, c)). by apply lookup_col_Some_in. }
  destruct (filter_eq_all k (index annot)) as (n & Hn & Hpos).
  specialize (Hpos Hk). rewrite Hn, length_replicate in Hlen, Hres.
  destruct (decide (n = 1%nat)) as [Hone|Hmany].
  - subst c'. simpl. lia.
  - eapply collapse_col_length; [|exact Hres]. simpl.
    intros Hnil. rewrite Hnil in Hlen. simpl in Hlen. lia.
Qed.

(** ** Text in the object columns of the repeated keys *)

Lemma text_rows annot k lab c :
  text_at_duplicates annot ->
  (lab, c) ∈ columns annot -> dt c = object ->
  length (filter (fun k' => k' = k) (index annot)) <> 1%nat ->
  Forall (fun v => is_text v = true) (rows_where k (index annot) (cells c)).
Proof.
  intros Htext Hin Hobj Hmany. unfold text_at_duplicates in Htext.
  rewrite Forall_forall in Htext. specialize (Htext _ Hin Hobj). simpl in Htext.
  rewrite Forall_forall in Htext. apply Forall_forall. intros v Hv.
  unfold rows_where in Hv. apply list_elem_of_fmap in Hv as ([k' v'] & -> & Hv).
  apply list_elem_of_filter in Hv as [Hk Hv]. simpl in Hk. subst k'.
  destruct (Htext _ Hv) as [Hone|Ht]; [done|exact Ht].
Qed.

Lemma str_join_text sep l :
  Forall (fun v => is_text v = true) l ->
  exists ss, l = Str <$> ss /\ str_join sep l = Ok (String.concat sep ss).
Proof.
  induction 1 as [|v l Hv Hl (ss & -> & IH)].
  - by exists [].
  - destruct v as [|s| |]; try done. exists (s :: ss). split; [done|].
    destruct ss as [|s' ss]; [done|].
    change (str_join sep (Str s :: (Str <$> (s' :: ss))))
      with (r ← str_join sep (Str <$> (s' :: ss)); Ok (s +:+ sep +:+ r)).
    by rewrite IH.
Qed.

Lemma str_join_Ok_text sep l s :
  str_join sep l = Ok s -> Forall (fun v => is_text v = true) l.
Proof.
  revert s. induction l as [|v l IH]; intros s; [constructor|].
  destruct v as [|s0| |]; try done. destruct l as [|v' l].
  - intros _. by repeat constructor.
  - change (str_join sep (Str s0 :: v' :: l))
      with (r ← str_join sep (v' :: l); Ok (s0 +:+ sep +:+ r)).
    intros (r & Hr & _)%bind_Ok. constructor; [done|]. by eapply IH.
Qed.

Lemma do_var_total annot sep k :
  wf_frame annot -> text_at_duplicates annot ->
  exists d, do_var annot sep k = Ok d.
Proof.
  intros [Hnd Hal] Htext. rewrite do_var_closed by done. simpl.
  destruct (decide _) as [Hone|Hmany]; [by eexists|].
  destruct (mapR_total
    (fun lc => c' ← collapse_col sep lc.2; Ok (lc.1, c'))
    (columns (loc annot k))) as [cols Hcols].
  - unfold loc. simpl. apply Forall_fmap, Forall_forall. intros [lab c] Hin. simpl.
    unfold collapse_col. simpl. destruct (decide (dt c = object)) as [Hobj|_].
    + simpl in Hmany.
      destruct (str_join_text sep (rows_where k (index annot) (cells c)))
        as (ss & _ & ->); [|by eexists].
      by apply (text_rows annot k lab c).
    + by eexists.
  - change (exists d, (cols' ← mapR (fun lc => c' ← collapse_col sep lc.2; Ok (lc.1, c'))
                                   (columns (loc annot k));
                        Ok {| index := take 1 (index (loc annot k)); columns := cols' |})
                      = Ok d).
    rewrite Hcols. by eexists.
Qed.

Lemma filter_eq_NoDup (k : VariantKey) idx :
  NoDup idx -> k ∈ idx -> filter (fun k' => k' = k) idx = [k].
Proof.
  intros Hnd Hk. destruct (filter_eq_all k idx) as (n & Hn & Hpos).
  specialize (Hpos Hk).
  assert (Hnd' : NoDup (replicate n k)) by (rewrite <- Hn; by apply NoDup_filter).
  rewrite Hn. destruct n as [|[|n]]; [lia|done|].
  simpl in Hnd'. apply NoDup_cons in Hnd' as [Hnot _]. exfalso. apply Hnot. left.
Qed.

Lemma repeated_key_duplicated (k : VariantKey) idx :
  (1 < length (filter (fun k' => k' = k) idx))%nat -> any (duplicated idx) = true.
Proof.
  intros Hmany. destruct (any (duplicated idx)) eqn:E; [done|].
  apply any_duplicated in E.
  destruct (decide (k ∈ idx)) as [Hk|Hk].
  - rewrite (filter_eq_NoDup k idx E Hk) in Hmany. simpl in Hmany. lia.
  - destruct (filter_eq_all k idx) as (n & Hn & _). rewrite Hn in Hmany.
    destruct n; [simpl in Hmany; lia|].
    exfalso. apply Hk. apply (list_elem_of_filter (fun k' => k' = k) idx k).
    rewrite Hn. left.
Qed.

Lemma concat_axis0_same_labels (l : list DataFrame) L :
  l <> [] -> Forall (fun d => labels d = L) l ->
  exists out, concat_axis0 (Some <$> l) = Ok out /\ labels out = L.
Proof.
  intros Hne Hall. unfold concat_axis0. rewrite omap_id_Some.
  destruct l as [|d rest]; [done|]. apply Forall_cons in Hall as [Hd Hall].
  assert (Hrest : Forall (fun d' => labels d' = labels d) rest).
  { eapply Forall_impl; [exact Hall|]. simpl. congruence. }
  rewrite bool_decide_eq_true_2 by done. eexists. split; [done|].
  by rewrite stack_pos_labels.
Qed.

(** Among one-row frames, one per key of a duplicate-free list, the rows of
    the stack at [k] are the single row of the frame made for [k]. *)
Lemma concat_rows_one (R : VariantKey -> DataFrame -> Prop) lab k ks l :
  Forall2 R ks l ->
  (forall k' d, R k' d -> index d = [k'] /\ length (cells_or_nan d lab) = 1%nat) ->
  NoDup ks -> k ∈ ks ->
  exists d, R k d /\
    concat ((fun d => rows_where k (index d) (cells_or_nan d lab)) <$> l)
    = cells_or_nan d lab.
Proof.
  intros Hl HR. induction Hl as [|k' d ks l Hkd Hl IH]; intros Hnd Hk.
  - by apply elem_of_nil in Hk.
  - apply NoDup_cons in Hnd as [Hnot Hnd]. csimpl.
    destruct (HR _ _ Hkd) as [Hidx Hlen]. rewrite Hidx.
    destruct (cells_or_nan d lab) as [|v [|? ?]] eqn:Hcells; try done.
    rewrite rows_where_single.
    assert (Hnone : forall ks' l', Forall2 R ks' l' -> k ∉ ks' ->
      concat ((fun d => rows_where k (index d) (cells_or_nan d lab)) <$> l') = []).
    { clear -HR. intros ks' l' H. induction H as [|k'' d' ks' l' Hkd' _ IH'];
        intros Hnot; csimpl; [done|].
      apply not_elem_of_cons in Hnot as [Hne Hnot].
      destruct (HR _ _ Hkd') as [-> Hlen'].
      destruct (cells_or_nan d' lab) as [|v' [|? ?]]; try done.
      rewrite rows_where_single, decide_False by congruence. simpl. auto. }
    destruct (decide (k' = k)) as [->|Hne].
    + exists d. split; [done|]. rewrite (Hnone ks l) by done.
      by rewrite Hcells.
    + apply elem_of_cons in Hk as [?|Hk]; [congruence|].
      destruct (IH Hnd Hk) as (d' & Hd' & Heq). exists d'. by split.
Qed.

(** C5 (amended).  For a table with unique column labels whose object
    columns hold text on the rows of repeated keys, and a key [k] on N > 1
    rows, the Duplicate Resolver returns a table with the labels of its
    input and exactly one row for [k]; on that row an object column holds
    the N values of the key, in row order, joined by the separator, and
    any other column holds the value of the key's first row. *)
Theorem annotation_duplicates_collapses `{SetOrder}
    (annot : DataFrame) (sep : string) (k : VariantKey) :
  wf_frame annot ->
  text_at_duplicates annot ->
  (1 < length (filter (fun k' => k' = k) (index annot)))%nat ->
  exists out,
    annotation_duplicates annot sep = Ok out /\
    labels out = labels annot /\
    length (filter (fun k' => k' = k) (index out)) = 1%nat /\
    forall lab c, lookup_col (columns annot) lab = Some c ->
      let vs := rows_where k (index annot) (cells c) in
      length vs = length (filter (fun k' => k' = k) (index annot)) /\
      exists c', lookup_col (columns out) lab = Some c' /\
        if decide (dt c = object)
        then exists ss, vs = Str <$> ss /\
               rows_where k (index out) (cells c') = [Str (String.concat sep ss)]
        else exists v, head vs = Some v /\
               rows_where k (index out) (cells c') = [v].
Proof.
  intros Hwf Htext Hmany. pose proof Hwf as [Hnd Hal].
  pose proof (repeated_key_duplicated k _ Hmany) as Hdup.
  assert (Hk : k ∈ index annot).
  { destruct (filter_eq_all k (index annot)) as (n & Hn & _).
    apply (list_elem_of_filter (fun k' => k' = k) (index annot) k).
    rewrite Hn in Hmany |- *. destruct n; [simpl in Hmany; lia|left]. }
  destruct (mapR_total (do_var annot sep) (set_list (index annot))) as [l Hl].
  { apply Forall_forall. intros k' _. by apply do_var_total. }
  apply mapR_Ok_Forall2 in Hl as HF.
  destruct (concat_axis0_same_labels l (labels annot)) as (out & Hout & Hlabels).
  { intros ->. apply Forall2_nil_inv_r in HF.
    assert (Hin : k ∈ set_list (index annot)) by by apply set_list_elem.
    rewrite HF in Hin. by apply elem_of_nil in Hin. }
  { clear -HF. induction HF as [|k' d ks l Hd _ IH]; constructor; [|done].
    by eapply do_var_labels. }
  assert (Hres : annotation_duplicates annot sep = Ok out).
  { unfold annotation_duplicates. rewrite Hdup. simpl. rewrite Hl. exact Hout. }
  destruct (annotation_duplicates_set_index annot sep out Hdup Hres) as (_ & _ & _ & Hidx).
  exists out. split; [done|]. split; [done|]. split.
  { rewrite Hidx, filter_eq_NoDup; [done|apply set_list_NoDup|by apply set_list_elem]. }
  intros lab c Hc vs.
  assert (Hlen : length vs = length (filter (fun k' => k' = k) (index annot))).
  { apply rows_where_length. rewrite Forall_forall in Hal.
    apply (Hal (lab, c)). by apply lookup_col_Some_in. }
  split; [done|].
  assert (Hlab : lab ∈ labels out).
  { rewrite Hlabels. apply lookup_col_Some_in in Hc.
    apply list_elem_of_fmap. by exists (lab, c). }
  destruct (lookup_col (columns out) lab) as [c'|] eqn:Hc';
    [|by apply lookup_col_None in Hc'].
  exists c'. split; [done|].
  assert (Hcells : cells c' = cells_or_nan out lab) by (unfold cells_or_nan; by rewrite Hc').
  rewrite Hcells.
  assert (Hall : Forall aligned l).
  { clear -HF Hwf. destruct Hwf as [Hnd Hal].
    assert (Hks : Forall (fun k' => k' ∈ index annot) (set_list (index annot))).
    { apply Forall_forall. intros k'. apply set_list_elem. }
    induction HF as [|k' d ks l Hd _ IH]; [constructor|].
    apply Forall_cons in Hks as [Hk' Hks]. constructor; [|by apply IH].
    unfold aligned. apply Forall_forall. intros [lab' c''] Hin.
    pose proof (do_var_cell_length annot sep k' d lab' (conj Hnd Hal) Hk' Hd) as Hone.
    rewrite (do_var_index _ _ _ _ Hk' Hd). simpl.
    assert (Hndd : NoDup (columns d).*1).
    { change (NoDup (labels d)). by rewrite (do_var_labels _ _ _ _ Hd). }
    unfold cells_or_nan in Hone.
    by rewrite (lookup_col_in_NoDup _ _ _ Hndd Hin) in Hone. }
  rewrite (concat_axis0_rows_where l out k lab Hall Hout).
  destruct (concat_rows_one (fun k' d => k' ∈ index annot /\ do_var annot sep k' = Ok d)
              lab k (set_list (index annot)) l) as (d & [_ Hd] & ->).
  { clear -HF. assert (Hks : Forall (fun k' => k' ∈ index annot) (set_list (index annot))).
    { apply Forall_forall. intros k'. apply set_list_elem. }
    induction HF as [|k' d ks l Hd _ IH]; [constructor|].
    apply Forall_cons in Hks as [Hk' Hks]. constructor; auto. }
  { intros k' d [Hk' Hd]. split; [by eapply do_var_index|by eapply do_var_cell_length]. }
  { apply set_list_NoDup. }
  { by apply set_list_elem. }
  destruct (do_var_cell annot sep k d lab c Hnd Hd Hc) as (cd & Hcd & Hval).
  simpl in Hval. rewrite decide_False in Hval by lia.
  unfold cells_or_nan. rewrite Hcd. unfold collapse_col in Hval. simpl in Hval.
  fold vs in Hval. destruct (decide (dt c = object)) as [Hobj|Hobj].
  - apply bind_Ok in Hval as (s & Hs & [= <-]). simpl.
    destruct (str_join_text sep vs) as (ss & Hss & Hjoin).
    { by eapply str_join_Ok_text. }
    exists ss. split; [done|]. rewrite Hjoin in Hs. by injection Hs as <-.
  - injection Hval as <-. simpl. destruct vs as [|v vs']; [simpl in Hlen; lia|].
    by exists v.
Qed.

Lemma annotation_duplicates_collapses_witness :
  wf_frame Examples.genes /\
  text_at_duplicates Examples.genes /\
  (1 < length (filter (fun k' => k' = Examples.k1) (index Examples.genes)))%nat /\
  exists out,
    @annotation_duplicates dedup_order Examples.genes ":" = Ok out /\
    labels out = labels Examples.genes /\
    length (filter (fun k' => k' = Examples.k1) (index out)) = 1%nat /\
    forall lab c, lookup_col (columns Examples.genes) lab = Some c ->
      let vs := rows_where Examples.k1 (index Examples.genes) (cells c) in
      length vs = length (filter (fun k' => k' = Examples.k1) (index Examples.genes)) /\
      exists c', lookup_col (columns out) lab = Some c' /\
        if decide (dt c = object)
        then exists ss, vs = Str <$> ss /\
               rows_where Examples.k1 (index out) (cells c') = [Str (String.concat ":" ss)]
        else exists v, head vs = Some v /\
               rows_where Examples.k1 (index out) (cells c') = [v].
Proof.
  assert (Hwf : wf_frame Examples.genes) by compute_done.
  assert (Htext : text_at_duplicates Examples.genes) by compute_done.
  assert (Hmany : (1 < length (filter (fun k' => k' = Examples.k1)
                                      (index Examples.genes)))%nat)
    by (vm_compute; lia).
  split; [exact Hwf|]. split; [exact Htext|]. split; [exact Hmany|].
  exact (@annotation_duplicates_collapses dedup_order Examples.genes ":" Examples.k1
           Hwf Htext Hmany).
Defined.

(** C5 as stated fails on a table whose object column has a missing value on
    a row of a repeated key: [sep.join] raises [TypeError], and no row is
    produced. *)
Lemma annotation_duplicates_missing_text :
  wf_frame Examples.genes_na /\
  length (filter (fun k' => k' = Examples.k1) (index Examples.genes_na)) = 2%nat /\
  @annotation_duplicates dedup_order Examples.genes_na ":" = Raise TypeError.
Proof. split; [compute_done|]. split; vm_compute; reflexivity. Qed.

(** ** Assignment and lookup *)

Lemma lookup_replace_col cols col c lab :
  col <> lab -> lookup_col (replace_col cols col c) lab = lookup_col cols lab.
Proof.
  intros Hne. induction cols as [|[l x] cols IH]; simpl; [done|].
  destruct (decide (l = lab)) as [->|Hne']; [|done].
  by rewrite decide_False by congruence.
Qed.

Lemma lookup_set_col cols col c lab :
  lookup_col (set_col cols col c) lab =
  if decide (lab = col) then Some c else lookup_col cols lab.
Proof.
  induction cols as [|[l x] cols IH]; simpl.
  - destruct (decide (col = lab)) as [->|Hne].
    + by rewrite decide_True.
    + by rewrite decide_False by congruence.
  - destruct (decide (l = col)) as [->|Hne]; simpl.
    + destruct (decide (col = lab)) as [->|Hne'].
      * by rewrite decide_True.
      * rewrite decide_False by congruence. by apply lookup_replace_col.
    + destruct (decide (l = lab)) as [->|Hne'].
      * by rewrite decide_False by congruence.
      * apply IH.
Qed.

(** An assignment under a label that two columns carry writes both. *)
Example set_col_repeated_label :
  set_col [("a", {| dt := int64; cells := [Num 1] |});
           ("b", {| dt := int64; cells := [Num 2] |});
           ("a", {| dt := int64; cells := [Num 3] |})]
          "a" {| dt := int8; cells := [Num 0] |}
  = [("a", {| dt := int8; cells := [Num 0] |});
     ("b", {| dt := int64; cells := [Num 2] |});
     ("a", {| dt := int8; cells := [Num 0] |})].
Proof. reflexivity. Qed.

Lemma mapR_lookup {A B} (f : A -> result B) l l' i x :
  mapR f l = Ok l' -> l !! i = Some x ->
  exists y, f x = Ok y /\ l' !! i = Some y.
Proof.
  intros Hmap%mapR_Ok_Forall2 Hx.
  destruct (Forall2_lookup_l _ _ _ _ _ Hmap Hx) as (y & Hy & Hf). eauto.
Qed.

(** ** Categorical Regularizer *)

Lemma regularize_col_eq nafillval val col cats :
  regularize_col nafillval val (col, cats) =
  c0 ← getitem val col; s ← regularized nafillval cats c0; Ok (setitem val col s).
Proof.
  unfold regularize_col, regularized. simpl.
  destruct (getitem val col) as [c0|]; simpl; [|done].
  destruct (mapR _ (cells c0)) as [s1|]; simpl; [|done].
  destruct (Categorical s1 _) as [s2|]; simpl; [|done]. done.
Qed.

Lemma helper_total d cats v :
  is_np_nan d v = true \/ is_text v = true -> exists v', helper d cats v = Ok v'.
Proof.
  unfold helper. intros [->|Ht]; [by eexists|]. destruct v as [|s| |]; try done.
  simpl. destruct (list_find _ cats) as [[? ?]|]; by eexists.
Qed.

Lemma regularized_total nafillval cats c0 :
  NoDup (cats ++ ["other"]) -> nafillval ∈ cats ++ ["other"] ->
  Forall (fun v => is_np_nan (dt c0) v = true \/ is_text v = true) (cells c0) ->
  exists s, regularized nafillval cats c0 = Ok s.
Proof.
  intros Hnd Hna Hcells. unfold regularized.
  destruct (mapR_total (helper (dt c0) (cats ++ ["other"])) (cells c0)) as [s1 ->].
  { eapply Forall_impl; [exact Hcells|]. intros v. apply helper_total. }
  simpl. unfold Categorical. rewrite decide_True by done. simpl.
  unfold fillna. simpl. rewrite bool_decide_eq_true_2; [by eexists|].
  apply list_elem_of_fmap. by exists nafillval.
Qed.

(** The loop over the specification: each named column is replaced by its
    regularized series, every other column is left as it was. *)
Lemma regularize_fold nafillval colsdict : forall val0,
  regularizable colsdict val0 nafillval ->
  exists val,
    foldR (regularize_col nafillval) val0 colsdict = Ok val /\
    index val = index val0 /\
    labels val = labels val0 /\
    (forall lab, lab ∉ colsdict.*1 ->
       lookup_col (columns val) lab = lookup_col (columns val0) lab) /\
    (forall col cats, (col, cats) ∈ colsdict ->
       exists c0 s, lookup_col (columns val0) col = Some c0 /\
                    regularized nafillval cats c0 = Ok s /\
                    lookup_col (columns val) col = Some s).
Proof.
  induction colsdict as [|[col cats] colsdict IH]; intros val0 [Hnd Hall].
  - exists val0. repeat split; try done. intros col cats Hin.
    by apply elem_of_nil in Hin.
  - csimpl in Hnd. apply NoDup_cons in Hnd as [Hcol Hnd].
    apply Forall_cons in Hall as [(Hcats & Hna & Hc0) Hall]. simpl in *.
    destruct (lookup_col (columns val0) col) as [c0|] eqn:Ec0; [|done].
    destruct (regularized_total nafillval cats c0 Hcats Hna Hc0) as [s Hs].
    set (val1 := setitem val0 col s).
    assert (Hstep : regularize_col nafillval val0 (col, cats) = Ok val1).
    { rewrite regularize_col_eq. unfold getitem. rewrite Ec0. simpl. by rewrite Hs. }
    assert (Hlook1 : forall lab, lab <> col ->
              lookup_col (columns val1) lab = lookup_col (columns val0) lab).
    { intros lab Hne. unfold val1, setitem. simpl.
      by rewrite lookup_set_col, decide_False. }
    destruct (IH val1) as (val & Hval & Hidx & Hlabs & Hother & Hnamed).
    { split; [done|]. apply Forall_forall. intros [col' cats'] Hin.
      rewrite Forall_forall in Hall. destruct (Hall _ Hin) as (? & ? & Hc').
      split; [done|]. split; [done|]. simpl in *. rewrite Hlook1; [done|].
      intros ->. apply Hcol. apply list_elem_of_fmap. by exists (col, cats'). }
    exists val. split; [by rewrite Hstep|]. split; [done|]. split.
    { rewrite Hlabs. unfold val1, labels, setitem. simpl.
      apply set_col_labels_in. apply lookup_col_Some_in in Ec0.
      apply list_elem_of_fmap. by exists (col, c0). }
    split.
    + intros lab Hlab. csimpl in Hlab. apply not_elem_of_cons in Hlab as [Hne Hlab].
      rewrite Hother by done. by apply Hlook1.
    + intros col' cats' [[= -> ->]|Hin]%elem_of_cons.
      * exists c0, s. split; [done|]. split; [done|].
        rewrite Hother by done. unfold val1, setitem. simpl.
        by rewrite lookup_set_col, decide_True.
      * destruct (Hnamed _ _ Hin) as (c1 & s' & Hc1 & Hs' & Hlook).
        exists c1, s'. split; [|done]. rewrite <- Hc1. symmetry. apply Hlook1.
        intros ->. apply Hcol. apply list_elem_of_fmap. by exists (col, cats').
Qed.

Lemma regularized_cell nafillval cats c0 s i v :
  regularized nafillval cats c0 = Ok s -> cells c0 !! i = Some v ->
  exists v1, helper (dt c0) (cats ++ ["other"]) v = Ok v1 /\
    cells s !! i =
    Some (let v2 := if bool_decide (v1 ∈ Str <$> cats ++ ["other"]) then v1 else NaN in
          if decide (v2 = NaN) then Str nafillval else v2).
Proof.
  unfold regularized. intros (s1 & Hs1 & Hs)%bind_Ok Hv.
  apply bind_Ok in Hs as (s2 & Hs2 & Hs3).
  destruct (mapR_lookup _ _ _ _ _ Hs1 Hv) as (v1 & Hv1 & Hi).
  exists v1. split; [done|].
  unfold Categorical in Hs2. destruct (decide _); [|done]. injection Hs2 as <-.
  unfold fillna in Hs3. simpl in Hs3. destruct (bool_decide _); [|done].
  injection Hs3 as <-. simpl. rewrite !list_lookup_fmap, Hi. done.
Qed.








(** The missing values of a float64 column are not the [np.nan] object: the
    helper takes them for values that are no strings. *)
Example regularize_categ_cols_float_missing :
  regularize_categ_cols Examples.colsdict Examples.all_missing Examples.all_missing "other"
  = Raise ValueError.
Proof. reflexivity. Qed.

(** ** Binarizer *)

Lemma string_length_app (s1 s2 : string) :
  String.length (s1 +:+ s2) = (String.length s1 + String.length s2)%nat.
Proof. induction s1 as [|a s1 IH]; simpl; [done|]. by rewrite IH. Qed.

Lemma string_app_inj_r (suffix s1 s2 : string) :
  s1 +:+ suffix = s2 +:+ suffix -> s1 = s2.
Proof.
  revert s2. induction s1 as [|a s1 IH]; intros [|b s2] Heq.
  - done.
  - apply (f_equal String.length) in Heq.
    rewrite !string_length_app in Heq. simpl in Heq. lia.
  - apply (f_equal String.length) in Heq.
    rewrite !string_length_app in Heq. simpl in Heq. lia.
  - injection Heq as -> Heq. f_equal. by apply IH.
Qed.

Lemma elem_of_concat {A} (x : A) (ls : list (list A)) :
  x ∈ concat ls <-> exists l, x ∈ l /\ l ∈ ls.
Proof.
  induction ls as [|l ls IH]; simpl.
  - split; [by intros ?%elem_of_nil|]. intros (l & _ & ?%elem_of_nil). done.
  - rewrite elem_of_app, IH. split.
    + intros [Hx|(l' & Hx & Hl')]; [exists l; split; [done|left]|].
      exists l'. split; [done|by right].
    + intros (l' & Hx & [->|Hl']%elem_of_cons); [by left|]. right. by exists l'.
Qed.

Lemma foldl_app_concat {A} (x : list A) (l : list (list A)) :
  foldl app x l = x ++ concat l.
Proof.
  revert x. induction l as [|y l IH]; intros x; simpl.
  - by rewrite app_nil_r.
  - by rewrite IH, app_assoc.
Qed.

Lemma extended_columns_Ok columns cols2insert suffix :
  columns <> [] ->
  extended_columns columns cols2insert suffix
  = Ok (with_indicators columns cols2insert suffix).
Proof.
  intros Hne. unfold extended_columns, with_indicators, reduce_concat.
  destruct columns as [|c columns]; [done|]. csimpl. by rewrite foldl_app_concat.
Qed.

Lemma with_indicators_label columns cols2insert suffix lab :
  lab ∈ columns -> lab ∈ with_indicators columns cols2insert suffix.
Proof.
  intros Hin. unfold with_indicators. apply elem_of_concat.
  eexists. split; [|apply list_elem_of_fmap; by exists lab].
  simpl. case_bool_decide; left.
Qed.

Lemma with_indicators_indicator columns cols2insert suffix col :
  col ∈ columns -> col ∈ cols2insert ->
  col +:+ suffix ∈ with_indicators columns cols2insert suffix.
Proof.
  intros Hin Hsel. unfold with_indicators. apply elem_of_concat.
  eexists. split; [|apply list_elem_of_fmap; by exists col].
  simpl. rewrite bool_decide_eq_true_2 by done. right. left.
Qed.

(** With distinct target labels, an indicator label is not a label of the
    input. *)
Lemma with_indicators_fresh columns cols2insert suffix col :
  NoDup (with_indicators columns cols2insert suffix) ->
  col ∈ columns -> col ∈ cols2insert -> col +:+ suffix ∉ columns.
Proof.
  unfold with_indicators. induction columns as [|c columns IH]; intros Hnd Hin Hsel Hbad.
  - by apply elem_of_nil in Hin.
  - csimpl in Hnd. apply NoDup_app in Hnd as (Hhd & Hdisj & Hnd).
    assert (Htl : forall lab, lab ∈ columns ->
              lab ∈ concat ((fun c => if bool_decide (c ∈ cols2insert)
                                      then [c; c +:+ suffix] else [c]) <$> columns)).
    { intros lab. apply with_indicators_label. }
    apply elem_of_cons in Hin as [->|Hin]; apply elem_of_cons in Hbad as [Hbad|Hbad].
    + rewrite bool_decide_eq_true_2 in Hhd by done.
      apply NoDup_cons in Hhd as [Hhd _]. apply Hhd. rewrite Hbad. left.
    + rewrite bool_decide_eq_true_2 in Hdisj by done.
      apply (Hdisj (c +:+ suffix)); [right; left|by apply Htl].
    + subst c. apply (Hdisj (col +:+ suffix)).
      * case_bool_decide; left.
      * by apply (with_indicators_indicator columns cols2insert suffix col).
    + by apply IH.
Qed.

Lemma reindex_columns_spec df cols :
  NoDup (labels df) ->
  exists val, reindex_columns df cols = Ok val /\ index val = index df /\
    forall lab, lab ∈ cols ->
      lookup_col (columns val) lab =
      Some (default (nan_column (length (index df))) (lookup_col (columns df) lab)).
Proof.
  intros Hnd. unfold reindex_columns. destruct (decide (labels df = cols)) as [<-|Hne].
  - exists df. split; [done|]. split; [done|]. intros lab Hlab.
    destruct (lookup_col (columns df) lab) eqn:E; [done|].
    by apply lookup_col_None in E.
  - rewrite decide_True by done. eexists. split; [done|]. split; [done|].
    intros lab Hlab. simpl.
    rewrite (lookup_col_fmap_label
      (fun lab => match lookup_col (columns df) lab with
                  | Some c => c
                  | None => {| dt := float64; cells := replicate (length (index df)) NaN |}
                  end)).
    rewrite decide_True by done. by destruct (lookup_col (columns df) lab).
Qed.

Lemma rows_where_absent {A} k idx (l : list A) : k ∉ idx -> rows_where k idx l = [].
Proof.
  unfold rows_where. revert l. induction idx as [|k' idx IH]; intros [|x l] Hk; try done.
  apply not_elem_of_cons in Hk as [Hne Hk]. simpl. rewrite filter_cons. simpl.
  rewrite decide_False by congruence. by apply IH.
Qed.

Lemma reindex_index_spec df idx :
  NoDup (index df) \/ index df = idx ->
  exists val, reindex_index df idx = Ok val /\ index val = idx /\
    forall lab c, lookup_col (columns df) lab = Some c ->
      length (cells c) = length (index df) ->
      exists c1, lookup_col (columns val) lab = Some c1 /\
        length (cells c1) = length idx /\
        forall i k, idx !! i = Some k -> k ∉ index df -> cells c1 !! i = Some NaN.
Proof.
  intros Hok. unfold reindex_index. destruct (decide (index df = idx)) as [<-|Hne].
  - exists df. split; [done|]. split; [done|]. intros lab c Hc Hlen.
    exists c. split; [done|]. split; [done|]. intros i k Hi Hk.
    exfalso. apply Hk. by eapply list_elem_of_lookup_2.
  - destruct Hok as [Hnd|?]; [|done]. rewrite decide_True by done.
    eexists. split; [done|]. split; [done|]. intros lab c Hc Hlen. simpl.
    rewrite (lookup_col_fmap_col (reindex_col (index df) idx)).
    rewrite Hc. simpl. eexists. split; [done|]. simpl.
    split; [by rewrite length_fmap|]. intros i k Hi Hk.
    rewrite list_lookup_fmap, Hi. simpl. unfold value_at.
    by rewrite rows_where_absent.
Qed.

Lemma do_col_fold suffix do_categ (L : list string) val1 : forall cols val,
  (forall col, col ∈ cols -> col ∈ L /\ col +:+ suffix ∉ L) ->
  (forall lab, lab ∈ L -> is_Some (lookup_col (columns val1) lab)) ->
  (forall lab, lab ∈ L -> lookup_col (columns val) lab = lookup_col (columns val1) lab) ->
  exists val',
    foldR (do_col suffix do_categ) val cols = Ok val' /\
    index val' = index val /\
    (forall lab, lab ∈ L -> lookup_col (columns val') lab = lookup_col (columns val1) lab) /\
    (forall col, col ∈ cols ->
       exists c, lookup_col (columns val1) col = Some c /\
                 lookup_col (columns val') (col +:+ suffix) = Some (indicator do_categ c)) /\
    (forall lab, (forall col, col ∈ cols -> lab <> col +:+ suffix) ->
       lookup_col (columns val') lab = lookup_col (columns val) lab).
Proof.
  induction cols as [|col cols IH]; intros val Hcols Hsome Hsame.
  - exists val. repeat split; try done. intros col Hin. by apply elem_of_nil in Hin.
  - destruct (Hcols col) as [HcolL Hfresh]; [left|].
    destruct (Hsome col HcolL) as [c Hc].
    set (val2 := setitem val (col +:+ suffix) (indicator do_categ c)).
    assert (Hstep : do_col suffix do_categ val col = Ok val2).
    { unfold do_col, getitem. by rewrite Hsame, Hc. }
    assert (Hlook2 : forall lab, lab <> col +:+ suffix ->
              lookup_col (columns val2) lab = lookup_col (columns val) lab).
    { intros lab Hne. unfold val2, setitem. simpl.
      by rewrite lookup_set_col, decide_False. }
    destruct (IH val2) as (val' & Hval' & Hidx & HL & Hind & Hrest).
    { intros col' Hin. apply Hcols. by right. }
    { done. }
    { intros lab Hlab. rewrite Hlook2; [by apply Hsame|]. intros ->. done. }
    exists val'. split; [simpl; by rewrite Hstep|]. split; [done|]. split; [done|].
    split.
    + intros col' [->|Hin]%elem_of_cons; [|by apply Hind].
      destruct (decide (col ∈ cols)) as [Hin|Hnin]; [by apply Hind|].
      exists c. split; [done|]. rewrite Hrest.
      * unfold val2, setitem. simpl. by rewrite lookup_set_col, decide_True.
      * intros col' Hin Heq. apply string_app_inj_r in Heq. by subst.
    + intros lab Hlab. rewrite Hrest.
      * apply Hlook2. apply Hlab. left.
      * intros col' Hin. apply Hlab. by right.
Qed.

Lemma indicator_cells do_categ c : cells (indicator do_categ c) = isna c.
Proof. by destruct do_categ. Qed.

Lemma rows_where_NoDup {A} idx : forall (l : list A) j k,
  NoDup idx -> idx !! j = Some k -> length l = length idx ->
  head (rows_where k idx l) = l !! j.
Proof.
  unfold rows_where.
  induction idx as [|k0 idx IH]; intros [|x l] j k Hnd Hj Hlen; try done.
  apply NoDup_cons in Hnd as [Hk0 Hnd]. simpl. rewrite filter_cons. simpl.
  destruct j as [|j]; simpl in Hj.
  - injection Hj as ->. by rewrite decide_True.
  - rewrite decide_False.
    + change ((x :: l) !! S j) with (l !! j).
      apply IH; [done|done|]. simpl in Hlen. lia.
    + intros ->. apply Hk0. by eapply list_elem_of_lookup_2.
Qed.

(** Reindexing the rows: what a column holds afterwards, row by row. *)
Lemma reindex_index_cells df idx :
  NoDup (index df) \/ index df = idx ->
  exists val, reindex_index df idx = Ok val /\ index val = idx /\
    forall lab c, lookup_col (columns df) lab = Some c ->
      length (cells c) = length (index df) ->
      exists c1, lookup_col (columns val) lab = Some c1 /\
        length (cells c1) = length idx /\
        (index df = idx -> cells c1 = cells c) /\
        (NoDup (index df) ->
         forall i j k, idx !! i = Some k -> index df !! j = Some k ->
                       cells c1 !! i = cells c !! j) /\
        (forall i k, idx !! i = Some k -> k ∉ index df -> cells c1 !! i = Some NaN).
Proof.
  intros Hok. unfold reindex_index. destruct (decide (index df = idx)) as [<-|Hne].
  - exists df. split; [done|]. split; [done|]. intros lab c Hc Hlen.
    exists c. split; [done|]. split; [done|]. split; [done|]. split.
    + intros Hnd i j k Hi Hj. by rewrite (NoDup_lookup _ i j k Hnd Hi Hj).
    + intros i k Hi Hk. exfalso. apply Hk. by eapply list_elem_of_lookup_2.
  - destruct Hok as [Hnd|?]; [|done]. rewrite decide_True by done.
    eexists. split; [done|]. split; [done|]. intros lab c Hc Hlen. simpl.
    rewrite (lookup_col_fmap_col (reindex_col (index df) idx)), Hc. simpl.
    eexists. split; [done|]. simpl. split; [by rewrite length_fmap|].
    split; [done|]. split.
    + intros _ i j k Hi Hj. rewrite list_lookup_fmap, Hi. simpl. unfold value_at.
      rewrite (rows_where_NoDup (index df) (cells c) j k Hnd Hj Hlen).
      destruct (cells c !! j) as [v|] eqn:Ev; [done|].
      apply lookup_ge_None in Ev. apply lookup_lt_Some in Hj. lia.
    + intros i k Hi Hk. rewrite list_lookup_fmap, Hi. simpl. unfold value_at.
      by rewrite rows_where_absent.
Qed.

(** C3.  For an annotation table with unique labels and keys (or the very
    index of the call set), selected columns that it contains, and an
    extended column order without repeated label, the Binarizer returns a
    table whose rows are the index of the call set, in its order.  A
    selected column holds, on each row, the value the annotation table has
    for that variant, and a missing value for a variant the table lacks.
    Its indicator column is 1 where that value is missing and 0 elsewhere:
    0 for a variant with a value in the annotation table, 1 for a variant
    whose value there is missing and for every variant the table lacks.
    The dtype of the indicator is int8, or a categorical when so
    configured. *)
Theorem binarize_cols_indicator
    (cols2binarize : list string) (annot calls : DataFrame)
    (suffix : string) (do_categ : bool) :
  wf_frame annot ->
  NoDup (index annot) \/ index annot = index calls ->
  Forall (fun col => col ∈ labels annot) cols2binarize ->
  (exists E, extended_columns (labels annot) cols2binarize suffix = Ok E /\ NoDup E) ->
  exists val,
    binarize_cols cols2binarize annot calls suffix do_categ = Ok val /\
    index val = index calls /\
    forall col, col ∈ cols2binarize ->
      exists c0 c cb,
        lookup_col (columns annot) col = Some c0 /\
        lookup_col (columns val) col = Some c /\
        lookup_col (columns val) (col +:+ suffix) = Some cb /\
        length (cells c) = length (index calls) /\
        length (cells cb) = length (index calls) /\
        (index annot = index calls -> cells c = cells c0) /\
        (NoDup (index annot) ->
         forall i j k, index calls !! i = Some k -> index annot !! j = Some k ->
           cells c !! i = cells c0 !! j) /\
        (forall i k, index calls !! i = Some k -> k ∉ index annot ->
           cells c !! i = Some NaN) /\
        (forall i v, cells c !! i = Some v ->
           cells cb !! i = Some (Num (if decide (v = NaN) then 1 else 0))) /\
        (NoDup (index annot) ->
         forall i j k v, index calls !! i = Some k -> index annot !! j = Some k ->
           cells c0 !! j = Some v ->
           cells cb !! i = Some (Num (if decide (v = NaN) then 1 else 0))) /\
        (forall i k, index calls !! i = Some k -> k ∉ index annot ->
           cells cb !! i = Some (Num 1)) /\
        (if do_categ then exists cats, dt cb = category cats false else dt cb = int8).
Proof.
  intros [Hnd Hal] Hidx Hsel (E & HE & HndE).
  assert (Hne : labels annot <> []).
  { intros Hnil. rewrite Hnil in HE. discriminate. }
  rewrite extended_columns_Ok in HE by done. injection HE as <-.
  set (E := with_indicators (labels annot) cols2binarize suffix) in *.
  rewrite Forall_forall in Hsel.
  destruct (reindex_columns_spec annot E Hnd) as (val0 & Hval0 & Hidx0 & Hlook0).
  destruct (reindex_index_cells val0 (index calls)) as (val1 & Hval1 & Hidx1 & Hlook1).
  { by rewrite Hidx0. }
  assert (HL : forall lab c0, lookup_col (columns annot) lab = Some c0 ->
            exists c1, lookup_col (columns val1) lab = Some c1 /\
              length (cells c1) = length (index calls) /\
              (index annot = index calls -> cells c1 = cells c0) /\
              (NoDup (index annot) ->
               forall i j k, index calls !! i = Some k -> index annot !! j = Some k ->
                 cells c1 !! i = cells c0 !! j) /\
              (forall i k, index calls !! i = Some k -> k ∉ index annot ->
                 cells c1 !! i = Some NaN)).
  { intros lab c0 Ec. rewrite <- Hidx0. apply Hlook1.
    - rewrite Hlook0, Ec; [done|]. apply with_indicators_label.
      apply lookup_col_Some_in in Ec. apply list_elem_of_fmap. by exists (lab, c0).
    - rewrite Hidx0. unfold aligned in Hal. rewrite Forall_forall in Hal.
      apply (Hal (lab, c0)). by apply lookup_col_Some_in. }
  assert (HS : forall lab, lab ∈ labels annot ->
            exists c0, lookup_col (columns annot) lab = Some c0).
  { intros lab Hlab. destruct (lookup_col (columns annot) lab) as [c0|] eqn:Ec;
      [by exists c0|by apply lookup_col_None in Ec]. }
  destruct (do_col_fold suffix do_categ (labels annot) val1 cols2binarize val1)
    as (val & Hval & Hidxv & Hsame & Hind & _).
  { intros col Hcol. split; [by apply Hsel|].
    apply (with_indicators_fresh _ cols2binarize); [done|by apply Hsel|done]. }
  { intros lab Hlab. destruct (HS lab Hlab) as [c0 Ec].
    destruct (HL lab c0 Ec) as (c1 & -> & _). by eexists. }
  { done. }
  exists val. split.
  { unfold binarize_cols. rewrite extended_columns_Ok by done. simpl.
    fold E. rewrite Hval0. simpl. rewrite Hval1. simpl. exact Hval. }
  split; [by rewrite Hidxv|].
  intros col Hcol. destruct (HS col (Hsel col Hcol)) as [c0 Ec].
  destruct (HL col c0 Ec) as (c1 & Hc1 & Hlen & Hsameidx & Hkeys & Habs).
  destruct (Hind col Hcol) as (c1' & Hc1' & Hcb).
  rewrite Hc1 in Hc1'. injection Hc1' as <-.
  exists c0, c1, (indicator do_categ c1). split; [done|].
  split; [by rewrite Hsame by (by apply Hsel)|].
  split; [done|]. split; [done|]. rewrite indicator_cells. unfold isna.
  split; [by rewrite length_fmap|]. split; [done|]. split; [done|]. split; [done|].
  split.
  { intros i v Hv. by rewrite list_lookup_fmap, Hv. }
  split.
  { intros Hndk i j k v Hi Hj Hv.
    by rewrite list_lookup_fmap, (Hkeys Hndk i j k Hi Hj), Hv. }
  split.
  { intros i k Hi Hk. by rewrite list_lookup_fmap, (Habs i k Hi Hk). }
  destruct do_categ; simpl; [by eexists|done].
Qed.

(** The call set has a variant the annotation table lacks: its indicator
    is 1. *)
Lemma binarize_cols_indicator_witness :
  exists val,
    binarize_cols ["cons_Score"] Examples.scores Examples.calls "_bin" false = Ok val /\
    index val = index Examples.calls /\
    forall col, col ∈ ["cons_Score"] ->
      exists c0 c cb,
        lookup_col (columns Examples.scores) col = Some c0 /\
        lookup_col (columns val) col = Some c /\
        lookup_col (columns val) (col +:+ "_bin") = Some cb /\
        length (cells c) = length (index Examples.calls) /\
        length (cells cb) = length (index Examples.calls) /\
        (index Examples.scores = index Examples.calls -> cells c = cells c0) /\
        (NoDup (index Examples.scores) ->
         forall i j k, index Examples.calls !! i = Some k ->
           index Examples.scores !! j = Some k -> cells c !! i = cells c0 !! j) /\
        (forall i k, index Examples.calls !! i = Some k -> k ∉ index Examples.scores ->
           cells c !! i = Some NaN) /\
        (forall i v, cells c !! i = Some v ->
           cells cb !! i = Some (Num (if decide (v = NaN) then 1 else 0))) /\
        (NoDup (index Examples.scores) ->
         forall i j k v, index Examples.calls !! i = Some k ->
           index Examples.scores !! j = Some k -> cells c0 !! j = Some v ->
           cells cb !! i = Some (Num (if decide (v = NaN) then 1 else 0))) /\
        (forall i k, index Examples.calls !! i = Some k -> k ∉ index Examples.scores ->
           cells cb !! i = Some (Num 1)) /\
        dt cb = int8.
Proof.
  apply (binarize_cols_indicator ["cons_Score"] Examples.scores Examples.calls "_bin" false).
  - compute_done.
  - left. compute_done.
  - compute_done.
  - eexists. split; [vm_compute; reflexivity|compute_done].
Defined.

Example binarize_cols_scores :
  binarize_cols ["cons_Score"] Examples.scores Examples.calls "_bin" false
  = Ok {| index := [Examples.k2; Examples.k3; Examples.k1];
          columns :=
            [("cons_Score", {| dt := float64; cells := [NaN; NaN; Num 1] |});
             ("cons_Score_bin", {| dt := int8; cells := [Num 1; Num 1; Num 0] |});
             ("near_gens_Type", {| dt := object; cells := [Str "b"; NaN; Str "a:b"] |})] |}.
Proof. vm_compute. reflexivity. Qed.

(** ** Set-Valued Vectorizer *)

Lemma filter_notin_snoc (L : list string) n (rest : list string) :
  n ∉ rest ->
  filter (fun x => x ∉ L ++ [n]) rest = filter (fun x => x ∉ L) rest.
Proof.
  induction rest as [|x rest IH]; intros Hn; [done|].
  apply not_elem_of_cons in Hn as [Hne Hn]. rewrite !filter_cons, IH by done.
  destruct (decide (x ∉ L ++ [n])) as [H1|H1], (decide (x ∉ L)) as [H2|H2]; try done.
  - exfalso. apply H2. intros Hin. apply H1. apply elem_of_app. by left.
  - exfalso. apply H1. intros [?|Hx%list_elem_of_singleton]%elem_of_app; [done|].
    congruence.
Qed.

(** Assigning a list of distinct names in turn: names the frame has keep
    their place, the others are appended in order; each name ends up with
    its own series and no other column is touched. *)
Lemma foldl_setitem_spec (f : string -> column) names : forall annot,
  NoDup names ->
  let out := foldl (fun a col => setitem a col (f col)) annot names in
  index out = index annot /\
  labels out = labels annot ++ filter (fun n => n ∉ labels annot) names /\
  (forall n, n ∈ names -> lookup_col (columns out) n = Some (f n)) /\
  (forall lab, lab ∉ names -> lookup_col (columns out) lab = lookup_col (columns annot) lab).
Proof.
  induction names as [|n names IH]; intros annot Hnd; simpl.
  - split; [done|]. split; [by rewrite app_nil_r|]. split; [|done].
    intros n Hn. by apply elem_of_nil in Hn.
  - apply NoDup_cons in Hnd as [Hn Hnd].
    destruct (IH (setitem annot n (f n)) Hnd) as (Hidx & Hlab & Hnew & Hold).
    simpl in *. split; [done|]. split; [|split].
    + rewrite Hlab. unfold labels, setitem. simpl. rewrite filter_cons.
      destruct (decide (n ∈ (columns annot).*1)) as [Hin|Hnin].
      * rewrite set_col_labels_in by done.
        destruct (decide (n ∉ (columns annot).*1)); done.
      * rewrite set_col_labels_notin by done.
        rewrite filter_notin_snoc by done.
        destruct (decide (n ∉ (columns annot).*1)); [|done].
        by rewrite <- app_assoc.
    + intros n' [->|Hin]%elem_of_cons; [|by apply Hnew].
      rewrite Hold by done. by rewrite lookup_set_col, decide_True.
    + intros lab [Hne Hlab']%not_elem_of_cons. rewrite Hold by done.
      by rewrite lookup_set_col, decide_False.
Qed.

(** What a successful call of the vectorizer returns: the columns of the
    input, in place, followed by the names it did not have; the series
    stored under a new name tests that very name against the token lists. *)
Lemma vectorize_setvalued_spec `{SetOrder} annot colname nonestr sepstr out :
  vectorize_setvalued annot colname nonestr sepstr = Ok out ->
  exists c ll,
    lookup_col (columns annot) colname = Some c /\
    token_lists sepstr c = Ok ll /\
    let s := filter (fun y => y <> nonestr) (set_list (concat ll)) in
    let prefix := if existsb (fun y => bool_decide (y ∈ labels annot)) s
                  then colname +:+ "_" else "" in
    let new_colnames := (fun y => prefix +:+ y) <$> s in
    index out = index annot /\
    labels out = labels annot ++ filter (fun n => n ∉ labels annot) new_colnames /\
    (forall n, n ∈ new_colnames -> lookup_col (columns out) n = Some (membership ll n)) /\
    (forall lab, lab ∉ new_colnames ->
       lookup_col (columns out) lab = lookup_col (columns annot) lab).
Proof.
  unfold vectorize_setvalued. intros (c & Hc & Hrest)%bind_Ok.
  apply bind_Ok in Hrest as (ll & Hll & Hrest).
  apply bind_Ok in Hrest as (ix & _ & [= <-]).
  unfold getitem in Hc. destruct (lookup_col (columns annot) colname) as [c'|] eqn:E; [|done].
  injection Hc as ->. exists c, ll. split; [done|]. split; [done|]. simpl.
  apply (foldl_setitem_spec (membership ll)).
  apply NoDup_fmap; [apply _|]. apply NoDup_filter, set_list_NoDup.
Qed.

Lemma vectorize_setvalued_total `{SetOrder} annot colname nonestr sepstr c ll :
  lookup_col (columns annot) colname = Some c ->
  token_lists sepstr c = Ok ll ->
  exists out, vectorize_setvalued annot colname nonestr sepstr = Ok out.
Proof.
  intros Hc Hll. unfold vectorize_setvalued, getitem. rewrite Hc. simpl.
  unfold token_lists in Hll. rewrite Hll. simpl.
  unfold list_index.
  destruct (list_find (fun y => y = colname) (labels annot)) as [[ix ?]|] eqn:E.
  - simpl. by eexists.
  - exfalso. apply list_find_None in E. rewrite Forall_forall in E.
    apply (E colname); [|done]. apply lookup_col_Some_in in Hc.
    apply list_elem_of_fmap. by exists (colname, c).
Qed.

(** The example of the specification: no token is a column name, and each
    new column tells where its token occurs. *)
Example vectorize_setvalued_example :
  @vectorize_setvalued dedup_order Examples.setvalued "y" "None" ":"
  = Ok {| index := index Examples.setvalued;
          columns :=
            [("y", {| dt := object; cells := [Str "a:b"; Str "b"; Str "None"] |});
             ("a", {| dt := bool_; cells := [Bool true; Bool false; Bool false] |});
             ("b", {| dt := bool_; cells := [Bool true; Bool true; Bool false] |})] |}.
Proof. vm_compute. reflexivity. Qed.

(** C7.  The code at an input where a token is already a column name: the
    cells ["a:b"] and ["b"] of column [y] in a table that has a column [a].
    The new columns are named [y_a] and [y_b], and both are False on every
    row, in whatever order the set yields the tokens: the membership test is
    made with the prefixed name, which is no token, where the claim has
    [y_a] True on the first row and [y_b] True on both. *)
Theorem vectorize_setvalued_prefixed_all_false `{SetOrder} :
  exists out,
    vectorize_setvalued Examples.setvalued_clash "y" "None" ":" = Ok out /\
    lookup_col (columns out) "y_a"
      = Some {| dt := bool_; cells := [Bool false; Bool false] |} /\
    lookup_col (columns out) "y_b"
      = Some {| dt := bool_; cells := [Bool false; Bool false] |}.
Proof.
  destruct (vectorize_setvalued_total Examples.setvalued_clash "y" "None" ":"
              {| dt := object; cells := [Str "a:b"; Str "b"] |} [["a"; "b"]; ["b"]])
    as [out Hout]; [reflexivity|reflexivity|].
  exists out. split; [done|].
  destruct (vectorize_setvalued_spec _ _ _ _ _ Hout)
    as (c & ll & Hc & Hll & _ & _ & Hnew & _).
  injection Hc as <-. injection Hll as <-.
  set (s := filter (fun y => y <> "None") (set_list (concat [["a"; "b"]; ["b"]]))) in *.
  assert (Ha : "a" ∈ s).
  { apply list_elem_of_filter. split; [done|]. apply set_list_elem. compute_done. }
  assert (Hb : "b" ∈ s).
  { apply list_elem_of_filter. split; [done|]. apply set_list_elem. compute_done. }
  assert (Hclash : existsb (fun y => bool_decide (y ∈ labels Examples.setvalued_clash)) s
                   = true).
  { apply existsb_exists. exists "a". split; [by apply list_elem_of_In|done]. }
  rewrite Hclash in Hnew. split.
  - rewrite (Hnew "y_a"); [done|]. apply list_elem_of_fmap. by exists "a".
  - rewrite (Hnew "y_b"); [done|]. apply list_elem_of_fmap. by exists "b".
Qed.

(** C8.  The code at a column standing between two others: the new column
    comes after every column the table had, not before the vectorized one.
    The order [colnames] with the new names ahead of [y] is computed and
    never applied.  The columns that were there keep their order, and [y]
    its values. *)
Theorem vectorize_setvalued_appends `{SetOrder} :
  exists out,
    vectorize_setvalued Examples.setvalued_mid "y" "None" ":" = Ok out /\
    labels out = ["x"; "y"; "z"; "a"] /\
    labels out <> ["x"; "a"; "y"; "z"] /\
    lookup_col (columns out) "y" = lookup_col (columns Examples.setvalued_mid) "y".
Proof.
  destruct (vectorize_setvalued_total Examples.setvalued_mid "y" "None" ":"
              {| dt := object; cells := [Str "a"; Str "a"] |} [["a"]; ["a"]])
    as [out Hout]; [reflexivity|reflexivity|].
  exists out. split; [done|].
  destruct (vectorize_setvalued_spec _ _ _ _ _ Hout)
    as (c & ll & Hc & Hll & _ & Hlab & _ & Hold).
  injection Hc as <-. injection Hll as <-.
  assert (Hs : set_list (concat [["a"]; ["a"]]) = ["a"]).
  { apply Permutation_singleton_r. rewrite set_list_perm. by vm_compute. }
  rewrite Hs in Hlab, Hold.
  assert (Hlab' : labels out = ["x"; "y"; "z"; "a"]) by (rewrite Hlab; by vm_compute).
  split; [exact Hlab'|]. split; [by rewrite Hlab'|].
  apply Hold. compute_done.
Qed.

(** In general the new columns follow all the columns of the input. *)
Lemma vectorize_setvalued_labels `{SetOrder} annot colname nonestr sepstr out :
  vectorize_setvalued annot colname nonestr sepstr = Ok out ->
  exists new, labels out = labels annot ++ new /\
              Forall (fun n => n ∉ labels annot) new.
Proof.
  intros Hout. destruct (vectorize_setvalued_spec _ _ _ _ _ Hout)
    as (c & ll & _ & _ & _ & Hlab & _).
  eexists. split; [exact Hlab|]. apply Forall_forall.
  intros n Hn. by apply list_elem_of_filter in Hn as [? _].
Qed.

(** C10.  With the default none-token argument the string ['None'] is
    iterated character by character: at most the first four columns are
    vectorized, with the none-tokens ['N'], ['o'], ['n'] and ['e']; further
    columns are ignored. *)
Theorem vectorize_multiple_setvalued_default `{SetOrder}
    (annot : DataFrame) (colnamel : list string) (sepstr : string) :
  py_iter nonestrl_default = ["N"; "o"; "n"; "e"] /\
  zip colnamel (py_iter nonestrl_default) = zip (take 4 colnamel) ["N"; "o"; "n"; "e"] /\
  vectorize_multiple_setvalued annot colnamel nonestrl_default sepstr
  = foldR (fun data cn => vectorize_setvalued data cn.1 cn.2 sepstr) annot
          (zip (take 4 colnamel) ["N"; "o"; "n"; "e"]) /\
  vectorize_multiple_setvalued annot colnamel nonestrl_default sepstr
  = vectorize_multiple_setvalued annot (take 4 colnamel) (StrList ["N"; "o"; "n"; "e"]) sepstr.
Proof.
  assert (Hzip : zip colnamel (py_iter nonestrl_default)
                 = zip (take 4 colnamel) ["N"; "o"; "n"; "e"]).
  { destruct colnamel as [|c1 [|c2 [|c3 [|c4 [|c5 l]]]]]; reflexivity. }
  split; [reflexivity|]. split; [exact Hzip|].
  unfold vectorize_multiple_setvalued. rewrite Hzip. by split.
Qed.

(** With the default argument the token ["None"] of the first column is not
    discarded: its none-token is ["N"]. *)
Example vectorize_multiple_setvalued_keeps_None :
  @vectorize_multiple_setvalued dedup_order Examples.setvalued ["y"] nonestrl_default ":"
  = Ok {| index := index Examples.setvalued;
          columns :=
            [("y", {| dt := object; cells := [Str "a:b"; Str "b"; Str "None"] |});
             ("a", {| dt := bool_; cells := [Bool true; Bool false; Bool false] |});
             ("b", {| dt := bool_; cells := [Bool true; Bool true; Bool false] |});
             ("None", {| dt := bool_; cells := [Bool false; Bool false; Bool true] |})] |}.
Proof. vm_compute. reflexivity. Qed.

(** ** Strings *)

Lemma string_app_cons a (s1 s2 : string) : String a s1 +:+ s2 = String a (s1 +:+ s2).
Proof. reflexivity. Qed.

Lemma string_app_nil_r (s : string) : s +:+ "" = s.
Proof. induction s as [|a s IH]; [done|]. by rewrite string_app_cons, IH. Qed.

Lemma string_app_assoc (s1 s2 s3 : string) : (s1 +:+ s2) +:+ s3 = s1 +:+ s2 +:+ s3.
Proof. induction s1 as [|a s1 IH]; [done|]. by rewrite !string_app_cons, IH. Qed.

Lemma string_app_eq_length (s1 s2 suf1 suf2 : string) :
  String.length suf1 = String.length suf2 ->
  s1 +:+ suf1 = s2 +:+ suf2 -> s1 = s2 /\ suf1 = suf2.
Proof.
  intros Hlen. revert s2. induction s1 as [|a s1 IH]; intros [|b s2] Heq.
  - done.
  - apply (f_equal String.length) in Heq.
    rewrite !string_length_app in Heq. simpl in Heq. lia.
  - apply (f_equal String.length) in Heq.
    rewrite !string_length_app in Heq. simpl in Heq. lia.
  - injection Heq as -> Heq. destruct (IH _ Heq) as [-> ->]. done.
Qed.

Lemma strip_suffix_Some suf s b : strip_suffix suf s = Some b -> s = b +:+ suf.
Proof.
  revert b. induction s as [|a s IH]; intros b; simpl.
  - destruct (decide ("" = suf)) as [<-|]; [|done]. by intros [= <-].
  - destruct (decide (String a s = suf)) as [<-|]; [by intros [= <-]|].
    destruct (strip_suffix suf s) as [b'|]; [|done]. intros [= <-].
    rewrite string_app_cons. f_equal. by apply IH.
Qed.

Lemma strip_suffix_app suf g : strip_suffix suf (g +:+ suf) = Some g.
Proof.
  induction g as [|a g IH].
  - change ("" +:+ suf) with suf. destruct suf; simpl; [done|by rewrite decide_True].
  - change (String a g +:+ suf) with (String a (g +:+ suf)). simpl.
    rewrite decide_False.
    + by rewrite IH.
    + intros Heq. apply (f_equal String.length) in Heq. simpl in Heq.
      rewrite string_length_app in Heq. lia.
Qed.

Lemma has_newline_app s1 s2 :
  has_newline (s1 +:+ s2) = has_newline s1 || has_newline s2.
Proof.
  induction s1 as [|a s1 IH]; [done|].
  rewrite string_app_cons. simpl. by rewrite IH, orb_assoc.
Qed.

Lemma prefix_colon c s : String.prefix ":" (String c s) = bool_decide (c = ":"%char).
Proof.
  cbn [String.prefix]. destruct (ascii_dec ":" c) as [<-|Hne].
  - by destruct s.
  - symmetry. apply bool_decide_eq_false. congruence.
Qed.

Lemma split_from_colon_cons c s :
  split_from ":" 0 (String c s) =
  if bool_decide (c = ":"%char) then "" :: split_from ":" 0 s
  else match split_from ":" 0 s with
       | t :: ts => String c t :: ts
       | [] => [String c ""]
       end.
Proof.
  change (split_from ":" 0 (String c s)) with
    (if String.prefix ":" (String c s) then "" :: split_from ":" 0 s
     else match split_from ":" 0 s with
          | t :: ts => String c t :: ts
          | [] => [String c ""]
          end).
  by rewrite prefix_colon.
Qed.

Lemma split_colon_last a : has_colon a = false -> split_from ":" 0 a = [a].
Proof.
  induction a as [|c a IH]; [done|].
  cbn [has_colon]. intros [Hc Ha]%orb_false_iff.
  by rewrite split_from_colon_cons, Hc, IH.
Qed.

Lemma split_colon_app a rest :
  has_colon a = false ->
  split_from ":" 0 (a +:+ ":" +:+ rest) = a :: split_from ":" 0 rest.
Proof.
  induction a as [|c a IH]; intros Ha.
  - change ("" +:+ ":" +:+ rest) with (String ":" rest).
    by rewrite split_from_colon_cons.
  - cbn [has_colon] in Ha. apply orb_false_iff in Ha as [Hc Ha].
    change (String c a +:+ ":" +:+ rest) with (String c (a +:+ ":" +:+ rest)).
    by rewrite split_from_colon_cons, Hc, IH.
Qed.

Lemma varid2index_chr c p m :
  plain c -> plain p -> plain m -> varid2index (varid_of c p m) = [c; p; m].
Proof.
  intros [Hc Hcn] [Hp Hpn] [Hm Hmn]. unfold varid2index, varid_of, re_sub_chr.
  set (g := c +:+ ":" +:+ p +:+ ":" +:+ m).
  assert (Hr : c +:+ ":" +:+ p +:+ ":" +:+ m +:+ ":1" = g +:+ ":1").
  { unfold g. by rewrite !string_app_assoc. }
  change (strip_prefix "chr" ("chr" +:+ c +:+ ":" +:+ p +:+ ":" +:+ m +:+ ":1"))
    with (Some (c +:+ ":" +:+ p +:+ ":" +:+ m +:+ ":1")).
  rewrite Hr.
  destruct (strip_suffix (String newline "") (g +:+ ":1")) as [b|] eqn:Eb.
  { apply strip_suffix_Some in Eb.
    change (g +:+ ":1") with (g +:+ (":" +:+ "1")) in Eb.
    rewrite <- string_app_assoc in Eb.
    apply string_app_eq_length in Eb as [_ Eb]; [|done]. discriminate. }
  rewrite strip_suffix_app.
  assert (Hg : g <> "").
  { unfold g. destruct c; discriminate. }
  assert (Hgn : has_newline g = false).
  { unfold g. rewrite !has_newline_app, Hcn, Hpn, Hmn. done. }
  rewrite bool_decide_eq_true_2, Hgn by done. simpl. rewrite string_app_nil_r.
  unfold g. rewrite split_colon_app by done. rewrite split_colon_app by done.
  by rewrite split_colon_last.
Qed.

(** ** Annotation Table Reader *)

Lemma mapR_fmap_Ok {A B C} (f : B -> result C) (g : A -> B) (h : A -> C) (l : list A) :
  Forall (fun x => f (g x) = Ok (h x)) l -> mapR f (g <$> l) = Ok (h <$> l).
Proof.
  induction 1 as [|x l Hx _ IH]; csimpl; [done|]. by rewrite Hx, IH.
Qed.

(** The positions [int] reads: blanks around the literal and single
    underscores between digits are part of it. *)
Example astype_int64_literals :
  astype_int64 " 100" = Ok 100%Z /\ astype_int64 "2_00" = Ok 200%Z /\
  astype_int64 "-7" = Ok (-7)%Z /\ astype_int64 "1__0" = Raise ValueError /\
  astype_int64 "- 1" = Raise ValueError /\ astype_int64 "1.0" = Raise ValueError /\
  astype_int64 "9223372036854775808" = Raise OverflowError.
Proof. repeat split; reflexivity. Qed.

(** C9 (amended).  For a file whose variant identities all have the shape
    [chrCHROM:POS:MUTATION:1], with the ["chr"] prefix, fields free of colon
    and line break and a position that is an int64, the reader strips the
    prefix and the trailing [":1"] and returns a table indexed, row by row,
    by (individual, tissue, CHROM, POS as int64, MUTATION); its columns are
    the columns of the file other than the identity columns, each prefixed
    by the name of the source. *)
Theorem read_TXT_per_annotation_index
    (fs : filesystem) (tsvpath indivID tis : string) (annotname : option string)
    (na_values : list string) (raw : RawFrame) (vid : column)
    (fields : list (string * string * string)) :
  read_csv fs tsvpath na_values = Ok raw ->
  lookup_col (raw_columns raw) "Variation ID" = Some vid ->
  cells vid = (fun f => Str (varid_of f.1.1 f.1.2 f.2)) <$> fields ->
  fields <> [] ->
  Forall (fun f => plain f.1.1 /\ plain f.1.2 /\ plain f.2 /\
                   exists z, astype_int64 f.1.2 = Ok z) fields ->
  let name := default (tsvpath2annotname tsvpath) annotname in
  exists out,
    read_TXT_per_annotation fs tsvpath indivID tis annotname na_values = Ok out /\
    Forall2 (fun f k => individual k = indivID /\ tissue k = tis /\
                        chrom k = f.1.1 /\ astype_int64 f.1.2 = Ok (pos k) /\
                        mutation k = f.2) fields (index out) /\
    columns out = (fun lc => (name +:+ "_" +:+ lc.1, lc.2))
                  <$> filter (fun lc => lc.1 ∉ identity_columns) (raw_columns raw) /\
    Forall (fun id => name +:+ "_" +:+ id ∉ labels out) identity_columns.
Proof.
  intros Hread Hvid Hcells Hne Hfields name.
  unfold read_TXT_per_annotation. rewrite Hread. simpl. rewrite Hvid. simpl.
  rewrite Hcells.
  rewrite (mapR_fmap_Ok _ _ (fun f => [indivID; tis; f.1.1; f.1.2; f.2])).
  2:{ eapply Forall_impl; [exact Hfields|]. intros [[c p] m] (Hc & Hp & Hm & _). simpl.
      by rewrite varid2index_chr. }
  simpl. unfold five_columns. rewrite decide_False by (by destruct fields).
  rewrite (mapR_fmap_Ok _ _ (fun f => (indivID, tis, f.1.1, f.1.2, f.2)))
    by (by apply Forall_forall).
  simpl.
  destruct (mapR_total
    (fun r : string * string * string * string * string =>
       match r with
       | (i, t, c, p, m) => z ← astype_int64 p; Ok (Build_VariantKey i t c z m)
       end)
    ((fun f : string * string * string => (indivID, tis, f.1.1, f.1.2, f.2)) <$> fields))
    as [keys Hkeys].
  { apply Forall_fmap. eapply Forall_impl; [exact Hfields|].
    intros [[c p] m] (_ & _ & _ & z & Hz). simpl in *. rewrite Hz. by eexists. }
  rewrite Hkeys. simpl. eexists. split; [done|]. simpl. split; [|split; [done|]].
  - apply mapR_Ok_Forall2 in Hkeys. apply Forall2_fmap_l in Hkeys.
    eapply Forall2_impl; [exact Hkeys|]. intros [[c p] m] k. simpl.
    intros (z & Hz & [= <-])%bind_Ok. done.
  - apply Forall_forall. intros id Hid Hin. unfold labels in Hin. simpl in Hin.
    rewrite <- list_fmap_compose in Hin.
    apply list_elem_of_fmap in Hin as ([lab c] & Heq & Hin). simpl in Heq.
    apply (inj (String.append name)) in Heq. apply (inj (String.append "_")) in Heq.
    subst lab. apply list_elem_of_filter in Hin as [Hnot _]. by apply Hnot.
Qed.

Lemma read_TXT_per_annotation_index_witness :
  exists out,
    read_TXT_per_annotation (Examples.one_file "/annot/MSSM_1_muscle/near_gens.txt"
                                               Examples.near_gens_raw)
      "/annot/MSSM_1_muscle/near_gens.txt" "CMC_MSSM_1" "muscle" None [] = Ok out /\
    Forall2 (fun f k => individual k = "CMC_MSSM_1" /\ tissue k = "muscle" /\
                        chrom k = f.1.1 /\ astype_int64 f.1.2 = Ok (pos k) /\
                        mutation k = f.2)
            [("1", "100", "A/G"); ("2", "200", "C/T")] (index out) /\
    columns out = (fun lc => ("near_gens" +:+ "_" +:+ lc.1, lc.2))
                  <$> filter (fun lc => lc.1 ∉ identity_columns)
                             (raw_columns Examples.near_gens_raw) /\
    Forall (fun id => "near_gens" +:+ "_" +:+ id ∉ labels out) identity_columns.
Proof.
  apply (read_TXT_per_annotation_index
           (Examples.one_file "/annot/MSSM_1_muscle/near_gens.txt" Examples.near_gens_raw)
           "/annot/MSSM_1_muscle/near_gens.txt" "CMC_MSSM_1" "muscle" None []
           Examples.near_gens_raw
           {| dt := object; cells := [Str "chr1:100:A/G:1"; Str "chr2:200:C/T:1"] |}
           [("1", "100", "A/G"); ("2", "200", "C/T")]).
  - reflexivity.
  - reflexivity.
  - reflexivity.
  - discriminate.
  - repeat constructor; by eexists.
Defined.

(** C9 as stated fails for an identity without the ["chr"] prefix: the
    pattern does not match, the trailing [":1"] stays as a fourth field, and
    the five index columns cannot be built. *)
Lemma read_TXT_per_annotation_needs_chr :
  varid2index "1:100:A/G:1" = ["1"; "100"; "A/G"; "1"] /\
  read_TXT_per_annotation (Examples.one_file "/annot/MSSM_1_muscle/near_gens.txt"
                                             Examples.nochr_raw)
    "/annot/MSSM_1_muscle/near_gens.txt" "CMC_MSSM_1" "muscle" None []
  = Raise ValueError.
Proof. split; vm_compute; reflexivity. Qed.

(** ** Multi-Source Joiner *)

(** *** Stacks are aligned and keep the labels of their operands *)

Lemma append_rows_pos_aligned a b :
  aligned a -> aligned b -> aligned (append_rows_pos a b).
Proof.
  unfold aligned, append_rows_pos. simpl. rewrite length_app.
  generalize (length (index a)) (length (index b)). intros na nb Ha.
  generalize (columns b).
  induction Ha as [|x ca Hx Ha IH]; intros cb Hb; [constructor|].
  destruct Hb as [|y cb Hy Hb]; [constructor|]. simpl.
  constructor; [|by apply IH]. simpl. rewrite length_app. lia.
Qed.

Lemma append_rows_aligned a b :
  aligned a -> aligned b -> aligned (append_rows a b).
Proof.
  intros Ha Hb. unfold aligned, append_rows. simpl.
  apply Forall_fmap, Forall_forall. intros lab _. simpl.
  unfold aligned in Ha, Hb. rewrite Forall_forall in Ha, Hb.
  destruct (lookup_col (columns a) lab) as [x|] eqn:Ea,
           (lookup_col (columns b) lab) as [y|] eqn:Eb; simpl;
    rewrite !length_app, ?length_replicate;
    repeat match goal with
           | E : lookup_col _ _ = Some _ |- _ => apply lookup_col_Some_in in E
           end.
  - pose proof (Ha _ Ea). pose proof (Hb _ Eb). simpl in *. lia.
  - pose proof (Ha _ Ea). simpl in *. lia.
  - pose proof (Hb _ Eb). simpl in *. lia.
  - done.
Qed.

Lemma stack_aligned app d rest :
  (forall a b, aligned a -> aligned b -> aligned (app a b)) ->
  Forall aligned (d :: rest) -> aligned (stack app d rest).
Proof.
  intros Happ. revert d. induction rest as [|d' rest IH]; intros d Hall; simpl.
  - by apply Forall_cons in Hall as [? _].
  - apply Forall_cons in Hall as [Hd Hall]. apply Happ; [done|by apply IH].
Qed.

Lemma concat_axis0_aligned l out :
  Forall aligned l -> concat_axis0 (Some <$> l) = Ok out -> aligned out.
Proof.
  intros Hall. unfold concat_axis0. rewrite omap_id_Some.
  destruct l as [|d rest]; [done|].
  repeat case_bool_decide; intros [= <-].
  - by apply stack_aligned; [apply append_rows_pos_aligned|].
  - by apply stack_aligned; [apply append_rows_aligned|].
Qed.

Lemma stack_union_labels d rest T lab :
  T ∈ d :: rest -> lab ∈ labels T -> lab ∈ labels (stack append_rows d rest).
Proof.
  revert d. induction rest as [|d' rest IH]; intros d Hin Hlab; simpl.
  - apply list_elem_of_singleton in Hin. by subst.
  - rewrite append_rows_labels.
    apply elem_of_cons in Hin as [->|Hin]; [apply elem_of_app; by left|].
    destruct (decide (lab ∈ labels d)); [apply elem_of_app; by left|].
    apply elem_of_app. right. apply list_elem_of_difference. split; [|done].
    by apply IH.
Qed.

Lemma concat_axis0_labels l out T lab :
  concat_axis0 (Some <$> l) = Ok out -> T ∈ l -> lab ∈ labels T -> lab ∈ labels out.
Proof.
  unfold concat_axis0. rewrite omap_id_Some.
  destruct l as [|d rest]; [done|].
  case_bool_decide as Heq.
  - intros [= <-] Hin Hlab. rewrite stack_pos_labels by done.
    apply elem_of_cons in Hin as [->|Hin]; [done|].
    rewrite Forall_forall in Heq. by rewrite <- (Heq _ Hin).
  - case_bool_decide; [|done]. intros [= <-]. apply stack_union_labels.
Qed.

(** A label of the stack names one column, which holds the cells its
    operands contribute. *)
Lemma cells_or_nan_lookup d lab :
  lab ∈ labels d ->
  exists c, lookup_col (columns d) lab = Some c /\ cells c = cells_or_nan d lab.
Proof.
  intros Hlab. unfold cells_or_nan.
  destruct (lookup_col (columns d) lab) as [c|] eqn:E; [by exists c|].
  by apply lookup_col_None in E.
Qed.

(** *** The Duplicate Resolver keeps frames well formed *)

Lemma annotation_duplicates_keys `{SetOrder} annot sep out k :
  annotation_duplicates annot sep = Ok out -> k ∈ index out -> k ∈ index annot.
Proof.
  intros Hout Hk. destruct (any (duplicated (index annot))) eqn:Hdup.
  - destruct (annotation_duplicates_set_index annot sep out Hdup Hout) as (_ & _ & _ & Hidx).
    rewrite Hidx in Hk. by apply set_list_elem.
  - unfold annotation_duplicates in Hout. rewrite Hdup in Hout. by injection Hout as <-.
Qed.

Lemma annotation_duplicates_wf `{SetOrder} annot sep out :
  wf_frame annot -> annotation_duplicates annot sep = Ok out -> wf_frame out.
Proof.
  intros Hwf Hout. destruct (any (duplicated (index annot))) eqn:Hdup.
  2:{ unfold annotation_duplicates in Hout. rewrite Hdup in Hout. by injection Hout as <-. }
  destruct (annotation_duplicates_set_index annot sep out Hdup Hout) as (l & HF & Hcat & Hidx).
  assert (Hks : Forall (fun k' => k' ∈ index annot) (set_list (index annot))).
  { apply Forall_forall. intros k'. apply set_list_elem. }
  assert (Hlabs : Forall (fun d => labels d = labels annot) l).
  { clear -HF. induction HF as [|k' d ks l Hd _ IH]; constructor; [|done].
    by eapply do_var_labels. }
  assert (Hal : Forall aligned l).
  { clear -HF Hwf Hks. destruct Hwf as [Hnd Hal].
    induction HF as [|k' d ks l Hd _ IH]; [constructor|].
    apply Forall_cons in Hks as [Hk' Hks]. constructor; [|by apply IH].
    unfold aligned. apply Forall_forall. intros [lab' c''] Hin.
    pose proof (do_var_cell_length annot sep k' d lab' (conj Hnd Hal) Hk' Hd) as Hone.
    rewrite (do_var_index _ _ _ _ Hk' Hd). simpl.
    assert (Hndd : NoDup (columns d).*1).
    { change (NoDup (labels d)). by rewrite (do_var_labels _ _ _ _ Hd). }
    unfold cells_or_nan in Hone.
    by rewrite (lookup_col_in_NoDup _ _ _ Hndd Hin) in Hone. }
  split; [|by eapply concat_axis0_aligned].
  destruct l as [|d rest]; [done|].
  destruct (concat_axis0_same_labels (d :: rest) (labels annot)) as (out' & Hout' & Hl');
    [done|done|].
  rewrite Hcat in Hout'. injection Hout' as <-. rewrite Hl'. by destruct Hwf.
Qed.

(** *** What the reader returns is a frame of the sample *)

Lemma raw_ok_spec cols :
  Is_true (raw_ok cols) ->
  NoDup cols.*1 /\
  forall x y, x ∈ cols -> y ∈ cols -> length (cells x.2) = length (cells y.2).
Proof.
  unfold raw_ok. intros [Hnd Hlen]%andb_prop_elim.
  apply bool_decide_unpack in Hnd. split; [done|].
  destruct cols as [|[l0 c0] cols]; [by intros x y ?%elem_of_nil|].
  apply Is_true_true in Hlen. rewrite forallb_forall in Hlen.
  assert (Hall : forall x, x ∈ (l0, c0) :: cols ->
                           length (cells x.2) = length (cells c0)).
  { intros x Hx. apply Nat.eqb_eq. apply Hlen. by apply list_elem_of_In. }
  intros x y Hx Hy. by rewrite (Hall x Hx), (Hall y Hy).
Qed.

Lemma five_columns_Ok l df :
  five_columns l = Ok df ->
  Forall2 (fun r q => r = [q.1.1.1.1; q.1.1.1.2; q.1.1.2; q.1.2; q.2]) l df.
Proof.
  unfold five_columns. destruct (decide (l = [])); [done|].
  intros Hmap%mapR_Ok_Forall2. eapply Forall2_impl; [exact Hmap|].
  intros r q Hr. simpl in Hr.
  destruct r as [|i [|t [|c [|p [|m [|? ?]]]]]]; try done. by injection Hr as <-.
Qed.

Lemma read_TXT_per_annotation_wf fs tsvpath indivID tis annotname na_values T :
  read_TXT_per_annotation fs tsvpath indivID tis annotname na_values = Ok T ->
  wf_frame T /\
  Forall (fun k => individual k = indivID /\ tissue k = tis) (index T).
Proof.
  unfold read_TXT_per_annotation. intros (raw & Hraw & Hrest)%bind_Ok.
  apply bind_Ok in Hrest as (varids & Hvid & Hrest).
  apply bind_Ok in Hrest as (l & Hl & Hrest).
  apply bind_Ok in Hrest as (df & Hdf & Hrest).
  apply bind_Ok in Hrest as (keys & Hkeys & [= <-]).
  destruct (raw_ok_spec _ (raw_wf raw)) as [Hnd Hlen].
  destruct (lookup_col (raw_columns raw) "Variation ID") as [vid|] eqn:Evid; [|done].
  injection Hvid as <-. apply lookup_col_Some_in in Evid.
  apply mapR_Ok_Forall2 in Hl as HlF. apply five_columns_Ok in Hdf as HdfF.
  apply mapR_Ok_Forall2 in Hkeys as HkF.
  assert (Hn : length keys = length (cells vid)).
  { pose proof HlF as H1. pose proof HdfF as H2. pose proof HkF as H3.
    apply Forall2_length in H1, H2, H3. congruence. }
  split; [split|].
  - unfold labels. simpl. rewrite <- list_fmap_compose.
    set (name := default (tsvpath2annotname tsvpath) annotname).
    change ((fun lc : string * column => (name +:+ "_" +:+ lc.1, lc.2)) ∘ _)
      with ((fun lc : string * column => (name +:+ "_" +:+ lc.1, lc.2)) ∘ id).
    assert (Hcomp : forall cols : list (string * column),
      (fst ∘ (fun lc : string * column => (name +:+ "_" +:+ lc.1, lc.2))) <$> cols
      = (fun lab => name +:+ "_" +:+ lab) <$> cols.*1).
    { intros cols. by rewrite <- list_fmap_compose. }
    rewrite Hcomp. apply NoDup_fmap_2.
    + intros x y Hxy. apply (inj (String.append name)) in Hxy.
      by apply (inj (String.append "_")) in Hxy.
    + eapply sublist_NoDup; [exact Hnd|]. apply fmap_sublist, sublist_filter.
  - simpl. apply Forall_fmap, Forall_forall. intros lc Hlc. simpl.
    apply list_elem_of_filter in Hlc as [_ Hlc].
    rewrite Hn. apply (Hlen lc ("Variation ID", vid)); done.
  - simpl. clear Hn Hkeys Hl Hdf. revert df keys HdfF HkF.
    induction HlF as [|v r vs l Hv _ IH]; intros df keys HdfF HkF.
    + apply Forall2_nil_inv_l in HdfF as ->. apply Forall2_nil_inv_l in HkF as ->.
      constructor.
    + apply Forall2_cons_inv_l in HdfF as (q & df' & Hq & HdfF & ->).
      apply Forall2_cons_inv_l in HkF as (k & keys' & Hk & HkF & ->).
      constructor; [|by eapply IH].
      destruct v as [|s| |]; try done. injection Hv as <-.
      destruct q as [[[[i t] c] p] m]. simpl in Hq. injection Hq as <- <- _.
      apply bind_Ok in Hk as (z & _ & [= <-]). done.
Qed.

Lemma get_annot_Some `{SetOrder} fs annotdirpath na_values sample annotyp T :
  get_annot fs annotdirpath na_values sample annotyp = Ok (Some T) ->
  wf_frame T /\ Forall (fun k => key_sample k = sample_key sample) (index T).
Proof.
  unfold get_annot.
  destruct (read_TXT_per_annotation _ _ _ _ _ _) as [T0|e] eqn:Eread; simpl.
  2:{ destruct e; done. }
  destruct (annotation_duplicates T0 ":") as [T'|e] eqn:Edup; [|by destruct e].
  intros [= ->]. destruct (read_TXT_per_annotation_wf _ _ _ _ _ _ _ Eread) as [Hwf Hkeys].
  split; [by eapply annotation_duplicates_wf|].
  apply Forall_forall. intros k Hk.
  apply (annotation_duplicates_keys _ _ _ _ Edup) in Hk.
  rewrite Forall_forall in Hkeys. destruct (Hkeys k Hk) as [Hi Ht].
  unfold key_sample, sample_key. by rewrite Hi, Ht.
Qed.

(** The reading of a pair is skipped exactly when it raises [ValueError]. *)
Lemma get_annot_None `{SetOrder} fs annotdirpath na_values sample annotyp :
  get_annot fs annotdirpath na_values sample annotyp = Ok None <->
  (annot ← read_TXT_per_annotation fs (tsvpath_of annotdirpath sample annotyp)
             (sample2indivID sample) (sample2tissue sample) None
             (default [] (na_values !! annotyp));
   annotation_duplicates annot ":") = Raise ValueError.
Proof.
  unfold get_annot, tsvpath_of.
  destruct (_ ≫= _) as [T|e]; [done|]. by destruct e.
Qed.

(** An absent file is not skipped: [FileNotFoundError] is no [ValueError]. *)
Lemma get_annot_absent `{SetOrder} fs annotdirpath na_values sample annotyp :
  tables fs (tsvpath_of annotdirpath sample annotyp) = None ->
  get_annot fs annotdirpath na_values sample annotyp = Raise FileNotFoundError.
Proof.
  intros Habs. unfold get_annot, read_TXT_per_annotation, read_csv, tsvpath_of in *.
  by rewrite Habs.
Qed.

(** Among the tables of the samples of a manifest without repeated
    (individual, tissue) pair, only the table of a key's own sample holds
    the key. *)
Lemma sample_rows {X} `{SetOrder} fs annotdirpath na_values annotyp
    (f : DataFrame -> list X) (k : VariantKey) samples objs s0 o0 :
  (forall d, k ∉ index d -> f d = []) ->
  Forall2 (fun s o => get_annot fs annotdirpath na_values s annotyp = Ok o) samples objs ->
  NoDup (sample_key <$> samples) ->
  s0 ∈ samples ->
  get_annot fs annotdirpath na_values s0 annotyp = Ok o0 ->
  key_sample k = sample_key s0 ->
  concat (f <$> omap id objs) = match o0 with Some T => f T | None => [] end.
Proof.
  intros Hf HF Hnd Hs0 Ho0 Hk.
  assert (Hother : forall s o, sample_key s <> sample_key s0 ->
            get_annot fs annotdirpath na_values s annotyp = Ok o ->
            match o with Some T => f T | None => [] end = []).
  { intros s [T|] Hne Hs; [|done]. apply Hf. intros Hin.
    destruct (get_annot_Some _ _ _ _ _ _ Hs) as [_ Hkeys].
    rewrite Forall_forall in Hkeys. apply Hne. by rewrite <- (Hkeys k Hin). }
  assert (Hnone : forall ss os,
            Forall2 (fun s o => get_annot fs annotdirpath na_values s annotyp = Ok o) ss os ->
            (forall s, s ∈ ss -> sample_key s <> sample_key s0) ->
            concat (f <$> omap id os) = []).
  { intros ss os HF'. induction HF' as [|s o ss os Hs _ IH]; intros Hss; [done|].
    pose proof (Hother s o (Hss s ltac:(left)) Hs) as Ho.
    destruct o as [T|]; csimpl.
    - rewrite Ho. simpl. apply IH. intros s' Hs'. apply Hss. by right.
    - apply IH. intros s' Hs'. apply Hss. by right. }
  revert Hnd Hs0. induction HF as [|s o ss os Hs HF IH]; intros Hnd Hs0.
  - by apply elem_of_nil in Hs0.
  - csimpl in Hnd. apply NoDup_cons in Hnd as [Hfresh Hnd].
    destruct (decide (s = s0)) as [->|Hne].
    + rewrite Ho0 in Hs. injection Hs as <-.
      assert (Hrest : concat (f <$> omap id os) = []).
      { apply (Hnone ss os HF). intros s' Hs' Heq.
        apply Hfresh. rewrite <- Heq. apply list_elem_of_fmap. by exists s'. }
      destruct o0 as [T|]; csimpl; rewrite Hrest; [by rewrite app_nil_r|done].
    + apply elem_of_cons in Hs0 as [?|Hs0]; [congruence|].
      assert (Hkey : sample_key s <> sample_key s0).
      { intros Heq. apply Hfresh. rewrite Heq. apply list_elem_of_fmap. by exists s0. }
      pose proof (Hother s o Hkey Hs) as Ho.
      specialize (IH Hnd Hs0).
      destruct o as [T|]; csimpl; [by rewrite Ho|done].
Qed.

(** *** The stack of one source *)

Lemma filter_concat {A} (P : A -> Prop) `{forall x, Decision (P x)} (ls : list (list A)) :
  filter P (concat ls) = concat (filter P <$> ls).
Proof. induction ls as [|l ls IH]; csimpl; [done|]. by rewrite filter_app, IH. Qed.

Lemma filter_eq_nil_notin (k : VariantKey) idx :
  k ∉ idx -> filter (fun k' => k' = k) idx = [].
Proof.
  intros Hk. destruct (filter_eq_all k idx) as (n & Hn & _). rewrite Hn.
  destruct n; [done|]. exfalso. apply Hk.
  apply (list_elem_of_filter (fun k' => k' = k) idx k). rewrite Hn. left.
Qed.

Lemma elem_of_filter_eq (k : VariantKey) idx :
  k ∈ idx <-> filter (fun k' => k' = k) idx <> [].
Proof.
  split.
  - intros Hk Hnil. assert (Hin : k ∈ filter (fun k' => k' = k) idx)
      by by apply list_elem_of_filter.
    rewrite Hnil in Hin. by apply elem_of_nil in Hin.
  - intros Hne. destruct (decide (k ∈ idx)); [done|].
    by rewrite filter_eq_nil_notin in Hne.
Qed.

Lemma do_annotyp_tables `{SetOrder} fs annotdirpath na_values samples annotyp D :
  do_annotyp fs annotdirpath na_values samples annotyp = Ok D ->
  exists objs,
    Forall2 (fun s o => get_annot fs annotdirpath na_values s annotyp = Ok o) samples objs /\
    concat_axis0 (Some <$> omap id objs) = Ok D /\
    Forall wf_frame (omap id objs).
Proof.
  unfold do_annotyp. intros (objs & Hobjs & Hcat)%bind_Ok.
  apply mapR_Ok_Forall2 in Hobjs. exists objs. split; [done|]. split.
  { unfold concat_axis0 in *. by rewrite omap_id_Some. }
  clear Hcat. induction Hobjs as [|s o ss os Hs _ IH]; [constructor|].
  destruct o as [T|]; csimpl; [|done]. constructor; [|done].
  by destruct (get_annot_Some _ _ _ _ _ _ Hs).
Qed.

(** What the stack of a source holds at a key of the sample [s0]: what the
    table of [s0] holds there, and nothing when the pair was skipped. *)
Lemma do_annotyp_sample `{SetOrder} fs annotdirpath na_values samples annotyp D s0 o0 k :
  do_annotyp fs annotdirpath na_values samples annotyp = Ok D ->
  NoDup (sample_key <$> samples) ->
  s0 ∈ samples ->
  get_annot fs annotdirpath na_values s0 annotyp = Ok o0 ->
  key_sample k = sample_key s0 ->
  aligned D /\
  (k ∈ index D <-> exists T, o0 = Some T /\ k ∈ index T) /\
  (forall lab, rows_where k (index D) (cells_or_nan D lab) =
               match o0 with
               | Some T => rows_where k (index T) (cells_or_nan T lab)
               | None => []
               end) /\
  (forall T lab, o0 = Some T -> lab ∈ labels T -> lab ∈ labels D).
Proof.
  intros HD Hnd Hs0 Ho0 Hk.
  destruct (do_annotyp_tables _ _ _ _ _ _ HD) as (objs & HF & Hcat & Hwf).
  assert (Hal : Forall aligned (omap id objs)).
  { eapply Forall_impl; [exact Hwf|]. by intros d [_ ?]. }
  split; [by eapply concat_axis0_aligned|]. split; [|split].
  - destruct (concat_axis0_cells _ _ "" Hcat) as [Hidx _].
    rewrite elem_of_filter_eq, Hidx, filter_concat, <- list_fmap_compose.
    rewrite (sample_rows fs annotdirpath na_values annotyp
               (filter (fun k' => k' = k) ∘ index) k samples objs s0 o0);
      try done.
    + destruct o0 as [T|].
      * unfold compose. rewrite <- elem_of_filter_eq.
        split; [by exists T|]. by intros (? & [= <-] & ?).
      * split; [done|]. by intros (? & ? & _).
    + intros d Hd. simpl. by apply filter_eq_nil_notin.
  - intros lab. rewrite (concat_axis0_rows_where _ _ k lab Hal Hcat).
    apply (sample_rows fs annotdirpath na_values annotyp
             (fun d => rows_where k (index d) (cells_or_nan d lab)) k samples objs s0 o0);
      try done.
    intros d Hd. by apply rows_where_absent.
  - intros T lab -> Hlab. apply (concat_axis0_labels _ _ T lab Hcat); [|done].
    clear -HF Hs0 Ho0. induction HF as [|s o ss os Hs _ IH]; [by apply elem_of_nil in Hs0|].
    apply elem_of_cons in Hs0 as [->|Hs0].
    + rewrite Ho0 in Hs. injection Hs as <-. csimpl. left.
    + destruct o; csimpl; [right|]; by apply IH.
Qed.

(** *** Side by side: [pd.concat] along the columns *)

Lemma union_index_elem (l : list (list VariantKey)) k : forall acc,
  k ∈ foldl (fun acc idx => acc ++ list_difference idx acc) acc l <->
  k ∈ acc \/ exists idx, idx ∈ l /\ k ∈ idx.
Proof.
  induction l as [|idx l IH]; intros acc; simpl.
  - split; [by left|]. intros [?|(? & ?%elem_of_nil & _)]; done.
  - rewrite IH, elem_of_app, list_elem_of_difference. split.
    + intros [[?|[? _]]|(idx' & ? & ?)]; [by left| |].
      * right. exists idx. split; [left|done].
      * right. exists idx'. split; [by right|done].
    + intros [?|(idx' & [->|?]%elem_of_cons & ?)]; [by left; left| |].
      * destruct (decide (k ∈ acc)); [by left; left|]. left. by right.
      * right. by exists idx'.
Qed.

Lemma rows_where_fmap_head {A} (f : VariantKey -> A) k idx :
  k ∈ idx -> head (rows_where k idx (f <$> idx)) = Some (f k).
Proof.
  unfold rows_where. induction idx as [|k' idx IH]; intros Hk.
  - by apply elem_of_nil in Hk.
  - csimpl. rewrite filter_cons. simpl. destruct (decide (k' = k)) as [->|Hne]; [done|].
    apply IH. apply elem_of_cons in Hk as [?|?]; [congruence|done].
Qed.

Lemma value_at_reindex_col old idx c k :
  k ∈ idx -> value_at idx (reindex_col old idx c) k = value_at old c k.
Proof.
  intros Hk. unfold value_at at 1. simpl. by rewrite rows_where_fmap_head.
Qed.

(** The columns of the result are the columns of the operands, operand after
    operand, each realigned to the index of the result; realigning does not
    change what a column holds at a key. *)
Lemma concat_axis1_spec Ds U :
  concat_axis1 Ds = Ok U ->
  (forall D k, D ∈ Ds -> k ∈ index D -> k ∈ index U) /\
  exists g : DataFrame -> column -> column,
    columns U = concat ((fun D => (fun lc => (lc.1, g D lc.2)) <$> columns D) <$> Ds) /\
    forall D c k, D ∈ Ds -> k ∈ index U ->
      value_at (index U) (g D c) k = value_at (index D) c k.
Proof.
  unfold concat_axis1. destruct Ds as [|D0 rest]; [done|].
  destruct (decide _) as [Hsame|Hdiff].
  - intros [= <-]. rewrite Forall_forall in Hsame.
    assert (Hidx : forall D, D ∈ D0 :: rest -> index D = index D0).
    { intros D [->|Hin]%elem_of_cons; [done|by apply Hsame]. }
    assert (Hid : forall cols : list (string * column),
              (fun lc : string * column => (lc.1, lc.2)) <$> cols = cols).
    { induction cols as [|[? ?] ? IH]; csimpl; [done|]. by rewrite IH. }
    split.
    { intros D k HD Hk. cbn [index]. by rewrite <- (Hidx D HD). }
    exists (fun _ c => c). split.
    + csimpl. rewrite Hid. f_equal. clear -Hid.
      induction rest as [|D rest IH]; csimpl; [done|]. by rewrite Hid, IH.
    + intros D c k HD _. cbn [index]. by rewrite (Hidx D HD).
  - destruct (decide _) as [Hnd|]; [|done]. intros [= <-]. simpl.
    split.
    { intros D k HD Hk. unfold union_index. apply union_index_elem. right.
      exists (index D). split; [|done]. by apply (list_elem_of_fmap_2 index) in HD. }
    exists (fun D => reindex_col (index D) (union_index (index <$> D0 :: rest))).
    split; [done|]. intros D c k _ Hk. by apply value_at_reindex_col.
Qed.

Lemma concat_axis1_total Ds :
  Ds <> [] -> Forall (fun D => NoDup (index D)) Ds -> exists U, concat_axis1 Ds = Ok U.
Proof.
  intros Hne Hnd. unfold concat_axis1. destruct Ds as [|D0 rest]; [done|].
  destruct (decide _); [by eexists|]. rewrite decide_True by done. by eexists.
Qed.

Lemma concat_axis0_total (l : list DataFrame) :
  l <> [] -> Forall wf_frame l -> exists D, concat_axis0 (Some <$> l) = Ok D.
Proof.
  intros Hne Hwf. unfold concat_axis0. rewrite omap_id_Some.
  destruct l as [|d rest]; [done|].
  case_bool_decide; [by eexists|].
  rewrite bool_decide_eq_true_2; [by eexists|].
  eapply Forall_impl; [exact Hwf|]. by intros ? [? _].
Qed.

(** The keys of the stack of a source are distinct when the samples are. *)
Lemma sample_tables_NoDup `{SetOrder} fs annotdirpath na_values annotyp samples objs :
  Forall2 (fun s o => get_annot fs annotdirpath na_values s annotyp = Ok o) samples objs ->
  NoDup (sample_key <$> samples) ->
  NoDup (concat (index <$> omap id objs)) /\
  forall k, k ∈ concat (index <$> omap id objs) -> key_sample k ∈ sample_key <$> samples.
Proof.
  induction 1 as [|s o ss os Hs _ IH]; intros Hnd; csimpl.
  - split; [constructor|]. by intros k ?%elem_of_nil.
  - csimpl in Hnd. apply NoDup_cons in Hnd as [Hfresh Hnd].
    destruct (IH Hnd) as [IHnd IHkeys]. destruct o as [T|]; csimpl.
    + destruct (get_annot_Some _ _ _ _ _ _ Hs) as [_ Hkeys].
      rewrite Forall_forall in Hkeys. split.
      * apply NoDup_app. split; [|split; [|done]].
        -- unfold get_annot in Hs.
           destruct (read_TXT_per_annotation _ _ _ _ _ _) as [T0|e]; simpl in Hs;
             [|by destruct e].
           destruct (annotation_duplicates T0 ":") as [T'|e] eqn:Edup; [|by destruct e].
           injection Hs as ->. by eapply annotation_duplicates_NoDup.
        -- intros k Hk Hk'. apply Hfresh. rewrite <- (Hkeys k Hk). by apply IHkeys.
      * intros k [Hk|Hk]%elem_of_app; [rewrite (Hkeys k Hk); left|].
        right. by apply IHkeys.
    + split; [done|]. intros k Hk. right. by apply IHkeys.
Qed.

(** *** The join *)

Lemma do_annotyp_total `{SetOrder} fs annotdirpath na_values samples annotyp :
  NoDup (sample_key <$> samples) ->
  source_settled fs annotdirpath na_values samples annotyp ->
  exists D, do_annotyp fs annotdirpath na_values samples annotyp = Ok D /\
            NoDup (index D).
Proof.
  intros Hnd [Hall Hsome].
  destruct (mapR_total (fun s => get_annot fs annotdirpath na_values s annotyp) samples Hall)
    as [objs Hobjs].
  apply mapR_Ok_Forall2 in Hobjs as HF.
  assert (Hwf : Forall wf_frame (omap id objs)).
  { clear -HF. induction HF as [|s o ss os Hs _ IH]; [constructor|].
    destruct o as [T|]; csimpl; [|done]. constructor; [|done].
    by destruct (get_annot_Some _ _ _ _ _ _ Hs). }
  assert (Hne : omap id objs <> []).
  { clear -HF Hsome. induction HF as [|s o ss os Hs _ IH]; [by apply Exists_nil in Hsome|].
    apply Exists_cons in Hsome as [(T & HT)|Hsome].
    - rewrite HT in Hs. by injection Hs as <-.
    - destruct o; csimpl; [done|by apply IH]. }
  destruct (concat_axis0_total _ Hne Hwf) as [D HD].
  assert (HD' : concat_axis0 objs = Ok D).
  { unfold concat_axis0 in *. by rewrite omap_id_Some in HD. }
  exists D. split.
  - unfold do_annotyp. rewrite Hobjs. exact HD'.
  - destruct (concat_axis0_cells _ _ "" HD) as [-> _].
    by destruct (sample_tables_NoDup _ _ _ _ _ _ HF Hnd).
Qed.

Lemma get_multi_annotations_total `{SetOrder} fs annotlist vcflistpath annotdirpath
    na_values samples :
  manifests fs vcflistpath = Some samples ->
  NoDup (sample_key <$> samples) ->
  annotlist <> [] ->
  Forall (source_settled fs annotdirpath na_values samples) annotlist ->
  exists Ds U,
    Forall2 (fun a D => do_annotyp fs annotdirpath na_values samples a = Ok D) annotlist Ds /\
    concat_axis1 Ds = Ok U /\
    get_multi_annotations fs annotlist vcflistpath annotdirpath na_values = Ok U.
Proof.
  intros Hman Hnd Hne Hall.
  destruct (mapR_total (do_annotyp fs annotdirpath na_values samples) annotlist) as [Ds HDs].
  { eapply Forall_impl; [exact Hall|]. intros a Ha.
    destruct (do_annotyp_total _ _ _ _ _ Hnd Ha) as (D & HD & _). by exists D. }
  apply mapR_Ok_Forall2 in HDs as HF.
  destruct (concat_axis1_total Ds) as [U HU].
  { intros ->. apply Forall2_nil_inv_r in HF. done. }
  { clear -HF Hall Hnd. induction HF as [|a D annotlist Ds Ha _ IH]; [constructor|].
    apply Forall_cons in Hall as [Hsettled Hall]. constructor; [|by apply IH].
    destruct (do_annotyp_total _ _ _ _ _ Hnd Hsettled) as (D' & HD' & Hnd').
    rewrite Ha in HD'. by injection HD' as <-. }
  exists Ds, U. split; [done|]. split; [done|].
  unfold get_multi_annotations. rewrite Hman. simpl. rewrite HDs. exact HU.
Qed.

(** The labels of the table of a sample are labels of the stack of its
    source. *)
Lemma do_annotyp_labels `{SetOrder} fs annotdirpath na_values samples annotyp D s T lab :
  do_annotyp fs annotdirpath na_values samples annotyp = Ok D ->
  s ∈ samples ->
  get_annot fs annotdirpath na_values s annotyp = Ok (Some T) ->
  lab ∈ labels T -> lab ∈ labels D.
Proof.
  intros HD Hs HT Hlab.
  destruct (do_annotyp_tables _ _ _ _ _ _ HD) as (objs & HF & Hcat & _).
  apply (concat_axis0_labels _ _ T lab Hcat); [|done].
  clear -HF Hs HT. induction HF as [|s' o ss os Hs' _ IH]; [by apply elem_of_nil in Hs|].
  apply elem_of_cons in Hs as [->|Hs].
  - rewrite HT in Hs'. injection Hs' as <-. csimpl. left.
  - destruct o; csimpl; [right|]; by apply IH.
Qed.

(** C1 (amended).  Take a manifest whose samples have distinct (individual,
    tissue) pairs, and sources each of whose pairs is read or raises
    [ValueError], with at least one table per source.  Then the join
    returns a table.  Its columns are the blocks of the sources, one after
    the other in the order of the list, the block of a source having the
    column labels of the stack [do_annotyp] makes of that source.  If the
    pair of a sample [s0] and a source [a0] is skipped, every key that [s0]
    has in the table of another source [a] is a row of the result; in the
    block of [a] that row holds the values of the table of [s0]; and in the
    block of [a0], which has every column that any sample's table of [a0]
    has, that row holds missing values only. *)
Theorem get_multi_annotations_skips `{SetOrder}
    (fs : filesystem) (annotlist : list string) (vcflistpath annotdirpath : string)
    (na_values : gmap string (list string)) (samples : list string)
    (s0 : string) (j0 : nat) (a0 : string) (j : nat) (a : string)
    (T : DataFrame) (k : VariantKey) :
  manifests fs vcflistpath = Some samples ->
  NoDup (sample_key <$> samples) ->
  Forall (source_settled fs annotdirpath na_values samples) annotlist ->
  s0 ∈ samples ->
  annotlist !! j0 = Some a0 ->
  get_annot fs annotdirpath na_values s0 a0 = Ok None ->
  annotlist !! j = Some a ->
  get_annot fs annotdirpath na_values s0 a = Ok (Some T) ->
  k ∈ index T ->
  exists U Ds blocks,
    get_multi_annotations fs annotlist vcflistpath annotdirpath na_values = Ok U /\
    k ∈ index U /\
    Forall2 (fun a' D => do_annotyp fs annotdirpath na_values samples a' = Ok D)
            annotlist Ds /\
    columns U = concat blocks /\
    Forall2 (fun D blk => blk.*1 = labels D) Ds blocks /\
    (exists blk, blocks !! j = Some blk /\
       forall lab c, lookup_col (columns T) lab = Some c ->
         exists cu, lookup_col blk lab = Some cu /\
                    value_at (index U) cu k = value_at (index T) c k) /\
    (exists blk0, blocks !! j0 = Some blk0 /\
       Forall (fun lc => value_at (index U) lc.2 k = NaN) blk0 /\
       forall s' T' lab, s' ∈ samples ->
         get_annot fs annotdirpath na_values s' a0 = Ok (Some T') ->
         lab ∈ labels T' ->
         exists cu, lookup_col blk0 lab = Some cu /\ value_at (index U) cu k = NaN).
Proof.
  intros Hman Hnd Hall Hs0 Hj0 Hskip Hj Hread Hk.
  destruct (get_multi_annotations_total fs annotlist vcflistpath annotdirpath na_values
              samples Hman Hnd) as (Ds & U & HF & HU & Hres); [|done|].
  { intros ->. done. }
  destruct (concat_axis1_spec Ds U HU) as (Hkeys & g & Hcols & Hg).
  destruct (get_annot_Some _ _ _ _ _ _ Hread) as [_ HkT].
  rewrite Forall_forall in HkT. specialize (HkT k Hk).
  destruct (Forall2_lookup_l _ _ _ _ _ HF Hj) as (D & HDj & HD).
  destruct (Forall2_lookup_l _ _ _ _ _ HF Hj0) as (D0 & HD0j & HD0).
  destruct (do_annotyp_sample _ _ _ _ _ _ s0 (Some T) k HD Hnd Hs0 Hread HkT)
    as (_ & HkD & Hrows & Hlabs).
  destruct (do_annotyp_sample _ _ _ _ _ _ s0 None k HD0 Hnd Hs0 Hskip HkT)
    as (_ & HkD0 & _ & _).
  assert (HkU : k ∈ index U).
  { apply (Hkeys D k); [by eapply list_elem_of_lookup_2|]. apply HkD. by exists T. }
  assert (HkD0' : k ∉ index D0).
  { intros Hin. apply HkD0 in Hin as (? & ? & _). done. }
  exists U, Ds, ((fun D => (fun lc => (lc.1, g D lc.2)) <$> columns D) <$> Ds).
  split; [done|]. split; [done|]. split; [done|]. split; [done|]. split.
  { apply Forall2_fmap_r, Forall_Forall2_diag, Forall_forall. intros D' _.
    unfold compose, labels. by rewrite <- list_fmap_compose. }
  split.
  - eexists. split; [by rewrite list_lookup_fmap, HDj|].
    intros lab c Hc.
    assert (Hlab : lab ∈ labels D).
    { apply (Hlabs T lab); [done|]. apply lookup_col_Some_in in Hc.
      apply list_elem_of_fmap. by exists (lab, c). }
    destruct (cells_or_nan_lookup D lab Hlab) as (cD & HcD & HcellsD).
    exists (g D cD). split.
    { by rewrite (lookup_col_fmap_col (g D)), HcD. }
    rewrite Hg; [|by eapply list_elem_of_lookup_2|done].
    unfold value_at. rewrite HcellsD, Hrows. unfold cells_or_nan. by rewrite Hc.
  - eexists. split; [by rewrite list_lookup_fmap, HD0j|]. split.
    + apply Forall_fmap, Forall_forall. intros [lab c] _. simpl.
      rewrite Hg; [|by eapply list_elem_of_lookup_2|done].
      unfold value_at. by rewrite rows_where_absent.
    + intros s' T' lab Hs' HT' Hlab.
      assert (HlabD : lab ∈ labels D0) by by eapply do_annotyp_labels.
      destruct (cells_or_nan_lookup D0 lab HlabD) as (cD & HcD & _).
      exists (g D0 cD). split.
      { by rewrite (lookup_col_fmap_col (g D0)), HcD. }
      rewrite Hg; [|by eapply list_elem_of_lookup_2|done].
      unfold value_at. by rewrite rows_where_absent.
Qed.

(** The first sample's [cons] file has no row: the pair is skipped, the
    sample's [near_gens] rows are in the result, and the score of the other
    sample's [cons] table is missing on them. *)
Lemma get_multi_annotations_skips_witness :
  exists U Ds blocks,
    @get_multi_annotations dedup_order Examples.malformed_fs ["near_gens"; "cons"]
      "/calls/filtered-vcfs.tsv" "/annot" ∅ = Ok U /\
    Examples.k1 ∈ index U /\
    Forall2 (fun a' D =>
               @do_annotyp dedup_order Examples.malformed_fs "/annot" ∅
                 ["MSSM_1_muscle"; "PITT_7_NeuN_pl"] a' = Ok D)
            ["near_gens"; "cons"] Ds /\
    columns U = concat blocks /\
    Forall2 (fun D blk => blk.*1 = labels D) Ds blocks /\
    (exists blk, blocks !! 0%nat = Some blk /\
       forall lab c, lookup_col (columns Examples.near_gens_1) lab = Some c ->
         exists cu, lookup_col blk lab = Some cu /\
                    value_at (index U) cu Examples.k1
                    = value_at (index Examples.near_gens_1) c Examples.k1) /\
    (exists blk0, blocks !! 1%nat = Some blk0 /\
       Forall (fun lc => value_at (index U) lc.2 Examples.k1 = NaN) blk0 /\
       forall s' T' lab, s' ∈ ["MSSM_1_muscle"; "PITT_7_NeuN_pl"] ->
         @get_annot dedup_order Examples.malformed_fs "/annot" ∅ s' "cons" = Ok (Some T') ->
         lab ∈ labels T' ->
         exists cu, lookup_col blk0 lab = Some cu /\
                    value_at (index U) cu Examples.k1 = NaN).
Proof.
  apply (@get_multi_annotations_skips dedup_order Examples.malformed_fs
           ["near_gens"; "cons"] "/calls/filtered-vcfs.tsv" "/annot" ∅
           ["MSSM_1_muscle"; "PITT_7_NeuN_pl"] "MSSM_1_muscle" 1 "cons" 0 "near_gens"
           Examples.near_gens_1 Examples.k1).
  - reflexivity.
  - compute_done.
  - apply Forall_cons. split; [|apply Forall_cons; split; [|constructor]].
    + split.
      * repeat (apply Forall_cons; split; [eexists; vm_compute; reflexivity|]).
        constructor.
      * apply Exists_cons_hd. eexists. vm_compute. reflexivity.
    + split.
      * repeat (apply Forall_cons; split; [eexists; vm_compute; reflexivity|]).
        constructor.
      * apply Exists_cons_tl, Exists_cons_hd. eexists. vm_compute. reflexivity.
  - left.
  - reflexivity.
  - vm_compute. reflexivity.
  - reflexivity.
  - vm_compute. reflexivity.
  - left.
Defined.

(** The join of the example, in full: the skipped pair leaves the score
    missing on the rows of the first sample. *)
Example get_multi_annotations_malformed :
  @get_multi_annotations dedup_order Examples.malformed_fs ["near_gens"; "cons"]
    "/calls/filtered-vcfs.tsv" "/annot" ∅
  = Ok {| index := [Examples.k1; Examples.k2;
                    Build_VariantKey "CMC_PITT_7" "NeuN_pl" "1" 100%Z "A/G";
                    Build_VariantKey "CMC_PITT_7" "NeuN_pl" "2" 200%Z "C/T";
                    Examples.k3];
          columns :=
            [("near_gens_Overlapped Gene",
              {| dt := object; cells := [Str "g1"; Str "g2"; Str "g1"; Str "g2"; NaN] |});
             ("cons_Score",
              {| dt := float64; cells := [NaN; NaN; NaN; NaN; Num 5] |})] |}.
Proof. vm_compute. reflexivity. Qed.

(** C1 as stated fails for an absent file: [FileNotFoundError] is not a
    [ValueError], and the whole join is aborted although the sample has a
    table from the other source. *)
Lemma get_multi_annotations_absent_file :
  tables Examples.absent_fs (tsvpath_of "/annot" "MSSM_1_muscle" "cons") = None /\
  @get_annot dedup_order Examples.absent_fs "/annot" ∅ "MSSM_1_muscle" "near_gens"
    = Ok (Some Examples.near_gens_1) /\
  @get_multi_annotations dedup_order Examples.absent_fs ["near_gens"; "cons"]
    "/calls/filtered-vcfs.tsv" "/annot" ∅ = Raise FileNotFoundError.
Proof. split; [reflexivity|]. split; vm_compute; reflexivity. Qed.

(** An absent file of a listed pair aborts the join, whatever the other
    files hold. *)
Lemma get_multi_annotations_absent `{SetOrder} fs annotlist vcflistpath annotdirpath
    na_values samples s a :
  manifests fs vcflistpath = Some samples ->
  s ∈ samples -> a ∈ annotlist ->
  tables fs (tsvpath_of annotdirpath s a) = None ->
  forall U, get_multi_annotations fs annotlist vcflistpath annotdirpath na_values <> Ok U.
Proof.
  intros Hman Hs Ha Habs U HU. unfold get_multi_annotations in HU.
  rewrite Hman in HU. simpl in HU. apply bind_Ok in HU as (Ds & HDs & _).
  apply mapR_Ok_Forall2 in HDs.
  apply list_elem_of_lookup_1 in Ha as [j Hj].
  destruct (Forall2_lookup_l _ _ _ _ _ HDs Hj) as (D & _ & HD).
  destruct (do_annotyp_tables _ _ _ _ _ _ HD) as (objs & HF & _).
  apply list_elem_of_lookup_1 in Hs as [i Hi].
  destruct (Forall2_lookup_l _ _ _ _ _ HF Hi) as (o & _ & Ho).
  by rewrite get_annot_absent in Ho.
Qed.

(** A source all of whose pairs are skipped aborts the join too: [pd.concat]
    has nothing to stack and raises a [ValueError] that nothing catches. *)
Example get_multi_annotations_all_skipped :
  @get_annot dedup_order Examples.lone_fs "/annot" ∅ "MSSM_1_muscle" "cons" = Ok None /\
  @get_multi_annotations dedup_order Examples.lone_fs ["near_gens"; "cons"]
    "/calls/filtered-vcfs.tsv" "/annot" ∅ = Raise ValueError.
Proof. split; vm_compute; reflexivity. Qed.

(** * Further properties of the code *)

(** ** Duplicate Resolver: the paths of [annotation_duplicates] *)

(** X1.  An index without repeated key takes the early return: the table comes
    back as it is, missing values in object columns included. *)
Theorem annotation_duplicates_no_duplicates `{SetOrder} (annot : DataFrame) (sep : string) :
  NoDup (index annot) -> annotation_duplicates annot sep = Ok annot.
Proof.
  intros Hnd. apply any_duplicated in Hnd.
  unfold annotation_duplicates. by rewrite Hnd.
Qed.

Lemma annotation_duplicates_no_duplicates_witness :
  NoDup (index Examples.categ) /\
  @annotation_duplicates dedup_order Examples.categ ":" = Ok Examples.categ.
Proof.
  assert (Hnd : NoDup (index Examples.categ)) by compute_done.
  split; [exact Hnd|].
  exact (@annotation_duplicates_no_duplicates dedup_order Examples.categ ":" Hnd).
Defined.

(** X2.  The resolver keeps the set of keys: the index it returns lists every key
    of the input once. *)
Theorem annotation_duplicates_distinct_keys `{SetOrder}
    (annot : DataFrame) (sep : string) (out : DataFrame) :
  annotation_duplicates annot sep = Ok out ->
  index out ≡ₚ remove_dups (index annot) /\
  length (index out) <= length (index annot).
Proof.
  intros Hout.
  assert (Hperm : index out ≡ₚ remove_dups (index annot)).
  { destruct (any (duplicated (index annot))) eqn:Hdup.
    - destruct (annotation_duplicates_set_index annot sep out Hdup Hout) as (_ & _ & _ & ->).
      apply set_list_perm.
    - unfold annotation_duplicates in Hout. rewrite Hdup in Hout. injection Hout as <-.
      apply any_duplicated in Hdup. apply NoDup_Permutation; [done|apply NoDup_remove_dups|].
      intros k. by rewrite elem_of_remove_dups. }
  split; [done|]. apply submseteq_length, NoDup_submseteq.
  - by eapply annotation_duplicates_NoDup.
  - intros k. by eapply annotation_duplicates_keys.
Qed.

Lemma annotation_duplicates_distinct_keys_witness :
  exists out,
    @annotation_duplicates dedup_order Examples.genes ":" = Ok out /\
    index out ≡ₚ remove_dups (index Examples.genes) /\
    length (index out) <= length (index Examples.genes).
Proof.
  eexists. split; [vm_compute; reflexivity|].
  apply (@annotation_duplicates_distinct_keys dedup_order Examples.genes ":").
  vm_compute. reflexivity.
Defined.

(** The row the resolver returns for a key, in a table with a repeated key:
    the one-row frame [do_var] makes for it. *)
Lemma annotation_duplicates_row `{SetOrder} annot sep out k lab c :
  wf_frame annot ->
  any (duplicated (index annot)) = true ->
  annotation_duplicates annot sep = Ok out ->
  k ∈ index annot ->
  lookup_col (columns annot) lab = Some c ->
  exists c' d,
    lookup_col (columns out) lab = Some c' /\
    do_var annot sep k = Ok d /\
    rows_where k (index out) (cells c') = cells_or_nan d lab.
Proof.
  intros Hwf Hdup Hout Hk Hc. pose proof Hwf as [Hnd Hal].
  destruct (annotation_duplicates_set_index annot sep out Hdup Hout)
    as (l & HF & Hcat & Hidx).
  assert (Hks : Forall (fun k' => k' ∈ index annot) (set_list (index annot))).
  { apply Forall_forall. intros k'. apply set_list_elem. }
  assert (Hlabs : Forall (fun d => labels d = labels annot) l).
  { clear -HF. induction HF as [|k' d ks l Hd _ IH]; constructor; [|done].
    by eapply do_var_labels. }
  assert (Hall : Forall aligned l).
  { clear -HF Hnd Hal Hks.
    induction HF as [|k' d ks l Hd _ IH]; [constructor|].
    apply Forall_cons in Hks as [Hk' Hks]. constructor; [|by apply IH].
    unfold aligned. apply Forall_forall. intros [lab' c''] Hin.
    pose proof (do_var_cell_length annot sep k' d lab' (conj Hnd Hal) Hk' Hd) as Hone.
    rewrite (do_var_index _ _ _ _ Hk' Hd). simpl.
    assert (Hndd : NoDup (columns d).*1).
    { change (NoDup (labels d)). by rewrite (do_var_labels _ _ _ _ Hd). }
    unfold cells_or_nan in Hone.
    by rewrite (lookup_col_in_NoDup _ _ _ Hndd Hin) in Hone. }
  assert (Hlab : lab ∈ labels out).
  { destruct l as [|d0 rest].
    { apply Forall2_nil_inv_r in HF.
      assert (Hin : k ∈ set_list (index annot)) by by apply set_list_elem.
      rewrite HF in Hin. by apply elem_of_nil in Hin. }
    destruct (concat_axis0_same_labels (d0 :: rest) (labels annot)) as (out' & Hout' & Hl');
      [done|done|].
    rewrite Hcat in Hout'. injection Hout' as <-. rewrite Hl'.
    apply lookup_col_Some_in in Hc. apply list_elem_of_fmap. by exists (lab, c). }
  destruct (cells_or_nan_lookup out lab Hlab) as (c' & Hc' & Hcells).
  destruct (concat_rows_one (fun k' d => k' ∈ index annot /\ do_var annot sep k' = Ok d)
              lab k (set_list (index annot)) l) as (d & [_ Hd] & Hrow).
  { clear -HF Hks. induction HF as [|k' d ks l Hd _ IH]; [constructor|].
    apply Forall_cons in Hks as [Hk' Hks]. constructor; auto. }
  { intros k' d [Hk' Hd]. split; [by eapply do_var_index|by eapply do_var_cell_length]. }
  { apply set_list_NoDup. }
  { by apply set_list_elem. }
  exists c', d. split; [done|]. split; [done|].
  by rewrite Hcells, (concat_axis0_rows_where l out k lab Hall Hcat).
Qed.

(** X3.  A key on a single row keeps its row, whatever is collapsed around it. *)
Theorem annotation_duplicates_single_row `{SetOrder}
    (annot : DataFrame) (sep : string) (out : DataFrame) (k : VariantKey)
    (lab : string) (c : column) :
  wf_frame annot ->
  annotation_duplicates annot sep = Ok out ->
  length (filter (fun k' => k' = k) (index annot)) = 1%nat ->
  lookup_col (columns annot) lab = Some c ->
  exists c' v,
    lookup_col (columns out) lab = Some c' /\
    rows_where k (index annot) (cells c) = [v] /\
    rows_where k (index out) (cells c') = [v].
Proof.
  intros Hwf Hout Hone Hc. pose proof Hwf as [Hnd Hal].
  assert (Hlen : length (rows_where k (index annot) (cells c)) = 1%nat).
  { rewrite rows_where_length; [done|]. unfold aligned in Hal.
    rewrite Forall_forall in Hal. apply (Hal (lab, c)). by apply lookup_col_Some_in. }
  destruct (rows_where k (index annot) (cells c)) as [|v [|? ?]] eqn:Hrows; try done.
  destruct (any (duplicated (index annot))) eqn:Hdup.
  - assert (Hk : k ∈ index annot).
    { apply elem_of_filter_eq. intros Hnil. by rewrite Hnil in Hone. }
    destruct (annotation_duplicates_row annot sep out k lab c Hwf Hdup Hout Hk Hc)
      as (c' & d & Hc' & Hd & Hrow).
    destruct (do_var_cell annot sep k d lab c Hnd Hd Hc) as (cd & Hcd & Hval).
    simpl in Hval. rewrite decide_True in Hval by done. subst cd.
    exists c', v. split; [done|]. split; [done|].
    rewrite Hrow. unfold cells_or_nan. by rewrite Hcd.
  - unfold annotation_duplicates in Hout. rewrite Hdup in Hout. injection Hout as <-.
    exists c, v. by rewrite Hrows.
Qed.

Lemma annotation_duplicates_single_row_witness :
  exists out c' v,
    @annotation_duplicates dedup_order Examples.genes ":" = Ok out /\
    lookup_col (columns out) "near_gens_Overlapped Gene" = Some c' /\
    rows_where Examples.k2 (index Examples.genes) [Str "g1"; Str "g2"; Str "g3"] = [v] /\
    rows_where Examples.k2 (index out) (cells c') = [v].
Proof.
  exists {| index := [Examples.k2; Examples.k1];
            columns :=
              [("near_gens_Overlapped Gene",
                {| dt := object; cells := [Str "g2"; Str "g1:g3"] |});
               ("near_gens_Distance", {| dt := int64; cells := [Num 6; Num 5] |})] |}.
  destruct (@annotation_duplicates_single_row dedup_order Examples.genes ":"
              {| index := [Examples.k2; Examples.k1];
                 columns :=
                   [("near_gens_Overlapped Gene",
                     {| dt := object; cells := [Str "g2"; Str "g1:g3"] |});
                    ("near_gens_Distance", {| dt := int64; cells := [Num 6; Num 5] |})] |}
              Examples.k2
              "near_gens_Overlapped Gene"
              {| dt := object; cells := [Str "g1"; Str "g2"; Str "g3"] |})
    as (c' & v & H1 & H2 & H3);
    [compute_done|vm_compute; reflexivity|reflexivity|reflexivity|].
  exists c', v. split; [reflexivity|]. split; [exact H1|]. split; [exact H2|exact H3].
Defined.

Lemma mapR_raise_only {A B} (f : A -> result B) (e : exn) (l : list A) :
  Forall (fun x => (exists y, f x = Ok y) \/ f x = Raise e) l ->
  (exists l', mapR f l = Ok l') \/ mapR f l = Raise e.
Proof.
  induction 1 as [|x l Hx _ IH]; simpl; [left; by eexists|].
  destruct Hx as [[y ->]| ->]; simpl; [|by right].
  destruct IH as [[l' ->]| ->]; simpl; [left; by eexists|by right].
Qed.

Lemma mapR_not_Ok {A B} (f : A -> result B) (l : list A) x e :
  x ∈ l -> f x = Raise e -> forall l', mapR f l <> Ok l'.
Proof.
  intros Hx Hfx l' Hmap%mapR_Ok_Forall2.
  apply list_elem_of_lookup_1 in Hx as [i Hi].
  destruct (Forall2_lookup_l _ _ _ _ _ Hmap Hi) as (y & _ & Hy). congruence.
Qed.

Lemma str_join_only_TypeError sep l :
  (exists s, str_join sep l = Ok s) \/ str_join sep l = Raise TypeError.
Proof.
  induction l as [|v l IH]; [left; by eexists|].
  destruct v as [|s| |]; try by right.
  destruct l as [|v' l]; [left; by eexists|].
  change (str_join sep (Str s :: v' :: l))
    with (r ← str_join sep (v' :: l); Ok (s +:+ sep +:+ r)).
  destruct IH as [[r ->]| ->]; [left; by eexists|by right].
Qed.

Lemma do_var_only_TypeError annot sep k :
  NoDup (labels annot) ->
  (exists d, do_var annot sep k = Ok d) \/ do_var annot sep k = Raise TypeError.
Proof.
  intros Hnd. rewrite do_var_closed by done. simpl.
  destruct (decide _); [left; by eexists|].
  destruct (mapR_raise_only
    (fun lc : string * column => c' ← collapse_col sep lc.2; Ok (lc.1, c')) TypeError
    (columns (loc annot k))) as [[cols Hcols]|Hcols].
  - apply Forall_forall. intros [lab c] _. simpl. unfold collapse_col.
    destruct (decide _); [|left; by eexists].
    destruct (str_join_only_TypeError sep (cells c)) as [[s ->]| ->];
      [left; by eexists|by right].
  - left. change (exists d,
      (cols' ← mapR (fun lc => c' ← collapse_col sep lc.2; Ok (lc.1, c'))
                    (columns (loc annot k));
       Ok {| index := take 1 (index (loc annot k)); columns := cols' |}) = Ok d).
    rewrite Hcols. by eexists.
  - right. change (
      (cols' ← mapR (fun lc => c' ← collapse_col sep lc.2; Ok (lc.1, c'))
                    (columns (loc annot k));
       Ok {| index := take 1 (index (loc annot k)); columns := cols' |}) = Raise TypeError).
    by rewrite Hcols.
Qed.

Lemma annotation_duplicates_total `{SetOrder} annot sep :
  wf_frame annot -> text_at_duplicates annot ->
  exists out, annotation_duplicates annot sep = Ok out.
Proof.
  intros Hwf Htext. unfold annotation_duplicates.
  destruct (any (duplicated (index annot))) eqn:Hdup; simpl; [|by eexists].
  destruct (mapR_total (do_var annot sep) (set_list (index annot))) as [l Hl].
  { apply Forall_forall. intros k' _. by apply do_var_total. }
  rewrite Hl. simpl. apply mapR_Ok_Forall2 in Hl as HF.
  destruct (concat_axis0_same_labels l (labels annot)) as (out & Hout & _).
  - intros ->. apply Forall2_nil_inv_r in HF.
    destruct (index annot) as [|k0 idx] eqn:Eidx; [done|].
    assert (Hin : k0 ∈ set_list (k0 :: idx)) by (apply set_list_elem; left).
    rewrite HF in Hin. by apply elem_of_nil in Hin.
  - clear -HF. induction HF as [|k' d ks l Hd _ IH]; constructor; [|done].
    by eapply do_var_labels.
  - by exists out.
Qed.

(** X4.  The resolver of a well-formed table returns exactly when the object
    columns hold text on the rows of repeated keys; otherwise [sep.join]
    meets a value that is no string and the call ends in [TypeError]. *)
Theorem annotation_duplicates_returns_or_TypeError `{SetOrder}
    (annot : DataFrame) (sep : string) :
  wf_frame annot ->
  if decide (text_at_duplicates annot)
  then exists out, annotation_duplicates annot sep = Ok out
  else annotation_duplicates annot sep = Raise TypeError.
Proof.
  intros Hwf. destruct (decide _) as [Htext|Hbad].
  { by apply annotation_duplicates_total. }
  pose proof Hwf as [Hnd Hal].
  unfold text_at_duplicates in Hbad.
  apply not_Forall_Exists in Hbad; [|apply _].
  apply Exists_exists in Hbad as ([lab c] & Hin & Hcol). simpl in Hcol.
  destruct (decide (dt c = object)) as [Hobj|Hobj]; [|by destruct Hcol].
  assert (Hcells : ~ Forall (fun kv : VariantKey * cell =>
             length (filter (fun k' => k' = kv.1) (index annot)) = 1%nat \/
             is_text kv.2 = true) (zip (index annot) (cells c))).
  { intros HF. by apply Hcol. }
  apply not_Forall_Exists in Hcells; [|apply _].
  apply Exists_exists in Hcells as ([k v] & Hkv & Hnot). simpl in Hnot.
  assert (Hmany : length (filter (fun k' => k' = k) (index annot)) <> 1%nat) by tauto.
  assert (Hv : is_text v <> true) by tauto.
  assert (Hk : k ∈ index annot) by by eapply elem_of_zip_l.
  assert (Hdup : any (duplicated (index annot)) = true).
  { apply (repeated_key_duplicated k).
    destruct (filter_eq_all k (index annot)) as (n & Hn & Hpos).
    specialize (Hpos Hk). rewrite Hn, length_replicate in Hmany |- *. lia. }
  assert (Hdo : do_var annot sep k = Raise TypeError).
  { destruct (do_var_only_TypeError annot sep k Hnd) as [[d Hd]|?]; [|done].
    exfalso. apply lookup_col_in_NoDup in Hin as Hc; [|done].
    destruct (do_var_cell annot sep k d lab c Hnd Hd Hc) as (cd & _ & Hval).
    simpl in Hval. rewrite decide_False in Hval by done.
    unfold collapse_col in Hval. simpl in Hval. rewrite decide_True in Hval by done.
    apply bind_Ok in Hval as (s & Hs & _). apply str_join_Ok_text in Hs.
    rewrite Forall_forall in Hs. apply Hv, Hs.
    unfold rows_where. apply list_elem_of_fmap. exists (k, v). split; [done|].
    by apply list_elem_of_filter. }
  unfold annotation_duplicates. rewrite Hdup. simpl.
  destruct (mapR_raise_only (do_var annot sep) TypeError (set_list (index annot)))
    as [[l Hl]| ->]; [| |done].
  - apply Forall_forall. intros k' _. by apply do_var_only_TypeError.
  - exfalso. apply (mapR_not_Ok (do_var annot sep) _ k TypeError) in Hl; [done| |done].
    by apply set_list_elem.
Qed.

Lemma annotation_duplicates_returns_or_TypeError_witness :
  (exists out, @annotation_duplicates dedup_order Examples.genes ":" = Ok out) /\
  @annotation_duplicates dedup_order Examples.genes_na ":" = Raise TypeError.
Proof.
  split.
  - apply (@annotation_duplicates_returns_or_TypeError dedup_order Examples.genes ":").
    compute_done.
  - apply (@annotation_duplicates_returns_or_TypeError dedup_order Examples.genes_na ":").
    compute_done.
Defined.

(** ** Binarizer: column order, kept values and errors *)

Lemma with_indicators_cons c columns cols2insert suffix :
  with_indicators (c :: columns) cols2insert suffix =
  (if bool_decide (c ∈ cols2insert) then [c; c +:+ suffix] else [c])
  ++ with_indicators columns cols2insert suffix.
Proof. done. Qed.

Lemma with_indicators_elem columns cols2insert suffix lab :
  lab ∈ with_indicators columns cols2insert suffix <->
  lab ∈ columns \/ exists c, c ∈ columns /\ c ∈ cols2insert /\ lab = c +:+ suffix.
Proof.
  induction columns as [|c0 columns IH].
  - split; [by intros ?%elem_of_nil|].
    intros [?%elem_of_nil|(c & ?%elem_of_nil & _)]; done.
  - rewrite with_indicators_cons, elem_of_app, IH. split.
    + intros [Hhd|[Hlab|(c & Hc & Hsel & ->)]].
      * case_bool_decide.
        -- apply elem_of_cons in Hhd as [->|Hhd]; [left; left|].
           apply elem_of_cons in Hhd as [->|?%elem_of_nil]; [|done].
           right. exists c0. split; [left|done].
        -- apply elem_of_cons in Hhd as [->|?%elem_of_nil]; [|done]. left; left.
      * left. by right.
      * right. exists c. split; [by right|done].
    + intros [[->|Hlab]%elem_of_cons|(c & [->|Hc]%elem_of_cons & Hsel & ->)].
      * left. case_bool_decide; left.
      * right. by left.
      * left. rewrite bool_decide_eq_true_2 by done. right; left.
      * right. right. by exists c.
Qed.

(** X5.  The extended column order keeps the given columns in their order, has
    one more label for every selected column it meets, and puts the label of
    the indicator right behind its column. *)
Theorem extended_columns_inserts (columns cols2insert : list string) (suffix : string)
    (E : list string) :
  extended_columns columns cols2insert suffix = Ok E ->
  columns `sublist_of` E /\
  length E = (length columns + length (filter (fun c => c ∈ cols2insert) columns))%nat /\
  (forall c, c ∈ columns -> c ∈ cols2insert ->
     exists pre post, E = pre ++ c :: (c +:+ suffix) :: post) /\
  (forall lab, lab ∈ E <->
     lab ∈ columns \/ exists c, c ∈ columns /\ c ∈ cols2insert /\ lab = c +:+ suffix).
Proof.
  intros HE.
  assert (Hne : columns <> []).
  { intros ->. discriminate. }
  rewrite extended_columns_Ok in HE by done. injection HE as <-. clear Hne.
  split; [|split; [|split]].
  - induction columns as [|c columns IH]; [done|].
    rewrite with_indicators_cons. case_bool_decide; simpl.
    + apply sublist_skip. by apply sublist_cons.
    + by apply sublist_skip.
  - induction columns as [|c columns IH]; [done|].
    rewrite with_indicators_cons, length_app, IH, filter_cons.
    case_bool_decide; destruct (decide (c ∈ cols2insert)); simpl; try done; lia.
  - induction columns as [|c0 columns IH]; intros c Hc Hsel; [by apply elem_of_nil in Hc|].
    rewrite with_indicators_cons.
    destruct (decide (c0 = c)) as [->|Hne].
    + rewrite bool_decide_eq_true_2 by done. by exists [], (with_indicators columns cols2insert suffix).
    + apply elem_of_cons in Hc as [?|Hc]; [congruence|].
      destruct (IH c Hc Hsel) as (pre & post & ->).
      eexists (_ ++ pre), post. by rewrite app_assoc.
  - apply with_indicators_elem.
Qed.

Lemma extended_columns_inserts_witness :
  ["a"; "b"] `sublist_of` ["a"; "a_bin"; "b"] /\
  length ["a"; "a_bin"; "b"]
    = (length ["a"; "b"] + length (filter (fun c => c ∈ ["a"]) ["a"; "b"]))%nat /\
  (forall c, c ∈ ["a"; "b"] -> c ∈ ["a"] ->
     exists pre post, ["a"; "a_bin"; "b"] = pre ++ c :: (c +:+ "_bin") :: post) /\
  (forall lab, lab ∈ ["a"; "a_bin"; "b"] <->
     lab ∈ ["a"; "b"] \/ exists c, c ∈ ["a"; "b"] /\ c ∈ ["a"] /\ lab = c +:+ "_bin").
Proof.
  apply (extended_columns_inserts ["a"; "b"] ["a"] "_bin" ["a"; "a_bin"; "b"]).
  reflexivity.
Defined.

Lemma do_col_fold_raise suffix do_categ e : forall cols val,
  foldR (do_col suffix do_categ) val cols = Raise e -> e = KeyError.
Proof.
  induction cols as [|c0 cols IH]; intros val; simpl; [done|].
  destruct (do_col suffix do_categ val c0) as [val'|e'] eqn:Estep; simpl.
  - apply IH.
  - intros [= <-]. unfold do_col, getitem in Estep.
    destruct (lookup_col (columns val) c0); simpl in Estep; congruence.
Qed.

(** X6.  The Binarizer ends in [TypeError] exactly for a table without columns,
    whatever is selected: [functools.reduce] has no initial value for the
    empty list of labels, and nothing else in the function raises it. *)
Theorem binarize_cols_TypeError_iff (cols2binarize : list string) (annot calls : DataFrame)
    (suffix : string) (do_categ : bool) :
  binarize_cols cols2binarize annot calls suffix do_categ = Raise TypeError <->
  labels annot = [].
Proof.
  split.
  - intros Hraise. destruct (decide (labels annot = [])) as [|Hne]; [done|]. exfalso.
    unfold binarize_cols in Hraise. rewrite extended_columns_Ok in Hraise by done.
    simpl in Hraise.
    destruct (reindex_columns annot _) as [val0|e0] eqn:E0; simpl in Hraise.
    2:{ unfold reindex_columns in E0. repeat destruct (decide _); congruence. }
    destruct (reindex_index val0 (index calls)) as [val1|e1] eqn:E1; simpl in Hraise.
    2:{ unfold reindex_index in E1. repeat destruct (decide _); congruence. }
    apply do_col_fold_raise in Hraise. discriminate.
  - intros Hl. unfold binarize_cols. by rewrite Hl.
Qed.

Lemma reindex_columns_labels df cols val :
  reindex_columns df cols = Ok val -> labels val = cols /\ index val = index df.
Proof.
  unfold reindex_columns. destruct (decide (labels df = cols)) as [<-|Hne].
  - by intros [= <-].
  - destruct (decide _); [|done]. intros [= <-]. split; [|done].
    unfold labels. simpl. rewrite <- list_fmap_compose. by rewrite list_fmap_id.
Qed.

Lemma reindex_index_values df idx val :
  NoDup (index df) ->
  reindex_index df idx = Ok val ->
  labels val = labels df /\ index val = idx /\
  forall lab c, lookup_col (columns df) lab = Some c ->
    length (cells c) = length (index df) ->
    exists c1, lookup_col (columns val) lab = Some c1 /\
      (forall i j k, idx !! i = Some k -> index df !! j = Some k ->
         cells c1 !! i = cells c !! j) /\
      (forall i k, idx !! i = Some k -> k ∉ index df -> cells c1 !! i = Some NaN) /\
      (Forall (fun k => k ∈ index df) idx -> dt c1 = dt c).
Proof.
  intros Hnd. unfold reindex_index. destruct (decide (index df = idx)) as [<-|Hne].
  - intros [= <-]. split; [done|]. split; [done|]. intros lab c Hc Hlen.
    exists c. split; [done|]. split; [|split; [|done]].
    + intros i j k Hi Hj. by rewrite (NoDup_lookup _ i j k Hnd Hi Hj).
    + intros i k Hi Hk. exfalso. apply Hk. by eapply list_elem_of_lookup_2.
  - rewrite decide_True by done. intros [= <-]. split.
    { unfold labels. simpl. rewrite <- list_fmap_compose. done. }
    split; [done|]. intros lab c Hc Hlen. simpl.
    rewrite (lookup_col_fmap_col (reindex_col (index df) idx)), Hc. simpl.
    eexists. split; [done|]. simpl. split; [|split].
    + intros i j k Hi Hj. rewrite list_lookup_fmap, Hi. simpl. unfold value_at.
      rewrite (rows_where_NoDup (index df) (cells c) j k Hnd Hj Hlen).
      destruct (cells c !! j) as [v|] eqn:Ev; [done|].
      apply lookup_ge_None in Ev. apply lookup_lt_Some in Hj. lia.
    + intros i k Hi Hk. rewrite list_lookup_fmap, Hi. simpl. unfold value_at.
      by rewrite rows_where_absent.
    + intros Hall. by rewrite bool_decide_eq_true_2.
Qed.

Lemma do_col_fold_labels suffix do_categ : forall cols val val',
  foldR (do_col suffix do_categ) val cols = Ok val' ->
  (forall col, col ∈ cols -> col +:+ suffix ∈ labels val) ->
  labels val' = labels val.
Proof.
  induction cols as [|col cols IH]; intros val val' Hfold Hin; simpl in Hfold.
  - by injection Hfold as <-.
  - apply bind_Ok in Hfold as (val2 & Hstep & Hfold).
    unfold do_col in Hstep. apply bind_Ok in Hstep as (c & _ & Hstep).
    injection Hstep as <-.
    assert (Hl2 : labels (setitem val (col +:+ suffix)
                   (if do_categ then Categorical_int8 (isna c)
                    else {| dt := int8; cells := isna c |})) = labels val).
    { unfold labels, setitem. simpl. apply set_col_labels_in. apply Hin. left. }
    rewrite (IH _ _ Hfold); [done|].
    intros col' Hcol'. rewrite Hl2. apply Hin. by right.
Qed.

(** X7.  With unique keys in the annotation table, the binarized table has the
    extended column order, and every column of the input keeps, on each
    variant of the call set, the value it had for that variant; a variant
    the table lacks has a missing value, and the dtype is kept when no
    variant is new. *)
Theorem binarize_cols_keeps_values
    (cols2binarize : list string) (annot calls : DataFrame)
    (suffix : string) (do_categ : bool) :
  wf_frame annot ->
  NoDup (index annot) ->
  Forall (fun col => col ∈ labels annot) cols2binarize ->
  (exists E, extended_columns (labels annot) cols2binarize suffix = Ok E /\ NoDup E) ->
  exists val,
    binarize_cols cols2binarize annot calls suffix do_categ = Ok val /\
    extended_columns (labels annot) cols2binarize suffix = Ok (labels val) /\
    forall lab c, lookup_col (columns annot) lab = Some c ->
      exists c', lookup_col (columns val) lab = Some c' /\
        (forall i j k, index calls !! i = Some k -> index annot !! j = Some k ->
           cells c' !! i = cells c !! j) /\
        (forall i k, index calls !! i = Some k -> k ∉ index annot ->
           cells c' !! i = Some NaN) /\
        (Forall (fun k => k ∈ index annot) (index calls) -> dt c' = dt c).
Proof.
  intros [Hnd Hal] Hidx Hsel (E & HE & HndE).
  assert (Hne : labels annot <> []).
  { intros Hnil. rewrite Hnil in HE. discriminate. }
  rewrite extended_columns_Ok in HE by done. injection HE as <-.
  set (E := with_indicators (labels annot) cols2binarize suffix) in *.
  rewrite Forall_forall in Hsel.
  destruct (reindex_columns_spec annot E Hnd) as (val0 & Hval0 & Hidx0 & Hlook0).
  destruct (reindex_columns_labels _ _ _ Hval0) as [Hlab0 _].
  destruct (reindex_index_spec val0 (index calls)) as (val1 & Hval1 & _).
  { left. by rewrite Hidx0. }
  destruct (reindex_index_values val0 (index calls) val1) as (Hlab1 & Hidx1 & Hlook1);
    [by rewrite Hidx0|done|].
  assert (HL : forall lab c, lookup_col (columns annot) lab = Some c ->
            exists c1, lookup_col (columns val1) lab = Some c1 /\
              (forall i j k, index calls !! i = Some k -> index annot !! j = Some k ->
                 cells c1 !! i = cells c !! j) /\
              (forall i k, index calls !! i = Some k -> k ∉ index annot ->
                 cells c1 !! i = Some NaN) /\
              (Forall (fun k => k ∈ index annot) (index calls) -> dt c1 = dt c)).
  { intros lab c Ec. rewrite <- Hidx0. apply Hlook1.
    - rewrite Hlook0, Ec; [done|]. apply with_indicators_label.
      apply lookup_col_Some_in in Ec. apply list_elem_of_fmap. by exists (lab, c).
    - rewrite Hidx0. unfold aligned in Hal. rewrite Forall_forall in Hal.
      apply (Hal (lab, c)). by apply lookup_col_Some_in. }
  destruct (do_col_fold suffix do_categ (labels annot) val1 cols2binarize val1)
    as (val & Hval & Hidxv & Hsame & _ & _).
  { intros col Hcol. split; [by apply Hsel|].
    apply (with_indicators_fresh _ cols2binarize); [done|by apply Hsel|done]. }
  { intros lab Hlab.
    destruct (lookup_col (columns annot) lab) as [c|] eqn:Ec;
      [|by apply lookup_col_None in Ec].
    destruct (HL lab c Ec) as (c1 & -> & _). by eexists. }
  { done. }
  exists val. split.
  { unfold binarize_cols. rewrite extended_columns_Ok by done. simpl.
    fold E. rewrite Hval0. simpl. rewrite Hval1. simpl. exact Hval. }
  split.
  { rewrite extended_columns_Ok by done. f_equal. fold E.
    rewrite (do_col_fold_labels _ _ _ _ _ Hval); [by rewrite Hlab1|].
    intros col Hcol. rewrite Hlab1, Hlab0.
    apply with_indicators_indicator; [by apply Hsel|done]. }
  intros lab c Ec. destruct (HL lab c Ec) as (c1 & Hc1 & Hrest).
  exists c1. split; [|done]. rewrite Hsame; [done|].
  apply lookup_col_Some_in in Ec. apply list_elem_of_fmap. by exists (lab, c).
Qed.

Lemma binarize_cols_keeps_values_witness :
  exists val,
    binarize_cols ["cons_Score"] Examples.scores Examples.calls "_bin" false = Ok val /\
    extended_columns (labels Examples.scores) ["cons_Score"] "_bin" = Ok (labels val) /\
    forall lab c, lookup_col (columns Examples.scores) lab = Some c ->
      exists c', lookup_col (columns val) lab = Some c' /\
        (forall i j k, index Examples.calls !! i = Some k ->
           index Examples.scores !! j = Some k -> cells c' !! i = cells c !! j) /\
        (forall i k, index Examples.calls !! i = Some k -> k ∉ index Examples.scores ->
           cells c' !! i = Some NaN) /\
        (Forall (fun k => k ∈ index Examples.scores) (index Examples.calls) ->
         dt c' = dt c).
Proof.
  apply (binarize_cols_keeps_values ["cons_Score"] Examples.scores Examples.calls
           "_bin" false).
  - compute_done.
  - compute_done.
  - compute_done.
  - exists ["cons_Score"; "cons_Score_bin"; "near_gens_Type"]. split; [reflexivity|].
    compute_done.
Defined.




(** ** Categorical Regularizer: when it returns, and what it returns *)

Lemma helper_Ok_inv d cats v v1 :
  helper d cats v = Ok v1 -> is_np_nan d v = true \/ is_text v = true.
Proof.
  unfold helper. destruct (is_np_nan d v) eqn:E; [by left|].
  destruct v; simpl; intros Hv; try discriminate; auto.
Qed.

Lemma regularized_Ok_inv nafillval cats c0 s :
  regularized nafillval cats c0 = Ok s ->
  NoDup (cats ++ ["other"]) /\ nafillval ∈ cats ++ ["other"] /\
  Forall (fun v => is_np_nan (dt c0) v = true \/ is_text v = true) (cells c0) /\
  dt s = category (Str <$> (cats ++ ["other"])) true /\
  length (cells s) = length (cells c0).
Proof.
  unfold regularized. intros (s1 & Hs1 & Hs)%bind_Ok.
  apply bind_Ok in Hs as (s2 & Hs2 & Hs3).
  unfold Categorical in Hs2. destruct (decide _) as [Hnd|]; [|done]. injection Hs2 as <-.
  unfold fillna in Hs3. simpl in Hs3. case_bool_decide as Hna; [|done].
  injection Hs3 as <-. simpl. split; [done|]. split.
  { apply list_elem_of_fmap in Hna as (x & [= ->] & Hx). done. }
  apply mapR_Ok_Forall2 in Hs1. split; [|split; [done|]].
  - apply Forall_forall. intros v Hv. apply list_elem_of_lookup_1 in Hv as [i Hi].
    destruct (Forall2_lookup_l _ _ _ _ _ Hs1 Hi) as (v1 & _ & Hv1).
    by eapply helper_Ok_inv.
  - rewrite !length_fmap. symmetry. by eapply Forall2_length.
Qed.

Lemma regularize_col_Ok_inv nafillval val item val' :
  regularize_col nafillval val item = Ok val' ->
  regularizable_col val nafillval item /\
  forall lab, lab <> item.1 ->
    lookup_col (columns val') lab = lookup_col (columns val) lab.
Proof.
  destruct item as [col cats]. rewrite regularize_col_eq.
  intros (c0 & Hc0 & Hs)%bind_Ok. apply bind_Ok in Hs as (s & Hs & Hval).
  injection Hval as <-. unfold getitem in Hc0.
  destruct (lookup_col (columns val) col) as [c|] eqn:Ec; [|done]. injection Hc0 as ->.
  destruct (regularized_Ok_inv _ _ _ _ Hs) as (Hnd & Hna & Hcells & _).
  split.
  - unfold regularizable_col. simpl. by rewrite Ec.
  - intros lab Hne. unfold setitem. simpl. by rewrite lookup_set_col, decide_False.
Qed.

Lemma regularize_fold_inv nafillval : forall colsdict val0 val,
  NoDup colsdict.*1 ->
  foldR (regularize_col nafillval) val0 colsdict = Ok val ->
  Forall (regularizable_col val0 nafillval) colsdict.
Proof.
  induction colsdict as [|[col cats] colsdict IH]; intros val0 val Hnd Hfold.
  - constructor.
  - csimpl in Hnd. apply NoDup_cons in Hnd as [Hcol Hnd].
    simpl in Hfold. apply bind_Ok in Hfold as (val1 & Hstep & Hfold).
    apply regularize_col_Ok_inv in Hstep as [Hhd Hlook]. constructor; [done|].
    specialize (IH val1 val Hnd Hfold). rewrite Forall_forall in IH |- *.
    intros [col' cats'] Hin. destruct (IH _ Hin) as (? & ? & Hc').
    split; [done|]. split; [done|]. simpl in *. rewrite <- Hlook; [done|].
    intros ->. apply Hcol. apply list_elem_of_fmap. by exists (col, cats').
Qed.




(** X10.  What a returned table looks like: the rows and the column labels of the
    input, every column outside the specification as it was, and every
    named column an ordered categorical over its categories followed by
    ["other"], in which each cell is one of these categories and a missing
    cell of the input holds the fill value. *)
Theorem regularize_categ_cols_output
    (colsdict : list (string * list string)) (annot calls val : DataFrame)
    (nafillval : string) :
  NoDup colsdict.*1 ->
  regularize_categ_cols colsdict annot calls nafillval = Ok val ->
  index val = index annot /\
  labels val = labels annot /\
  (forall lab, lab ∉ colsdict.*1 ->
     lookup_col (columns val) lab = lookup_col (columns annot) lab) /\
  (forall col cats, (col, cats) ∈ colsdict ->
     exists c0 c,
       lookup_col (columns annot) col = Some c0 /\
       lookup_col (columns val) col = Some c /\
       dt c = category (Str <$> (cats ++ ["other"])) true /\
       length (cells c) = length (cells c0) /\
       Forall (fun v => exists cat, v = Str cat /\ cat ∈ cats ++ ["other"]) (cells c) /\
       (forall i, cells c0 !! i = Some NaN -> cells c !! i = Some (Str nafillval))).
Proof.
  intros Hnd Hval. unfold regularize_categ_cols in Hval.
  pose proof (regularize_fold_inv _ _ _ _ Hnd Hval) as Hall.
  destruct (regularize_fold nafillval colsdict annot) as (val' & Hval' & Hidx & Hlab & Hother & Hnamed);
    [by split|].
  rewrite Hval in Hval'. injection Hval' as <-.
  split; [done|]. split; [done|]. split; [done|].
  intros col cats Hin. destruct (Hnamed col cats Hin) as (c0 & s & Hc0 & Hs & Hlook).
  exists c0, s. split; [done|]. split; [done|].
  destruct (regularized_Ok_inv _ _ _ _ Hs) as (_ & Hna & _ & Hdt & Hlen).
  split; [done|]. split; [done|]. split.
  - apply Forall_forall. intros v' Hv'. apply list_elem_of_lookup_1 in Hv' as [i Hi].
    destruct (cells c0 !! i) as [v|] eqn:Ev.
    2:{ apply lookup_ge_None in Ev. apply lookup_lt_Some in Hi. lia. }
    destruct (regularized_cell _ _ _ _ _ _ Hs Ev) as (v1 & _ & Hcell). simpl in Hcell.
    rewrite Hi in Hcell. injection Hcell as ->.
    case_bool_decide as Hcat.
    + apply list_elem_of_fmap in Hcat as (cat & -> & Hcat).
      rewrite decide_False by done. by exists cat.
    + rewrite decide_True by done. by exists nafillval.
  - intros i Ev. destruct (regularized_cell _ _ _ _ _ _ Hs Ev) as (v1 & Hv1 & Hcell).
    unfold helper in Hv1. destruct (is_np_nan (dt c0) NaN); [|done].
    injection Hv1 as <-. simpl in Hcell. rewrite Hcell.
    by case_bool_decide.
Qed.

Lemma regularize_categ_cols_output_witness :
  let val := {| index := index Examples.categ;
                columns :=
                  [("score", {| dt := int64; cells := [Num 1; Num 2; Num 3] |});
                   ("kind", {| dt := category [Str "A"; Str "B"; Str "C"; Str "other"] true;
                               cells := [Str "A"; Str "other"; Str "other"] |})] |} in
  index val = index Examples.categ /\
  labels val = labels Examples.categ /\
  (forall lab, lab ∉ Examples.colsdict.*1 ->
     lookup_col (columns val) lab = lookup_col (columns Examples.categ) lab) /\
  (forall col cats, (col, cats) ∈ Examples.colsdict ->
     exists c0 c,
       lookup_col (columns Examples.categ) col = Some c0 /\
       lookup_col (columns val) col = Some c /\
       dt c = category (Str <$> (cats ++ ["other"])) true /\
       length (cells c) = length (cells c0) /\
       Forall (fun v => exists cat, v = Str cat /\ cat ∈ cats ++ ["other"]) (cells c) /\
       (forall i, cells c0 !! i = Some NaN -> cells c !! i = Some (Str "other"))).
Proof.
  apply (regularize_categ_cols_output Examples.colsdict Examples.categ Examples.categ _
           "other").
  - compute_done.
  - reflexivity.
Defined.

(** X11.  A specification that lists ["other"] among the categories of a column,
    or a fill value that is neither a category of a column nor ["other"],
    leaves the regularizer without a table to return. *)
Theorem regularize_categ_cols_rejects
    (colsdict : list (string * list string)) (annot calls : DataFrame)
    (nafillval col : string) (cats : list string) :
  (col, cats) ∈ colsdict ->
  "other" ∈ cats \/ ((nafillval ∉ cats) /\ nafillval <> "other") ->
  forall val, regularize_categ_cols colsdict annot calls nafillval <> Ok val.
Proof.
  intros Hin Hbad val Hval. unfold regularize_categ_cols in Hval.
  assert (Hok : NoDup (cats ++ ["other"]) /\ nafillval ∈ cats ++ ["other"]).
  { revert annot Hval. induction colsdict as [|item colsdict IH]; intros val0 Hfold;
      [by apply elem_of_nil in Hin|].
    simpl in Hfold. apply bind_Ok in Hfold as (val1 & Hstep & Hfold).
    apply elem_of_cons in Hin as [<-|Hin]; [|by eapply IH].
    apply regularize_col_Ok_inv in Hstep as [(? & ? & _) _]. done. }
  destruct Hok as [Hnd Hna]. destruct Hbad as [Ho|[Hn1 Hn2]].
  - apply NoDup_app in Hnd as (_ & Hdisj & _). apply (Hdisj _ Ho). left.
  - apply elem_of_app in Hna as [?|?%list_elem_of_singleton]; done.
Qed.

Lemma regularize_categ_cols_rejects_witness :
  regularize_categ_cols [("kind", ["A"; "other"])] Examples.categ Examples.categ "other"
  = Raise ValueError /\
  forall val,
    regularize_categ_cols [("kind", ["A"; "other"])] Examples.categ Examples.categ "other"
    <> Ok val.
Proof.
  split; [reflexivity|].
  apply (regularize_categ_cols_rejects [("kind", ["A"; "other"])] Examples.categ
           Examples.categ "other" "kind" ["A"; "other"]).
  - compute_done.
  - left. compute_done.
Defined.

Lemma split_colon_tokens s t : t ∈ split_from ":" 0 s -> has_colon t = false.
Proof.
  revert t. induction s as [|c s IH]; intros t.
  - intros Ht. apply list_elem_of_singleton in Ht as ->. done.
  - rewrite split_from_colon_cons. case_bool_decide as Hc.
    + intros [->|Ht]%elem_of_cons; [done|by apply IH].
    + destruct (split_from ":" 0 s) as [|t0 ts].
      * intros ->%list_elem_of_singleton. cbn [has_colon].
        by rewrite bool_decide_eq_false_2.
      * intros [->|Ht]%elem_of_cons.
        -- cbn [has_colon]. rewrite bool_decide_eq_false_2 by done. apply IH. left.
        -- apply IH. by right.
Qed.

Lemma helper_plain_category d cats cat :
  NoDup cats -> cat ∈ cats -> has_colon cat = false ->
  helper d cats (Str cat) = Ok (Str cat).
Proof.
  intros Hnd Hin Hc. unfold helper. simpl. rewrite split_colon_last by done.
  destruct (list_find (fun c => c ∈ [cat]) cats) as [[i x]|] eqn:Ef.
  - apply list_find_Some in Ef as (_ & Hx & _).
    by apply list_elem_of_singleton in Hx as ->.
  - apply list_find_None in Ef. rewrite Forall_forall in Ef.
    exfalso. apply (Ef cat Hin). left.
Qed.

Lemma regularized_value d d' cats nafillval v v1 :
  NoDup cats -> nafillval ∈ cats -> has_colon nafillval = false ->
  helper d cats v = Ok v1 ->
  let v2 := if bool_decide (v1 ∈ Str <$> cats) then v1 else NaN in
  let v' := if decide (v2 = NaN) then Str nafillval else v2 in
  v' ∈ Str <$> cats /\ helper d' cats v' = Ok v'.
Proof.
  intros Hnd Hna Hplain Hv1.
  assert (Hfill : Str nafillval ∈ Str <$> cats /\
                  helper d' cats (Str nafillval) = Ok (Str nafillval)).
  { split; [apply list_elem_of_fmap; by exists nafillval|].
    by apply helper_plain_category. }
  unfold helper in Hv1. destruct v as [|s| |]; simpl in Hv1; try discriminate.
  - destruct (match d with object | category _ _ => true | _ => false end); [|done].
    injection Hv1 as <-. simpl. by case_bool_decide.
  - destruct (list_find (fun cat => cat ∈ split_from ":" 0 s) cats) as [[i cat]|] eqn:Ef.
    + injection Hv1 as <-. apply list_find_Some in Ef as (Hi & Htok & _).
      assert (Hcat : cat ∈ cats) by by eapply list_elem_of_lookup_2.
      simpl. rewrite bool_decide_eq_true_2 by (apply list_elem_of_fmap; by exists cat).
      rewrite decide_False by done. split; [apply list_elem_of_fmap; by exists cat|].
      apply helper_plain_category; [done|done|]. by eapply split_colon_tokens.
    + injection Hv1 as <-. simpl. case_bool_decide as Hs.
      * rewrite decide_False by done. split; [done|]. unfold helper. simpl.
        by rewrite Ef.
      * by rewrite decide_True.
Qed.

Lemma mapR_fixed {A} (f : A -> result A) (l : list A) :
  Forall (fun x => f x = Ok x) l -> mapR f l = Ok l.
Proof. induction 1 as [|x l Hx _ IH]; simpl; [done|]. by rewrite Hx, IH. Qed.

Lemma regularized_fixed nafillval cats c0 s :
  has_colon nafillval = false ->
  regularized nafillval cats c0 = Ok s -> regularized nafillval cats s = Ok s.
Proof.
  intros Hplain Hs.
  destruct (regularized_Ok_inv _ _ _ _ Hs) as (Hnd & Hna & _ & Hdt & Hlen).
  assert (Hcells : Forall (fun v' => v' ∈ Str <$> (cats ++ ["other"]) /\
                                     helper (dt s) (cats ++ ["other"]) v' = Ok v')
                          (cells s)).
  { apply Forall_forall. intros v' Hv'. apply list_elem_of_lookup_1 in Hv' as [i Hi].
    destruct (cells c0 !! i) as [v|] eqn:Ev.
    2:{ apply lookup_ge_None in Ev. apply lookup_lt_Some in Hi. lia. }
    destruct (regularized_cell _ _ _ _ _ _ Hs Ev) as (v1 & Hv1 & Hcell).
    rewrite Hi in Hcell. injection Hcell as ->.
    by apply (regularized_value (dt c0) (dt s) _ _ v v1). }
  unfold regularized. rewrite mapR_fixed.
  2:{ eapply Forall_impl; [exact Hcells|]. by intros v' [_ ?]. }
  simpl. unfold Categorical. rewrite decide_True by done. simpl.
  unfold fillna. simpl.
  rewrite bool_decide_eq_true_2 by (apply list_elem_of_fmap; by exists nafillval).
  f_equal. destruct s as [d cs]. simpl in *. subst d. f_equal.
  rewrite <- list_fmap_compose. rewrite <- (list_fmap_id cs) at 2.
  apply Forall_fmap_ext. eapply Forall_impl; [exact Hcells|].
  intros v' [Hin _]. simpl. rewrite bool_decide_eq_true_2 by done.
  rewrite decide_False; [done|]. intros ->.
  apply list_elem_of_fmap in Hin as (? & ? & _). discriminate.
Qed.

(** An assignment writes every column of its label and no other. *)
Lemma elem_of_replace_col cols col c lab c' :
  (lab, c') ∈ replace_col cols col c ->
  (lab = col /\ c' = c) \/ (lab <> col /\ (lab, c') ∈ cols).
Proof.
  induction cols as [|[l c0] cols IH]; simpl; [by intros ?%elem_of_nil|].
  intros [[= -> ->]|Hin]%elem_of_cons.
  - destruct (decide (l = col)) as [->|Hne]; [by left|]. right. split; [done|left].
  - destruct (IH Hin) as [?|[? ?]]; [by left|]. right. split; [done|by right].
Qed.

Lemma elem_of_replace_col_other cols col c lab c' :
  lab <> col -> (lab, c') ∈ cols -> (lab, c') ∈ replace_col cols col c.
Proof.
  intros Hne. induction cols as [|[l c0] cols IH]; simpl; [done|].
  intros [[= <- <-]|Hin]%elem_of_cons.
  - rewrite decide_False by done. left.
  - right. by apply IH.
Qed.

Lemma elem_of_set_col cols col c lab c' :
  (lab, c') ∈ set_col cols col c ->
  (lab = col /\ c' = c) \/ (lab <> col /\ (lab, c') ∈ cols).
Proof.
  induction cols as [|[l c0] cols IH]; simpl.
  - intros [= -> ->]%list_elem_of_singleton. by left.
  - destruct (decide (l = col)) as [->|Hne].
    + intros [[= -> ->]|Hin]%elem_of_cons; [by left|].
      destruct (elem_of_replace_col _ _ _ _ _ Hin) as [?|[? ?]]; [by left|].
      right. split; [done|by right].
    + intros [[= -> ->]|Hin]%elem_of_cons.
      * right. split; [done|left].
      * destruct (IH Hin) as [?|[? ?]]; [by left|]. right. split; [done|by right].
Qed.

Lemma elem_of_set_col_other cols col c lab c' :
  lab <> col -> (lab, c') ∈ cols -> (lab, c') ∈ set_col cols col c.
Proof.
  intros Hne. induction cols as [|[l c0] cols IH]; simpl; [by intros ?%elem_of_nil|].
  intros [[= <- <-]|Hin]%elem_of_cons.
  - rewrite decide_False by done. left.
  - destruct (decide (l = col)) as [->|Hne'].
    + right. by apply elem_of_replace_col_other.
    + right. by apply IH.
Qed.

Lemma replace_col_same cols col c :
  (forall c', (col, c') ∈ cols -> c' = c) -> replace_col cols col c = cols.
Proof.
  induction cols as [|[l c0] cols IH]; simpl; intros Hall; [done|].
  rewrite IH by (intros c' Hc'; apply Hall; by right). f_equal.
  destruct (decide (l = col)) as [->|Hne]; [|done].
  f_equal. symmetry. apply Hall. left.
Qed.

Lemma set_col_same cols col c :
  col ∈ cols.*1 -> (forall c', (col, c') ∈ cols -> c' = c) -> set_col cols col c = cols.
Proof.
  induction cols as [|[l c0] cols IH]; simpl; intros Hin Hall.
  - by apply elem_of_nil in Hin.
  - destruct (decide (l = col)) as [->|Hne].
    + rewrite replace_col_same by (intros c' Hc'; apply Hall; by right).
      f_equal. f_equal. symmetry. apply Hall. left.
    + f_equal. apply IH.
      * csimpl in Hin. apply elem_of_cons in Hin as [?|?]; [congruence|done].
      * intros c' Hc'. apply Hall. by right.
Qed.

(** After the loop, the columns that carry a label of the specification
    are all alike, and the others are those of the input. *)
Lemma regularize_fold_uniform nafillval : forall colsdict val0 val,
  NoDup colsdict.*1 ->
  foldR (regularize_col nafillval) val0 colsdict = Ok val ->
  (forall col c1 c2, col ∈ colsdict.*1 ->
     (col, c1) ∈ columns val -> (col, c2) ∈ columns val -> c1 = c2) /\
  (forall lab c', lab ∉ colsdict.*1 ->
     ((lab, c') ∈ columns val <-> (lab, c') ∈ columns val0)).
Proof.
  induction colsdict as [|[col cats] colsdict IH]; intros val0 val Hnd Hfold.
  - simpl in Hfold. injection Hfold as <-. split; [|done].
    intros col c1 c2 Hin. by apply elem_of_nil in Hin.
  - csimpl in Hnd. apply NoDup_cons in Hnd as [Hcol Hnd].
    simpl in Hfold. apply bind_Ok in Hfold as (val1 & Hstep & Hfold).
    rewrite regularize_col_eq in Hstep.
    apply bind_Ok in Hstep as (c0 & _ & Hstep).
    apply bind_Ok in Hstep as (s & _ & Hstep). injection Hstep as <-.
    destruct (IH _ _ Hnd Hfold) as [Huni Hkeep]. split.
    + intros col' c1 c2 Hin H1 H2. csimpl in Hin.
      destruct (decide (col' ∈ colsdict.*1)) as [Hrest|Hrest]; [by eapply Huni|].
      apply elem_of_cons in Hin as [->|?]; [|done].
      apply Hkeep in H1; [|done]. apply Hkeep in H2; [|done].
      apply elem_of_set_col in H1 as [[_ ->]|[? _]]; [|done].
      apply elem_of_set_col in H2 as [[_ ->]|[? _]]; done.
    + intros lab c' Hlab. csimpl in Hlab. apply not_elem_of_cons in Hlab as [Hne Hlab].
      rewrite Hkeep by done. simpl. split.
      * intros [[? _]|[_ ?]]%elem_of_set_col; done.
      * by apply elem_of_set_col_other.
Qed.

(** X12.  Regularizing a regularized table changes nothing, as long as the fill
    value has no colon: every cell is by then a category that the helper
    finds again. *)
Theorem regularize_categ_cols_idempotent
    (colsdict : list (string * list string)) (annot calls calls' val : DataFrame)
    (nafillval : string) :
  NoDup colsdict.*1 ->
  has_colon nafillval = false ->
  regularize_categ_cols colsdict annot calls nafillval = Ok val ->
  regularize_categ_cols colsdict val calls' nafillval = Ok val.
Proof.
  intros Hnd Hplain Hval. unfold regularize_categ_cols in *.
  pose proof (regularize_fold_inv _ _ _ _ Hnd Hval) as Hall.
  destruct (regularize_fold_uniform _ _ _ _ Hnd Hval) as [Huni _].
  destruct (regularize_fold nafillval colsdict annot) as (val' & Hval' & _ & _ & _ & Hnamed);
    [by split|].
  rewrite Hval in Hval'. injection Hval' as <-.
  assert (Hstep : forall item, item ∈ colsdict -> regularize_col nafillval val item = Ok val).
  { intros [col cats] Hin. destruct (Hnamed col cats Hin) as (c0 & s & _ & Hs & Hlook).
    rewrite regularize_col_eq. unfold getitem. rewrite Hlook. simpl.
    rewrite (regularized_fixed _ _ _ _ Hplain Hs). simpl. f_equal.
    apply lookup_col_Some_in in Hlook.
    unfold setitem. rewrite set_col_same.
    - by destruct val.
    - apply list_elem_of_fmap. by exists (col, s).
    - intros c' Hc'. apply (Huni col); [|done|done].
      apply list_elem_of_fmap. by exists (col, cats). }
  clear -Hstep. induction colsdict as [|item colsdict IH]; [done|].
  simpl. rewrite Hstep by left. simpl. apply IH. intros item' Hin. apply Hstep. by right.
Qed.

Lemma regularize_categ_cols_idempotent_witness :
  let val := {| index := index Examples.categ;
                columns :=
                  [("score", {| dt := int64; cells := [Num 1; Num 2; Num 3] |});
                   ("kind", {| dt := category [Str "A"; Str "B"; Str "C"; Str "other"] true;
                               cells := [Str "A"; Str "other"; Str "other"] |})] |} in
  regularize_categ_cols Examples.colsdict val Examples.calls "other" = Ok val.
Proof.
  apply (regularize_categ_cols_idempotent Examples.colsdict Examples.categ Examples.categ
           Examples.calls _ "other").
  - compute_done.
  - reflexivity.
  - reflexivity.
Defined.

(** ** Set-Valued Vectorizer: what a call keeps, adds and refuses *)

Lemma string_nil_app (s : string) : "" +:+ s = s.
Proof. reflexivity. Qed.

Lemma existsb_false {A} (p : A -> bool) (l : list A) :
  existsb p l = false <-> Forall (fun x => p x = false) l.
Proof.
  induction l as [|x l IH]; simpl; [split; [constructor|done]|].
  rewrite orb_false_iff, IH, Forall_cons. done.
Qed.

(** X13.  When no token is already a column label, the vectorizer appends one
    boolean column per distinct token other than the none-token, named by
    the token, that is [True] exactly on the rows whose cell lists it; all
    columns of the input stay as they are. *)
Theorem vectorize_setvalued_fresh_tokens `{SetOrder}
    (annot : DataFrame) (colname nonestr sepstr : string)
    (c : column) (ll : list (list string)) :
  lookup_col (columns annot) colname = Some c ->
  token_lists sepstr c = Ok ll ->
  (forall t, t ∈ concat ll -> t <> nonestr -> t ∉ labels annot) ->
  exists out new,
    vectorize_setvalued annot colname nonestr sepstr = Ok out /\
    index out = index annot /\
    labels out = labels annot ++ new /\
    NoDup new /\
    (forall t, t ∈ new <-> t ∈ concat ll /\ t <> nonestr) /\
    (forall t, t ∈ new ->
       exists ct, lookup_col (columns out) t = Some ct /\ dt ct = bool_ /\
         length (cells ct) = length (cells c) /\
         forall i y, ll !! i = Some y -> cells ct !! i = Some (Bool (bool_decide (t ∈ y)))) /\
    (forall lab, lab ∈ labels annot ->
       lookup_col (columns out) lab = lookup_col (columns annot) lab).
Proof.
  intros Hc Hll Hfresh.
  destruct (vectorize_setvalued_total annot colname nonestr sepstr c ll Hc Hll) as [out Hout].
  destruct (vectorize_setvalued_spec _ _ _ _ _ Hout)
    as (c' & ll' & Hc' & Hll' & Hidx & Hlab & Hnew & Hold).
  rewrite Hc in Hc'. injection Hc' as <-. rewrite Hll in Hll'. injection Hll' as <-.
  set (s := filter (fun y => y <> nonestr) (set_list (concat ll))) in *.
  assert (Hs : forall t, t ∈ s <-> t ∈ concat ll /\ t <> nonestr).
  { intros t. unfold s. rewrite list_elem_of_filter, set_list_elem. tauto. }
  assert (Hnone : existsb (fun y => bool_decide (y ∈ labels annot)) s = false).
  { apply existsb_false, Forall_forall. intros t [Ht Hne]%Hs.
    apply bool_decide_eq_false. by apply Hfresh. }
  rewrite Hnone in Hlab, Hnew, Hold.
  assert (Hid : (fun y => "" +:+ y) <$> s = s).
  { rewrite <- (list_fmap_id s) at 2. by apply list_fmap_ext. }
  rewrite Hid in Hlab, Hnew, Hold.
  assert (Hfilter : filter (fun n => n ∉ labels annot) s = s).
  { assert (Hall : Forall (fun n => n ∉ labels annot) s).
    { apply Forall_forall. intros t [Ht Hne]%Hs. by apply Hfresh. }
    revert Hall. generalize s. intros s0 Hall.
    induction Hall as [|t s' Ht _ IH]; [done|].
    rewrite filter_cons, decide_True by done. by rewrite IH. }
  rewrite Hfilter in Hlab.
  exists out, s. split; [done|]. split; [done|]. split; [done|]. split.
  { apply NoDup_filter, set_list_NoDup. }
  split; [done|]. split.
  - intros t Ht. exists (membership ll t). split; [by apply Hnew|]. split; [done|].
    split.
    + simpl. rewrite length_fmap. unfold token_lists in Hll.
      apply mapR_Ok_Forall2 in Hll. symmetry. by eapply Forall2_length.
    + intros i y Hy. simpl. by rewrite list_lookup_fmap, Hy.
  - intros lab Hlab'. apply Hold. intros [Ht Hne]%Hs. by apply (Hfresh lab).
Qed.

Lemma vectorize_setvalued_fresh_tokens_witness :
  exists out new,
    @vectorize_setvalued dedup_order Examples.setvalued "y" "None" ":" = Ok out /\
    index out = index Examples.setvalued /\
    labels out = labels Examples.setvalued ++ new /\
    NoDup new /\
    (forall t, t ∈ new <-> t ∈ concat [["a"; "b"]; ["b"]; ["None"]] /\ t <> "None") /\
    (forall t, t ∈ new ->
       exists ct, lookup_col (columns out) t = Some ct /\ dt ct = bool_ /\
         length (cells ct) = 3%nat /\
         forall i y, [["a"; "b"]; ["b"]; ["None"]] !! i = Some y ->
                     cells ct !! i = Some (Bool (bool_decide (t ∈ y)))) /\
    (forall lab, lab ∈ labels Examples.setvalued ->
       lookup_col (columns out) lab = lookup_col (columns Examples.setvalued) lab).
Proof.
  apply (@vectorize_setvalued_fresh_tokens dedup_order Examples.setvalued "y" "None" ":"
           {| dt := object; cells := [Str "a:b"; Str "b"; Str "None"] |}
           [["a"; "b"]; ["b"]; ["None"]]).
  - reflexivity.
  - reflexivity.
  - intros t Ht Hne Hlab. apply list_elem_of_singleton in Hlab as ->.
    revert Ht. compute_done.
Defined.

(** X14.  Whatever the tokens are, a call that returns has left the vectorized
    column itself, and the index, as they were: no new name can be the name
    of that column. *)
Theorem vectorize_setvalued_keeps_column `{SetOrder}
    (annot : DataFrame) (colname nonestr sepstr : string) (out : DataFrame) :
  vectorize_setvalued annot colname nonestr sepstr = Ok out ->
  index out = index annot /\
  is_Some (lookup_col (columns annot) colname) /\
  lookup_col (columns out) colname = lookup_col (columns annot) colname.
Proof.
  intros Hout.
  destruct (vectorize_setvalued_spec _ _ _ _ _ Hout)
    as (c & ll & Hc & Hll & Hidx & _ & _ & Hold).
  split; [done|]. split; [by eexists|]. apply Hold.
  intros (y & Hy & Hin)%list_elem_of_fmap.
  destruct (existsb _ _) eqn:Eany.
  - apply (f_equal String.length) in Hy. rewrite !string_length_app in Hy.
    simpl in Hy. lia.
  - rewrite string_nil_app in Hy. subst y.
    rewrite existsb_false, Forall_forall in Eany.
    specialize (Eany _ Hin). apply bool_decide_eq_false in Eany. apply Eany.
    apply lookup_col_Some_in in Hc. apply list_elem_of_fmap. by exists (colname, c).
Qed.

Lemma vectorize_setvalued_keeps_column_witness :
  let out := {| index := index Examples.setvalued_clash;
                columns :=
                  [("a", {| dt := int64; cells := [Num 1; Num 2] |});
                   ("y", {| dt := object; cells := [Str "a:b"; Str "b"] |});
                   ("y_a", {| dt := bool_; cells := [Bool false; Bool false] |});
                   ("y_b", {| dt := bool_; cells := [Bool false; Bool false] |})] |} in
  index out = index Examples.setvalued_clash /\
  is_Some (lookup_col (columns Examples.setvalued_clash) "y") /\
  lookup_col (columns out) "y" = lookup_col (columns Examples.setvalued_clash) "y".
Proof.
  apply (@vectorize_setvalued_keeps_column dedup_order Examples.setvalued_clash
           "y" "None" ":").
  reflexivity.
Defined.

(** X15.  A cell that is no string, a missing value for one, has no [split]: with
    a usable separator the vectorizer ends in [AttributeError]. *)
Theorem vectorize_setvalued_AttributeError `{SetOrder}
    (annot : DataFrame) (colname nonestr sepstr : string) (c : column) :
  lookup_col (columns annot) colname = Some c ->
  sepstr <> "" ->
  Exists (fun v => is_text v = false) (cells c) ->
  vectorize_setvalued annot colname nonestr sepstr = Raise AttributeError.
Proof.
  intros Hc Hsep Hbad. unfold vectorize_setvalued, getitem. rewrite Hc. simpl.
  set (f := fun y => match y with Str y => split sepstr y | _ => Raise AttributeError end).
  destruct (mapR_raise_only f AttributeError (cells c)) as [[ll Hll]|Hll].
  - apply Forall_forall. intros v _. destruct v as [|s| |]; simpl; try by right.
    left. unfold split. rewrite decide_False by done. by eexists.
  - exfalso. apply Exists_exists in Hbad as (v & Hv & Htext).
    apply (mapR_not_Ok f (cells c) v AttributeError Hv) in Hll; [done|].
    by destruct v.
  - fold f. by rewrite Hll.
Qed.

Lemma vectorize_setvalued_AttributeError_witness :
  @vectorize_setvalued dedup_order Examples.categ "kind" "None" ":" = Raise AttributeError.
Proof.
  apply (@vectorize_setvalued_AttributeError dedup_order Examples.categ "kind" "None" ":"
           {| dt := object; cells := [Str "B:A"; Str "zzz"; NaN] |}).
  - reflexivity.
  - discriminate.
  - compute_done.
Defined.

(** X16.  Vectorizing several columns only ever appends: the result has the index
    of the input and its column labels, in order, ahead of the new ones. *)
Theorem vectorize_multiple_setvalued_extends `{SetOrder}
    (annot : DataFrame) (colnamel : list string) (nonestrl : nonestrl_arg)
    (sepstr : string) (out : DataFrame) :
  vectorize_multiple_setvalued annot colnamel nonestrl sepstr = Ok out ->
  index out = index annot /\ labels annot `prefix_of` labels out.
Proof.
  unfold vectorize_multiple_setvalued.
  apply (foldR_inv (fun d => index d = index annot /\ labels annot `prefix_of` labels d)).
  - done.
  - intros d cn d' [Hidx Hpre] Hstep.
    destruct (vectorize_setvalued_spec _ _ _ _ _ Hstep)
      as (c & ll & _ & _ & Hidx' & Hlab & _).
    split; [congruence|]. rewrite Hlab. by apply prefix_app_r.
Qed.

Lemma vectorize_multiple_setvalued_extends_witness :
  let out := {| index := index Examples.setvalued;
                columns :=
                  [("y", {| dt := object; cells := [Str "a:b"; Str "b"; Str "None"] |});
                   ("a", {| dt := bool_; cells := [Bool true; Bool false; Bool false] |});
                   ("b", {| dt := bool_; cells := [Bool true; Bool true; Bool false] |})] |} in
  index out = index Examples.setvalued /\
  labels Examples.setvalued `prefix_of` labels out.
Proof.
  apply (@vectorize_multiple_setvalued_extends dedup_order Examples.setvalued ["y"]
           (StrList ["None"]) ":").
  reflexivity.
Defined.

(** ** Annotation Table Reader: what a returned table is made of, and the
    files it takes for empty *)

(** X17.  Whenever the reader returns, the table is well formed and has one row
    per row of the file, at least one; the key of a row carries the given
    individual and tissue, and its CHROM, POS and Mutation are the three
    fields the row's variant identity splits into, POS read as an int64. *)
Theorem read_TXT_per_annotation_keys
    (fs : filesystem) (tsvpath indivID tis : string) (annotname : option string)
    (na_values : list string) (T : DataFrame) :
  read_TXT_per_annotation fs tsvpath indivID tis annotname na_values = Ok T ->
  exists raw vid,
    read_csv fs tsvpath na_values = Ok raw /\
    lookup_col (raw_columns raw) "Variation ID" = Some vid /\
    wf_frame T /\
    index T <> [] /\
    Forall2 (fun v k =>
               exists s p, v = Str s /\
                 varid2index s = [chrom k; p; mutation k] /\
                 astype_int64 p = Ok (pos k) /\
                 (- 2 ^ 63 <= pos k < 2 ^ 63)%Z /\
                 individual k = indivID /\ tissue k = tis)
            (cells vid) (index T).
Proof.
  intros HT. destruct (read_TXT_per_annotation_wf _ _ _ _ _ _ _ HT) as [Hwf _].
  unfold read_TXT_per_annotation in HT.
  apply bind_Ok in HT as (raw & Hraw & HT).
  apply bind_Ok in HT as (varids & Hvid & HT).
  destruct (lookup_col (raw_columns raw) "Variation ID") as [vid|] eqn:Evid; [|done].
  injection Hvid as <-.
  apply bind_Ok in HT as (l & Hl & HT).
  apply bind_Ok in HT as (df & Hdf & HT).
  apply bind_Ok in HT as (keys & Hkeys & HT).
  injection HT as <-. simpl in *.
  exists raw, vid. split; [done|]. split; [done|]. split; [done|].
  apply mapR_Ok_Forall2 in Hl. apply mapR_Ok_Forall2 in Hkeys.
  assert (Hne : l <> []).
  { intros ->. unfold five_columns in Hdf. by rewrite decide_True in Hdf. }
  apply five_columns_Ok in Hdf. split.
  - intros ->. apply Forall2_nil_inv_r in Hkeys as ->.
    apply Forall2_nil_inv_r in Hdf as ->. done.
  - apply Forall2_same_length_lookup. split.
    { rewrite (Forall2_length _ _ _ Hl), (Forall2_length _ _ _ Hdf).
      by eapply Forall2_length. }
    intros i v k Hv Hk.
    destruct (Forall2_lookup_l _ _ _ _ _ Hl Hv) as (r & Hr & Hvr).
    destruct (Forall2_lookup_l _ _ _ _ _ Hdf Hr) as (q & Hq & Hrq).
    destruct (Forall2_lookup_l _ _ _ _ _ Hkeys Hq) as (k' & Hk' & Hqk).
    rewrite Hk in Hk'. injection Hk' as <-.
    destruct v as [|s| |]; try discriminate. injection Hvr as Hvr.
    destruct q as [[[[i0 t] c] p] m]. simpl in Hrq.
    apply bind_Ok in Hqk as (z & Hz & Hqk). injection Hqk as <-. simpl.
    rewrite Hrq in Hvr. injection Hvr as -> -> Hsplit.
    exists s, p. split; [done|]. split; [done|]. split; [done|]. split; [|done].
    unfold astype_int64 in Hz. destruct (py_int p); [|done].
    case_bool_decide; [|done]. by injection Hz as <-.
Qed.

Lemma read_TXT_per_annotation_keys_witness :
  exists raw vid,
    read_csv (Examples.one_file "/annot/MSSM_1_muscle/near_gens.txt" Examples.near_gens_raw)
      "/annot/MSSM_1_muscle/near_gens.txt" [] = Ok raw /\
    lookup_col (raw_columns raw) "Variation ID" = Some vid /\
    wf_frame Examples.near_gens_1 /\
    index Examples.near_gens_1 <> [] /\
    Forall2 (fun v k =>
               exists s p, v = Str s /\
                 varid2index s = [chrom k; p; mutation k] /\
                 astype_int64 p = Ok (pos k) /\
                 (- 2 ^ 63 <= pos k < 2 ^ 63)%Z /\
                 individual k = "CMC_MSSM_1" /\ tissue k = "muscle")
            (cells vid) (index Examples.near_gens_1).
Proof.
  apply (read_TXT_per_annotation_keys
           (Examples.one_file "/annot/MSSM_1_muscle/near_gens.txt" Examples.near_gens_raw)
           "/annot/MSSM_1_muscle/near_gens.txt" "CMC_MSSM_1" "muscle" None []).
  reflexivity.
Defined.

(** X18.  A file whose identities are all text is a [ValueError] to the reader,
    the exception the joiner takes for an empty contribution, when it has
    no row at all or when some identity does not split into exactly three
    fields. *)
Theorem read_TXT_per_annotation_ValueError
    (fs : filesystem) (tsvpath indivID tis : string) (annotname : option string)
    (na_values : list string) (raw : RawFrame) (vid : column) :
  read_csv fs tsvpath na_values = Ok raw ->
  lookup_col (raw_columns raw) "Variation ID" = Some vid ->
  Forall (fun v => is_text v = true) (cells vid) ->
  cells vid = [] \/
  Exists (fun v => exists s, v = Str s /\ length (varid2index s) <> 3%nat) (cells vid) ->
  read_TXT_per_annotation fs tsvpath indivID tis annotname na_values = Raise ValueError.
Proof.
  intros Hraw Hvid Htext Hbad. unfold read_TXT_per_annotation.
  rewrite Hraw. simpl. rewrite Hvid. simpl.
  set (f := fun s => match s with
                     | Str s => Ok (indivID :: tis :: varid2index s)
                     | _ => Raise TypeError
                     end).
  destruct (mapR_total f (cells vid)) as [l Hl].
  { eapply Forall_impl; [exact Htext|]. intros [|s| |] Hv; try done. by eexists. }
  rewrite Hl. simpl.
  assert (Hfive : five_columns l = Raise ValueError); [|by rewrite Hfive].
  apply mapR_Ok_Forall2 in Hl. unfold five_columns.
  destruct (decide (l = [])) as [|Hne]; [done|].
  destruct Hbad as [Hnil|Hbad].
  { rewrite Hnil in Hl. by apply Forall2_nil_inv_l in Hl. }
  set (g := fun r : list string =>
              match r with
              | [i; t; c; p; m] => Ok (i, t, c, p, m)
              | _ => Raise ValueError
              end).
  destruct (mapR_raise_only g ValueError l) as [[df Hdf]|Hdf]; [| |done].
  - apply Forall_forall. intros r _. unfold g.
    destruct r as [|? [|? [|? [|? [|? [|? ?]]]]]]; try by right. left. by eexists.
  - exfalso. apply Exists_exists in Hbad as (v & Hv & s & -> & Hlen).
    apply list_elem_of_lookup_1 in Hv as [i Hi].
    destruct (Forall2_lookup_l _ _ _ _ _ Hl Hi) as (r & Hr & Hfr).
    simpl in Hfr. injection Hfr as <-.
    apply (mapR_not_Ok g l (indivID :: tis :: varid2index s) ValueError) in Hdf; [done| |].
    + by eapply list_elem_of_lookup_2.
    + unfold g. destruct (varid2index s) as [|? [|? [|? [|? ?]]]]; try done.
Qed.

Lemma read_TXT_per_annotation_ValueError_witness :
  read_TXT_per_annotation (Examples.one_file "/annot/MSSM_1_muscle/cons.txt"
                                             Examples.norows_raw)
    "/annot/MSSM_1_muscle/cons.txt" "CMC_MSSM_1" "muscle" None []
  = Raise ValueError.
Proof.
  apply (read_TXT_per_annotation_ValueError
           (Examples.one_file "/annot/MSSM_1_muscle/cons.txt" Examples.norows_raw)
           "/annot/MSSM_1_muscle/cons.txt" "CMC_MSSM_1" "muscle" None []
           Examples.norows_raw {| dt := object; cells := [] |}).
  - reflexivity.
  - reflexivity.
  - constructor.
  - left. reflexivity.
Defined.

Lemma string_prefix_app p : forall s,
  String.prefix p s = true <-> exists r, s = p +:+ r.
Proof.
  induction p as [|a p IH]; intros s.
  - split; [intros _; by exists s|]. intros _. by destruct s.
  - destruct s as [|b s]; cbn [String.prefix].
    + split; [done|]. intros [r Hr]. discriminate.
    + destruct (ascii_dec a b) as [<-|Hne].
      * rewrite IH. split; intros [r Hr]; exists r.
        -- by rewrite string_app_cons, Hr.
        -- rewrite string_app_cons in Hr. by injection Hr.
      * split; [done|]. intros [r Hr]. rewrite string_app_cons in Hr.
        injection Hr as ? _. done.
Qed.

Lemma after_last_slash_app dir name :
  has_slash name = false -> after_last_slash (dir +:+ "/" +:+ name) = Some name.
Proof.
  intros Hname.
  assert (Hnone : after_last_slash name = None).
  { induction name as [|a name IH]; [done|]. cbn [has_slash] in Hname.
    apply orb_false_iff in Hname as [Ha Hname]. simpl. rewrite IH by done.
    apply bool_decide_eq_false in Ha. by rewrite decide_False. }
  induction dir as [|a dir IH].
  - change ("" +:+ "/" +:+ name) with (String "/" name). simpl.
    by rewrite Hnone.
  - rewrite string_app_cons. simpl. by rewrite IH.
Qed.

Lemma re_sub_dot_txt_ext name :
  has_txt name = false -> re_sub_dot_txt 0 (name +:+ ".txt") = name.
Proof.
  induction name as [|a name IH]; intros Hname; [done|].
  cbn [has_txt] in Hname. apply orb_false_iff in Hname as [_ Hname].
  rewrite string_app_cons. cbn [re_sub_dot_txt].
  assert (Hpre : String.prefix "txt" (name +:+ ".txt") = false).
  { destruct (String.prefix "txt" (name +:+ ".txt")) eqn:E; [|done]. exfalso.
    apply string_prefix_app in E as [r Hr].
    assert (Hn : String.prefix "txt" name = false).
    { destruct name; [done|]. cbn [has_txt] in Hname.
      by apply orb_false_iff in Hname as [? _]. }
    destruct name as [|c1 [|c2 [|c3 name]]]; try discriminate.
    rewrite !string_app_cons in Hr. injection Hr as -> -> -> _.
    assert (Hy : String.prefix "txt" (String "t" (String "x" (String "t" name))) = true).
    { apply string_prefix_app. by exists name. }
    congruence. }
  rewrite Hpre, andb_false_r. f_equal. by apply IH.
Qed.

(** X19.  The annotation name of a path [<dir>/<name>.txt] is [<name>], for a
    name without slash in which no ["txt"] occurs: the pattern ['.txt'] is
    searched everywhere, and its dot stands for any character. *)
Theorem tsvpath2annotname_strips (dir name : string) :
  has_slash name = false ->
  has_txt name = false ->
  tsvpath2annotname (dir +:+ "/" +:+ name +:+ ".txt") = name.
Proof.
  intros Hslash Htxt. unfold tsvpath2annotname, basename.
  rewrite after_last_slash_app.
  - simpl. by apply re_sub_dot_txt_ext.
  - clear Htxt. induction name as [|a name IH]; [done|].
    cbn [has_slash] in Hslash. apply orb_false_iff in Hslash as [Ha Hn].
    rewrite string_app_cons. cbn [has_slash]. by rewrite Ha, IH.
Qed.

Lemma tsvpath2annotname_strips_witness :
  tsvpath2annotname ("/annot/MSSM_1_muscle" +:+ "/" +:+ "near_gens" +:+ ".txt")
  = "near_gens".
Proof.
  apply (tsvpath2annotname_strips "/annot/MSSM_1_muscle" "near_gens"); reflexivity.
Defined.

(** ** Multi-Source Joiner: sample labels, the rows of the result, and
    what ends the join *)

Lemma strip_prefix_app p r : strip_prefix p (p +:+ r) = Some r.
Proof.
  induction p as [|a p IH]; [by destruct r|].
  rewrite string_app_cons. simpl. by rewrite decide_True.
Qed.

Lemma span_digits_app ds a r :
  all_digits ds = true -> is_digit a = false ->
  span_digits (ds +:+ String a r) = (ds, String a r).
Proof.
  intros Hds Ha. induction ds as [|d ds IH].
  - change ("" +:+ String a r) with (String a r). cbn [span_digits]. by rewrite Ha.
  - cbn [all_digits] in Hds. apply andb_true_iff in Hds as [Hd Hds].
    rewrite string_app_cons. cbn [span_digits]. by rewrite Hd, IH.
Qed.

Lemma re_sub_samplestr_skip repl : forall s n,
  (String.length s <= n)%nat -> re_sub_samplestr repl n s = "".
Proof.
  induction s as [|a s IH]; intros n Hn; [done|].
  destruct n as [|n]; simpl in Hn; [lia|]. cbn [re_sub_samplestr]. apply IH. lia.
Qed.

Lemma re_sub_samplestr_whole repl s g1 g3 :
  s <> "" ->
  match_samplestr s = Some (g1, g3, String.length s) ->
  re_sub_samplestr repl 0 s = repl g1 g3.
Proof.
  intros Hne Hm. destruct s as [|a s]; [done|].
  cbn [re_sub_samplestr]. rewrite Hm. cbn [String.length].
  rewrite re_sub_samplestr_skip by lia. apply string_app_nil_r.
Qed.

Lemma match_samplestr_label site ds tis :
  site ∈ ["MSSM"; "PITT"] ->
  ds <> "" -> all_digits ds = true ->
  tis ∈ ["NeuN_pl"; "NeuN_mn"; "muscle"] ->
  match_samplestr (site +:+ "_" +:+ ds +:+ "_" +:+ tis)
  = Some (site +:+ "_" +:+ ds, tis,
          String.length (site +:+ "_" +:+ ds +:+ "_" +:+ tis)).
Proof.
  intros Hsite Hne Hds Htis. unfold match_samplestr.
  set (rest := ds +:+ "_" +:+ tis).
  assert (Hsite' :
    (if String.prefix "MSSM" (site +:+ "_" +:+ rest) then Some "MSSM"
     else if String.prefix "PITT" (site +:+ "_" +:+ rest) then Some "PITT" else None)
    = Some site).
  { apply elem_of_cons in Hsite as [->|Hsite].
    - by rewrite (proj2 (string_prefix_app "MSSM" _)) by by eexists.
    - apply elem_of_cons in Hsite as [->|Hsite]; [|by apply elem_of_nil in Hsite].
      destruct (String.prefix "MSSM" ("PITT" +:+ "_" +:+ rest)) eqn:E.
      + apply string_prefix_app in E as [r Hr]. discriminate.
      + by rewrite (proj2 (string_prefix_app "PITT" _)) by by eexists. }
  rewrite Hsite'. simpl.
  rewrite <- (string_app_assoc site "_" rest), strip_prefix_app. simpl.
  unfold rest. change ("_" +:+ tis) with (String "_" tis).
  rewrite span_digits_app by done. rewrite decide_False by done.
  change (strip_prefix "_" (String "_" tis)) with (Some tis). simpl.
  assert (Hfind : exists i, list_find (fun t => String.prefix t tis = true)
                              ["NeuN_pl"; "NeuN_mn"; "muscle"] = Some (i, tis)).
  { repeat (apply elem_of_cons in Htis as [->|Htis]; [by eexists|]).
    by apply elem_of_nil in Htis. }
  destruct Hfind as [i Hfind].
  change (list_find (fun t => String.prefix t tis = true) ["NeuN_pl"; "NeuN_mn"; "muscle"]
          ≫= (fun x : nat * string =>
                Some (site +:+ "_" +:+ ds, x.2,
                      (String.length site + 1 + String.length ds + 1 + String.length x.2)%nat))
          = Some (site +:+ "_" +:+ ds, tis,
                  String.length ((site +:+ "_") +:+ ds +:+ String "_" tis))).
  rewrite Hfind. simpl. f_equal. f_equal.
  rewrite !string_length_app. simpl. lia.
Qed.

(** X20.  A sample label made of a site, a number and a tissue, as the pattern of
    the joiner expects, gives the individual [CMC_<site>_<number>] and the
    tissue it ends in. *)
Theorem sample_label_key (site ds tis : string) :
  site ∈ ["MSSM"; "PITT"] ->
  ds <> "" -> all_digits ds = true ->
  tis ∈ ["NeuN_pl"; "NeuN_mn"; "muscle"] ->
  sample2indivID (site +:+ "_" +:+ ds +:+ "_" +:+ tis) = "CMC_" +:+ site +:+ "_" +:+ ds /\
  sample2tissue (site +:+ "_" +:+ ds +:+ "_" +:+ tis) = tis.
Proof.
  intros Hsite Hne Hds Htis.
  pose proof (match_samplestr_label site ds tis Hsite Hne Hds Htis) as Hm.
  assert (Hs : site +:+ "_" +:+ ds +:+ "_" +:+ tis <> "").
  { intros Heq. apply (f_equal String.length) in Heq.
    rewrite !string_length_app in Heq. simpl in Heq. lia. }
  unfold sample2indivID, sample2tissue.
  by rewrite !(re_sub_samplestr_whole _ _ _ _ Hs Hm).
Qed.

Lemma sample_label_key_witness :
  sample2indivID ("MSSM" +:+ "_" +:+ "106" +:+ "_" +:+ "NeuN_pl") = "CMC_" +:+ "MSSM" +:+ "_" +:+ "106" /\
  sample2tissue ("MSSM" +:+ "_" +:+ "106" +:+ "_" +:+ "NeuN_pl") = "NeuN_pl".
Proof.
  apply (sample_label_key "MSSM" "106" "NeuN_pl").
  - compute_done.
  - discriminate.
  - reflexivity.
  - compute_done.
Defined.

Lemma union_index_NoDup (l : list (list VariantKey)) : forall acc,
  NoDup acc -> Forall NoDup l ->
  NoDup (foldl (fun acc idx => acc ++ list_difference idx acc) acc l).
Proof.
  induction l as [|idx l IH]; intros acc Hacc Hl; simpl; [done|].
  apply Forall_cons in Hl as [Hidx Hl]. apply IH; [|done].
  apply NoDup_app. split; [done|]. split.
  - intros k Hk [_ Hn]%list_elem_of_difference. done.
  - by apply NoDup_list_difference.
Qed.

Lemma concat_axis1_index Ds U :
  concat_axis1 Ds = Ok U -> Forall (fun D => NoDup (index D)) Ds ->
  NoDup (index U) /\ forall k, k ∈ index U <-> exists D, D ∈ Ds /\ k ∈ index D.
Proof.
  unfold concat_axis1. destruct Ds as [|D0 rest]; [done|].
  intros HU Hnd. destruct (decide _) as [Hsame|Hdiff].
  - injection HU as <-. simpl. apply Forall_cons in Hnd as [Hnd0 _]. split; [done|].
    intros k. split.
    + intros Hk. exists D0. split; [left|done].
    + intros (D & [->|HD]%elem_of_cons & Hk); [done|].
      rewrite Forall_forall in Hsame. by rewrite <- (Hsame D HD).
  - destruct (decide _); [|done].
    assert (Hidx : index U = union_index (index <$> D0 :: rest)) by (by injection HU as <-).
    rewrite Hidx. clear HU Hidx. split.
    + apply union_index_NoDup; [constructor|]. by apply Forall_fmap.
    + intros k. unfold union_index. rewrite union_index_elem. split.
      * intros [?%elem_of_nil|(idx & Hidx & Hk)]; [done|].
        apply list_elem_of_fmap in Hidx as (D & -> & HD). by exists D.
      * intros (D & HD & Hk). right. exists (index D). split; [|done].
        apply list_elem_of_fmap. by exists D.
Qed.

Lemma do_annotyp_index `{SetOrder} fs annotdirpath na_values samples annotyp D :
  do_annotyp fs annotdirpath na_values samples annotyp = Ok D ->
  NoDup (sample_key <$> samples) ->
  NoDup (index D) /\
  forall k, k ∈ index D <->
    exists s T, s ∈ samples /\
      get_annot fs annotdirpath na_values s annotyp = Ok (Some T) /\ k ∈ index T.
Proof.
  intros HD Hnd. destruct (do_annotyp_tables _ _ _ _ _ _ HD) as (objs & HF & Hcat & _).
  apply concat_axis0_index in Hcat. rewrite omap_id_Some in Hcat.
  destruct (sample_tables_NoDup _ _ _ _ _ _ HF Hnd) as [Hnd' _].
  rewrite Hcat. split; [done|]. intros k. rewrite elem_of_concat. split.
  - intros (idx & Hk & Hidx). apply list_elem_of_fmap in Hidx as (T & -> & HT).
    apply list_elem_of_omap in HT as (o & Ho & HoT). simpl in HoT. subst o.
    apply list_elem_of_lookup_1 in Ho as [i Hi].
    destruct (Forall2_lookup_r _ _ _ _ _ HF Hi) as (s & Hs & Hget).
    exists s, T. split; [by eapply list_elem_of_lookup_2|done].
  - intros (s & T & Hs & Hget & Hk). exists (index T). split; [done|].
    apply list_elem_of_fmap. exists T. split; [done|].
    apply list_elem_of_omap. exists (Some T). split; [|done].
    apply list_elem_of_lookup_1 in Hs as [i Hi].
    destruct (Forall2_lookup_l _ _ _ _ _ HF Hi) as (o & Ho & Hget').
    rewrite Hget in Hget'. injection Hget' as <-. by eapply list_elem_of_lookup_2.
Qed.

(** X21.  With distinct (individual, tissue) pairs in the manifest, a returned
    Unified Annotation Table has one row per variant: no key is repeated,
    and its keys are exactly the keys of the tables read for the listed
    samples and sources. *)
Theorem get_multi_annotations_one_row_per_variant `{SetOrder}
    (fs : filesystem) (annotlist : list string) (vcflistpath annotdirpath : string)
    (na_values : gmap string (list string)) (samples : list string) (U : DataFrame) :
  manifests fs vcflistpath = Some samples ->
  NoDup (sample_key <$> samples) ->
  get_multi_annotations fs annotlist vcflistpath annotdirpath na_values = Ok U ->
  NoDup (index U) /\
  forall k, k ∈ index U <->
    exists s a T, s ∈ samples /\ a ∈ annotlist /\
      get_annot fs annotdirpath na_values s a = Ok (Some T) /\ k ∈ index T.
Proof.
  intros Hman Hnd HU. unfold get_multi_annotations in HU. rewrite Hman in HU.
  simpl in HU. apply bind_Ok in HU as (Ds & HDs & HU).
  apply mapR_Ok_Forall2 in HDs.
  destruct (concat_axis1_index Ds U HU) as [HndU Hkeys].
  { apply Forall_forall. intros D HD. apply list_elem_of_lookup_1 in HD as [j Hj].
    destruct (Forall2_lookup_r _ _ _ _ _ HDs Hj) as (a & _ & Ha).
    by destruct (do_annotyp_index _ _ _ _ _ _ Ha Hnd). }
  split; [done|]. intros k. rewrite Hkeys. split.
  - intros (D & HD & Hk). apply list_elem_of_lookup_1 in HD as [j Hj].
    destruct (Forall2_lookup_r _ _ _ _ _ HDs Hj) as (a & Haj & Ha).
    destruct (do_annotyp_index _ _ _ _ _ _ Ha Hnd) as [_ HkD].
    destruct (proj1 (HkD k) Hk) as (s & T & Hs & Hget & HkT).
    exists s, a, T. split; [done|]. split; [by eapply list_elem_of_lookup_2|done].
  - intros (s & a & T & Hs & Ha & Hget & Hk).
    apply list_elem_of_lookup_1 in Ha as [j Hj].
    destruct (Forall2_lookup_l _ _ _ _ _ HDs Hj) as (D & HDj & HD).
    exists D. split; [by eapply list_elem_of_lookup_2|].
    destruct (do_annotyp_index _ _ _ _ _ _ HD Hnd) as [_ HkD].
    apply HkD. by exists s, T.
Qed.

Lemma get_multi_annotations_one_row_per_variant_witness :
  let U := {| index := [Examples.k1; Examples.k2];
              columns := [("near_gens_Overlapped Gene",
                           {| dt := object; cells := [Str "g1"; Str "g2"] |})] |} in
  NoDup (index U) /\
  forall k, k ∈ index U <->
    exists s a T, s ∈ ["MSSM_1_muscle"] /\ a ∈ ["near_gens"] /\
      @get_annot dedup_order Examples.lone_fs "/annot" ∅ s a = Ok (Some T) /\ k ∈ index T.
Proof.
  apply (@get_multi_annotations_one_row_per_variant dedup_order Examples.lone_fs
           ["near_gens"] "/calls/filtered-vcfs.tsv" "/annot" ∅ ["MSSM_1_muscle"]).
  - reflexivity.
  - compute_done.
  - vm_compute. reflexivity.
Defined.

(** X22.  Only [ValueError] is taken for an empty contribution.  Any other
    exception of the reader or of the Duplicate Resolver on one listed pair,
    be it a missing identity column or a missing gene name on a repeated
    variant, leaves the whole join without a table. *)
Theorem get_multi_annotations_aborts `{SetOrder}
    (fs : filesystem) (annotlist : list string) (vcflistpath annotdirpath : string)
    (na_values : gmap string (list string)) (samples : list string)
    (s a : string) (e : exn) :
  manifests fs vcflistpath = Some samples ->
  s ∈ samples -> a ∈ annotlist ->
  (annot ← read_TXT_per_annotation fs (tsvpath_of annotdirpath s a)
             (sample2indivID s) (sample2tissue s) None (default [] (na_values !! a));
   annotation_duplicates annot ":") = Raise e ->
  e <> ValueError ->
  get_annot fs annotdirpath na_values s a = Raise e /\
  forall U, get_multi_annotations fs annotlist vcflistpath annotdirpath na_values <> Ok U.
Proof.
  intros Hman Hs Ha Hraise He.
  assert (Hget : get_annot fs annotdirpath na_values s a = Raise e).
  { unfold get_annot. unfold tsvpath_of in Hraise. rewrite Hraise. by destruct e. }
  split; [done|]. intros U HU. unfold get_multi_annotations in HU.
  rewrite Hman in HU. simpl in HU. apply bind_Ok in HU as (Ds & HDs & _).
  apply mapR_Ok_Forall2 in HDs.
  apply list_elem_of_lookup_1 in Ha as [j Hj].
  destruct (Forall2_lookup_l _ _ _ _ _ HDs Hj) as (D & _ & HD).
  destruct (do_annotyp_tables _ _ _ _ _ _ HD) as (objs & HF & _).
  apply list_elem_of_lookup_1 in Hs as [i Hi].
  destruct (Forall2_lookup_l _ _ _ _ _ HF Hi) as (o & _ & Ho).
  congruence.
Qed.

Lemma get_multi_annotations_aborts_witness :
  @get_annot dedup_order
     (Examples.one_file "/annot/MSSM_1_muscle/near_gens.txt" Examples.near_gens_raw)
     "/annot" ∅ "MSSM_1_muscle" "cons" = Raise FileNotFoundError /\
  forall U,
    @get_multi_annotations dedup_order Examples.absent_fs ["near_gens"; "cons"]
      "/calls/filtered-vcfs.tsv" "/annot" ∅ <> Ok U.
Proof.
  split.
  - vm_compute. reflexivity.
  - apply (@get_multi_annotations_aborts dedup_order Examples.absent_fs
             ["near_gens"; "cons"] "/calls/filtered-vcfs.tsv" "/annot" ∅
             ["MSSM_1_muscle"; "PITT_7_NeuN_pl"] "MSSM_1_muscle" "cons" FileNotFoundError).
    + reflexivity.
    + compute_done.
    + compute_done.
    + vm_compute. reflexivity.
    + discriminate.
Defined.

(** X23.  Without a source to read, or without a sample in the manifest, there is
    nothing to concatenate and the join ends in [ValueError]. *)
Theorem get_multi_annotations_nothing_to_join `{SetOrder}
    (fs : filesystem) (annotlist : list string) (vcflistpath annotdirpath : string)
    (na_values : gmap string (list string)) (samples : list string) :
  manifests fs vcflistpath = Some samples ->
  annotlist = [] \/ samples = [] ->
  get_multi_annotations fs annotlist vcflistpath annotdirpath na_values = Raise ValueError.
Proof.
  intros Hman Hnone. unfold get_multi_annotations. rewrite Hman. simpl.
  destruct annotlist as [|a annotlist]; [done|].
  destruct Hnone as [Hnil|Hnil]; [done|]. by rewrite Hnil.
Qed.

Lemma get_multi_annotations_nothing_to_join_witness :
  @get_multi_annotations dedup_order Examples.absent_fs []
    "/calls/filtered-vcfs.tsv" "/annot" ∅ = Raise ValueError.
Proof.
  apply (@get_multi_annotations_nothing_to_join dedup_order Examples.absent_fs []
           "/calls/filtered-vcfs.tsv" "/annot" ∅ ["MSSM_1_muscle"; "PITT_7_NeuN_pl"]).
  - reflexivity.
  - by left.
Defined.

(** ** [do_annot] *)

(** With a dictionary for [na_values] the joiner as called is the joiner of
    the Multi-Source Joiner section. *)
Lemma get_multi_annotations_arg_dict `{SetOrder} fs annotlist vcflistpath annotdirpath d :
  get_multi_annotations_arg fs annotlist vcflistpath annotdirpath (NaDict d)
  = get_multi_annotations fs annotlist vcflistpath annotdirpath d.
Proof. reflexivity. Qed.

Lemma mapR_first_raise {A B} (f : A -> result B) (x : A) (l : list A) (e : exn) :
  f x = Raise e -> mapR f (x :: l) = Raise e.
Proof. intros Hx. simpl. by rewrite Hx. Qed.

(** X24.  [do_annot] calls the joiner with its default [na_values], a list, and
    so never gets as far as a table: the first pair of a sample and a
    source ends in [AttributeError]; without a pair there is nothing to
    concatenate, and without the manifest no file to read. *)
Theorem do_annot_never_returns `{SetOrder}
    (fs : filesystem) (annotlist : list string) (calls : DataFrame)
    (cols2process : option (list string)) :
  do_annot fs annotlist calls cols2process =
  match manifests fs default_vcflistpath with
  | None => Raise FileNotFoundError
  | Some samples =>
      if decide (annotlist = [] \/ samples = []) then Raise ValueError
      else Raise AttributeError
  end.
Proof.
  unfold do_annot, get_multi_annotations_arg.
  destruct (manifests fs default_vcflistpath) as [samples|]; [|done]. simpl.
  destruct annotlist as [|a annotlist].
  { rewrite decide_True by (by left). done. }
  destruct samples as [|s samples].
  { rewrite decide_True by (by right). done. }
  rewrite decide_False by (intros [?|?]; done).
  rewrite (mapR_first_raise _ a annotlist AttributeError); [done|].
  unfold do_annotyp_arg.
  by rewrite (mapR_first_raise _ s samples AttributeError).
Qed.
